(** * BrainSAIT enrichment pipeline: crawler, feature extraction, scoring

    A shallow embedding of the deterministic core of [brainsait_ai]:

    - [google_places/client.py]   : [BusinessRecord]
    - [features/engineering.py]   : [FeatureVector], [build_feature_vector]
    - [scoring/digital_maturity.py] : [DigitalMaturityScorer]
    - [generation/offers.py]      : [OfferGenerator.analyze_package_fit]
    - [utils/http.py]             : [get] under its [tenacity] retry policy
    - [enrichment/web_crawler.py] : [WebCrawler]
    - [utils/text.py], [storage/persistence.py] : cleaning and chunking
    - [pipeline/orchestrator.py], [cli.py] : discovery, analysis, summary,
      file names

    Conventions.  A Python [str] is a [string] (code points below 256);
    [None] is [option]'s [None]; a Python [int] is a [Z]; a function that
    may raise returns an [option], with [None] for the exception.  A Python
    [float] is a rational in [Q]: every float the scorer computes is a
    multiple of 1/4 below 2^10, so float arithmetic on them is exact, and
    the comparisons against the literals 300, 400, 250 and 4.2 agree with
    the rational ones (no double lies strictly between 4.2 and the double
    nearest to it).  Where a float operation does round (the mean of the
    word counts, the average score of a summary) its result is the nearest
    double, [Float.nearest].  What the third-party libraries answer (BeautifulSoup,
    trafilatura, langdetect, the network, the text generator) enters through
    type classes; [urllib.parse] and [tenacity] are written out.

    The first part holds the embedding, then the vocabulary of the
    statements with sample inputs; the second part holds the properties,
    module by module. *)

From Stdlib Require Import String Ascii List ZArith QArith Qround Qabs Qpower Qfield Bool.
From Stdlib Require Import Lia Lqa Arith.
From Stdlib Require Import Sorting.Sorted Sorting.Permutation.
From Equations Require Import Equations.
Import ListNotations.

Open Scope string_scope.

(** ** Small error monad: a Python call that may raise *)

Definition bind {A B : Type} (m : option A) (k : A -> option B) : option B :=
  match m with
  | Some a => k a
  | None => None
  end.

Notation "x <- m ;; k" := (bind m (fun x => k))
  (at level 61, m at next level, right associativity).

(** ** Python [str] methods used across the modules *)

Module Str.

(** Characters removed by [str.strip()] among the code points below 256. *)
Definition is_py_space (c : ascii) : bool :=
  let n := nat_of_ascii c in
  ((9 <=? n) && (n <=? 13) || (28 <=? n) && (n <=? 32) || (n =? 133) || (n =? 160))%nat.

Fixpoint lstrip (s : string) : string :=
  match s with
  | String c s' => if is_py_space c then lstrip s' else s
  | EmptyString => EmptyString
  end.

Fixpoint rstrip (s : string) : string :=
  match s with
  | String c s' =>
      match rstrip s' with
      | EmptyString => if is_py_space c then EmptyString else String c EmptyString
      | r => String c r
      end
  | EmptyString => EmptyString
  end.

Definition strip (s : string) : string := rstrip (lstrip s).

(** [s.lower()] on the ASCII letters. *)
Definition lower_char (c : ascii) : ascii :=
  let n := nat_of_ascii c in
  if ((65 <=? n) && (n <=? 90))%nat then ascii_of_nat (n + 32) else c.

Fixpoint lower (s : string) : string :=
  match s with
  | String c s' => String (lower_char c) (lower s')
  | EmptyString => EmptyString
  end.

(** [s.startswith(p)]. *)
Fixpoint startswith (s p : string) {struct p} : bool :=
  match p with
  | EmptyString => true
  | String a p' =>
      match s with
      | String b s' => Ascii.eqb a b && startswith s' p'
      | EmptyString => false
      end
  end.

(** [needle in s]. *)
Fixpoint contains (needle s : string) : bool :=
  startswith s needle ||
  match s with
  | String _ s' => contains needle s'
  | EmptyString => false
  end.

(** [len(s.split())]: the number of maximal runs of non-space characters.
    [in_word] tells whether the previous character belonged to a word. *)
Fixpoint count_words_from (in_word : bool) (s : string) : nat :=
  match s with
  | String c s' =>
      if is_py_space c then count_words_from false s'
      else if in_word then count_words_from true s'
      else S (count_words_from true s')
  | EmptyString => O
  end.

Definition count_words (s : string) : nat := count_words_from false s.

(** [re.sub(r"\s+", " ", s)]: every run of white space becomes one space. *)
Fixpoint collapse_spaces_from (in_space : bool) (s : string) : string :=
  match s with
  | String c s' =>
      if is_py_space c then
        if in_space then collapse_spaces_from true s'
        else String " " (collapse_spaces_from true s')
      else String c (collapse_spaces_from false s')
  | EmptyString => EmptyString
  end.

(** [utils/text.py], [clean_whitespace]; [None] is read as the empty string. *)
Definition clean_whitespace (text : option string) : string :=
  let text := match text with Some t => t | None => EmptyString end in
  strip (collapse_spaces_from false text).

End Str.

(** ** google_places/client.py *)

Record Coordinates := mkCoordinates { lat : Q; lng : Q }.

Record BusinessRecord := mkBusinessRecord {
  place_id : string;
  name : string;
  address : string;
  location : Coordinates;
  types : list string;
  rating : option Q;
  user_ratings_total : option Z;
  website : option string;
  phone_number : option string;
  google_maps_url : string
}.

(** ** features/engineering.py: the feature vector *)

Record FeatureVector := mkFeatureVector {
  fv_place_id : string;
  fv_business_name : string;
  fv_website : option string;
  total_pages : Z;
  languages : list string;
  avg_word_count : Q;
  has_structured_data : bool;
  has_meta_description : bool;
  has_open_graph : bool;
  has_analytics : bool;
  has_contact_cta : bool;
  has_viewport_meta : bool;
  has_email_address : bool;
  has_phone_number : bool
}.

(** ** scoring/digital_maturity.py *)

Module Scoring.

Open Scope Q_scope.

Record SubScores := mkSubScores {
  technical : Q;
  seo : Q;
  content : Q;
  trust : Q
}.

Record MaturityAssessment := mkMaturityAssessment {
  ma_place_id : string;
  ma_business_name : string;
  overall_score : Q;
  subscores : SubScores;
  highlights_en : string;
  highlights_ar : string;
  recommendations_en : string;
  recommendations_ar : string
}.

(** [a >= b] on floats. *)
Definition ge_float (a b : Q) : bool := Qle_bool b a.

(** Python's [min(a, b)]: [b] when [b < a], otherwise [a]. *)
Definition py_min (a b : Q) : Q := if Qle_bool a b then a else b.

(** [business.website and business.website.startswith("https")]: [None]
    and the empty string are falsy. *)
Definition website_is_https (w : option string) : bool :=
  match w with
  | Some s => Str.startswith s "https"
  | None => false
  end.

(** [business.rating or 0]: [None] and [0.0] both give 0. *)
Definition rating_or_zero (r : option Q) : Q :=
  match r with
  | Some q => q
  | None => 0
  end.

(** [business.user_ratings_total and business.user_ratings_total > 50]. *)
Definition many_ratings (n : option Z) : bool :=
  match n with
  | Some k => (k >? 50)%Z
  | None => false
  end.

Definition _score_technical (business : BusinessRecord) (features : FeatureVector) : Q :=
  let score := 50 in
  let score := if website_is_https (website business) then score + 15 else score in
  let score := if has_structured_data features then score + 10 else score in
  let score := if has_viewport_meta features then score + 10 else score in
  let score := if has_analytics features then score + 15 else score in
  py_min score 100.

Definition _score_seo (features : FeatureVector) : Q :=
  let score := 40 in
  let score := if has_meta_description features then score + 15 else score in
  let score := if has_open_graph features then score + 10 else score in
  let score := if (2 <=? length (languages features))%nat then score + 15 else score in
  let score := if ge_float (avg_word_count features) 300 then score + 20 else score in
  py_min score 100.

Definition _score_content (features : FeatureVector) : Q :=
  let score := 35 in
  let score :=
    if ge_float (avg_word_count features) 400 then score + 20
    else if ge_float (avg_word_count features) 250 then score + 10
    else score in
  let score := if (total_pages features >=? 3)%Z then score + 15 else score in
  let score := if has_contact_cta features then score + 10 else score in
  py_min score 100.

Definition _score_trust (business : BusinessRecord) (features : FeatureVector) : Q :=
  let score := 45 in
  let score := if ge_float (rating_or_zero (rating business)) (42 # 10) then score + 15 else score in
  let score := if has_email_address features then score + 10 else score in
  let score := if has_phone_number features then score + 10 else score in
  let score := if many_ratings (user_ratings_total business) then score + 10 else score in
  py_min score 100.

Definition _calculate_subscores (business : BusinessRecord) (features : FeatureVector) : SubScores :=
  let technical := _score_technical business features in
  let seo := _score_seo features in
  let content := _score_content features in
  let trust := _score_trust business features in
  mkSubScores technical seo content trust.

(** Round a rational to the nearest integer, ties to the even one. *)
Definition round_half_even (q : Q) : Z :=
  let n := Qnum q in
  let d := Zpos (Qden q) in
  let f := (n / d)%Z in
  let r := (n mod d)%Z in
  match (2 * r ?= d)%Z with
  | Lt => f
  | Gt => (f + 1)%Z
  | Eq => if Z.even f then f else (f + 1)%Z
  end.

(** Python's [round(x, 2)]: the exact value of [x] rounded half-even to two
    decimals. *)
Definition py_round2 (x : Q) : Q := round_half_even (x * 100) # 100.

(** The average that [score] rounds. *)
Definition mean4 (s : SubScores) : Q :=
  (technical s + seo s + content s + trust s) / 4.

(** The text-generation collaborator ([ai/client.py], [SupportsLLM]) and the
    two prompt templates of the scorer, which format floats into text.
    [generate] returns [None] when the call raises. *)
Class SupportsLLM := {
  generate : string -> option string;
  _build_prompt : BusinessRecord -> FeatureVector -> SubScores -> string -> string;
  _build_recommendation_prompt : BusinessRecord -> FeatureVector -> SubScores -> string -> string
}.

Section Scorer.

Context {llm : SupportsLLM}.

Definition score (business : BusinessRecord) (features : FeatureVector)
  : option MaturityAssessment :=
  let subscores := _calculate_subscores business features in
  let overall := py_round2 (mean4 subscores) in
  let highlight_prompt := _build_prompt business features subscores "English" in
  let highlight_prompt_ar := _build_prompt business features subscores "Arabic" in
  let recommendation_prompt :=
    _build_recommendation_prompt business features subscores "English" in
  let recommendation_prompt_ar :=
    _build_recommendation_prompt business features subscores "Arabic" in
  highlights_en <- generate highlight_prompt ;;
  highlights_ar <- generate highlight_prompt_ar ;;
  recommendations_en <- generate recommendation_prompt ;;
  recommendations_ar <- generate recommendation_prompt_ar ;;
  Some (mkMaturityAssessment
          (place_id business) (name business) overall subscores
          (Str.strip highlights_en) (Str.strip highlights_ar)
          (Str.strip recommendations_en) (Str.strip recommendations_ar)).

End Scorer.

End Scoring.

(** ** generation/offers.py: package recommendation *)

Module Offers.

Open Scope Q_scope.

Inductive ServicePackage := BASIC | PROFESSIONAL | ENTERPRISE.

Record BusinessAnalysis := mkBusinessAnalysis {
  business : BusinessRecord;
  feature_vector : FeatureVector;
  maturity : Scoring.MaturityAssessment;
  industry : string;
  web_page_titles : list string;
  locale : string
}.

(** [a < b] on floats. *)
Definition lt_float (a b : Q) : bool := negb (Qle_bool b a).

Definition analyze_package_fit (analysis : BusinessAnalysis) : ServicePackage :=
  let maturity_score := Scoring.overall_score (maturity analysis) in
  if lt_float maturity_score 30 then BASIC
  else if lt_float maturity_score 70 then PROFESSIONAL
  else ENTERPRISE.

End Offers.

(** ** utils/http.py: [get] under [tenacity.retry] *)

Module Http.

Open Scope Z_scope.

(** What one call of [session.get] does: it raises a
    [requests.RequestException] (connection error, timeout), raises some
    other exception, or returns a response with a status code. *)
Inductive SessionOutcome :=
| RaisesRequestException
| RaisesOther
| Responds (status_code : Z).

Inductive Exc :=
| RequestException
| HttpError (status_code : Z)
| OtherException.

Inductive Result :=
| Returned (status_code : Z)
| Raised (e : Exc).

(** The undecorated body of [get]. *)
Definition get_body (o : SessionOutcome) : Result :=
  match o with
  | RaisesRequestException => Raised RequestException
  | RaisesOther => Raised OtherException
  | Responds status_code =>
      if status_code >=? 400 then Raised (HttpError status_code)
      else Returned status_code
  end.

(** [retry_if_exception_type((requests.RequestException, HttpError))]. *)
Definition retry_if_exception_type (e : Exc) : bool :=
  match e with
  | RequestException => true
  | HttpError _ => true
  | OtherException => false
  end.

(** [stop_after_attempt(3)]. *)
Definition max_attempt_number : nat := 3.

Definition stop_after_attempt (attempt_number : nat) : bool :=
  (max_attempt_number <=? attempt_number)%nat.

(** [wait_exponential(multiplier=1, min=1, max=8)], in seconds. *)
Definition wait_exponential (attempt_number : nat) : Z :=
  let exp := 2 ^ Z.of_nat (attempt_number - 1) in
  let result := 1 * exp in
  Z.max (Z.max 0 1) (Z.min result 8).

Inductive Event :=
| Attempt (attempt_number : nat) (o : SessionOutcome)
| Sleep (seconds : Z).

(** The retry loop of [tenacity]: [session k] is the outcome of the [k]-th
    call of [session.get]; [remaining] counts the attempts that
    [stop_after_attempt] still allows after the current one.  With
    [reraise=True] the last exception is raised once the loop stops. *)
Fixpoint retrying (session : nat -> SessionOutcome) (remaining attempt_number : nat)
  : Result * list Event :=
  let o := session attempt_number in
  match get_body o with
  | Returned status_code => (Returned status_code, [Attempt attempt_number o])
  | Raised e =>
      if retry_if_exception_type e then
        match remaining with
        | O => (Raised e, [Attempt attempt_number o])
        | S remaining' =>
            let (r, evs) := retrying session remaining' (S attempt_number) in
            (r, Attempt attempt_number o :: Sleep (wait_exponential attempt_number) :: evs)
        end
      else (Raised e, [Attempt attempt_number o])
  end.

Definition get (session : nat -> SessionOutcome) : Result * list Event :=
  retrying session (max_attempt_number - 1) 1.

Definition attempts (evs : list Event) : list (nat * SessionOutcome) :=
  flat_map (fun ev => match ev with Attempt k o => [(k, o)] | Sleep _ => [] end) evs.

Definition sleeps (evs : list Event) : list Z :=
  flat_map (fun ev => match ev with Attempt _ _ => [] | Sleep s => [s] end) evs.

(** An outcome that makes the body of [get] raise a retried exception. *)
Definition transport_failure (o : SessionOutcome) : bool :=
  match o with RaisesRequestException => true | _ => false end.

Definition error_status (o : SessionOutcome) : bool :=
  match o with Responds status_code => status_code >=? 400 | _ => false end.

End Http.

(** ** Python floats where their rounding shows *)

Module Float.

Open Scope Q_scope.

(** The exponent of the spacing of the doubles around a rational [q] that is
    not zero: the [e] with [2^52 <= |q| / 2^e < 2^53]. *)
Definition exponent (q : Q) : Z :=
  let e := (Z.log2 (Z.abs (Qnum q)) - Z.log2 (Zpos (Qden q)) - 52)%Z in
  if Qle_bool (2 ^ 52) (Qabs q * 2 ^ (- e)) then e else (e - 1)%Z.

(** The double nearest to [q], ties to the even mantissa: the value of a
    correctly rounded operation whose exact result is [q]. The quotients
    and sums taken below are of lengths, word counts and scores, which are
    zero or lie between 2^-63 and 2^126: within the normal range of
    binary64, where no overflow or gradual underflow arises. *)
Definition nearest (q : Q) : Q :=
  if Qeq_bool q 0 then 0
  else
    let e := exponent q in
    inject_Z (Scoring.round_half_even (q * 2 ^ (- e))) * 2 ^ e.

(** [a + b] and [a / b] on floats. *)
Definition add (a b : Q) : Q := nearest (a + b).
Definition div (a b : Q) : Q := nearest (a / b).

(** [round(x, 2)] on a float: the double nearest to the two-decimal
    rounding of the exact value of [x]. *)
Definition round2 (x : Q) : Q := nearest (Scoring.py_round2 x).

End Float.

(** ** enrichment/web_crawler.py: the page snapshot *)

Record PageSnapshot := mkPageSnapshot {
  url : string;
  title : string;
  language : option string;
  raw_html : string;
  extracted_text : string
}.

(** ** features/engineering.py *)

Module Features.

Definition _LANGUAGE_CODE_MAP : list (string * string) :=
  [("ar", "Arabic"); ("en", "English"); ("ar-sa", "Arabic"); ("en-us", "English")].

(** [d.get(key, default)] on a dict written as an association list. *)
Fixpoint dict_get (d : list (string * string)) (key default : string) : string :=
  match d with
  | (k, v) :: d' => if String.eqb k key then v else dict_get d' key default
  | [] => default
  end.

(** A regular expression made of literal characters and [.], which matches
    every character but a newline. *)
Definition Pattern := list (option ascii).

Definition literal (s : string) : Pattern := map Some (list_ascii_of_string s).

Fixpoint match_here (p : Pattern) (s : string) : bool :=
  match p, s with
  | [], _ => true
  | _ :: _, EmptyString => false
  | Some a :: p', String c s' => Ascii.eqb a c && match_here p' s'
  | None :: p', String c s' => negb (Ascii.eqb c "010") && match_here p' s'
  end.

(** [pattern.search(text)] as a truth value. *)
Fixpoint re_search (p : Pattern) (s : string) : bool :=
  match_here p s ||
  match s with
  | String _ s' => re_search p s'
  | EmptyString => false
  end.

Definition _ANALYTICS_PATTERNS : list Pattern :=
  [ literal "gtag(";
    literal "googletagmanager";
    (literal "analytics" ++ [None] ++ literal "js")%list;
    literal "gtm-" ].

Definition _CONTACT_KEYWORDS : list string :=
  ["contact"; "book"; "call"; "appointment"; "consultation"].

Definition _contains_patterns (text : string) (patterns : list Pattern) : bool :=
  existsb (fun pattern => re_search pattern text) patterns.

(** What [BeautifulSoup(raw_html, "lxml")] and the two character-class
    regular expressions answer on a page. *)
Class PageParser := {
  find_ld_json_script : string -> bool;
  find_meta_description : string -> bool;
  find_meta_open_graph : string -> bool;
  find_meta_viewport : string -> bool;
  anchor_texts : string -> list string;
  search_email : string -> bool;
  search_phone : string -> bool
}.

(** [collections.Counter] as an insertion-ordered dict. *)
Definition Counter := list (string * Z).

(** [counter[key] += 1]. *)
Fixpoint counter_incr (key : string) (c : Counter) : Counter :=
  match c with
  | (k, n) :: c' =>
      if String.eqb k key then (k, (n + 1)%Z) :: c' else (k, n) :: counter_incr key c'
  | [] => [(key, 1%Z)]
  end.

(** One step of the stable sort behind [sorted(items, key=itemgetter(1),
    reverse=True)]: [x] stood before every element of [l] and stays before
    those whose count is not larger. *)
Fixpoint insert_by_count (x : string * Z) (l : list (string * Z)) : list (string * Z) :=
  match l with
  | y :: l' => if (snd x <? snd y)%Z then y :: insert_by_count x l' else x :: l
  | [] => [x]
  end.

(** [Counter.most_common()]. *)
Definition most_common (c : Counter) : list (string * Z) :=
  fold_right insert_by_count [] c.

Section Build.

Context {parser : PageParser}.

Definition _contains_contact_cta (html : string) : bool :=
  existsb
    (fun text =>
       let content := Str.lower (Str.strip text) in
       existsb (fun keyword => Str.contains keyword content) _CONTACT_KEYWORDS)
    (anchor_texts html).

(** The label that the loop counts for a snapshot, if any. *)
Definition language_label_of (snapshot : PageSnapshot) : option string :=
  match language snapshot with
  | Some lang =>
      if String.eqb lang "" then None
      else
        let language_code := Str.lower lang in
        let language_label := dict_get _LANGUAGE_CODE_MAP language_code lang in
        if String.eqb language_label "" then None else Some language_label
  | None => None
  end.

(** The local variables of [build_feature_vector] that its loop updates. *)
Record Scan := mkScan {
  language_counter : Counter;
  word_counts : list Z;
  structured_data : bool;
  meta_description : bool;
  open_graph : bool;
  analytics : bool;
  contact_cta : bool;
  viewport_meta : bool;
  email_present : bool;
  phone_present : bool
}.

Definition scan_start : Scan :=
  mkScan [] [] false false false false false false false false.

(** The body of [for snapshot in snapshots]. *)
Definition scan_snapshot (acc : Scan) (snapshot : PageSnapshot) : Scan :=
  let text := extracted_text snapshot in
  let html := raw_html snapshot in
  mkScan
    (match language_label_of snapshot with
     | Some language_label => counter_incr language_label (language_counter acc)
     | None => language_counter acc
     end)
    (word_counts acc ++ [Z.of_nat (Str.count_words text)])%list
    (structured_data acc || (find_ld_json_script html || Str.contains "schema.org" html))
    (meta_description acc || find_meta_description html)
    (open_graph acc || find_meta_open_graph html)
    (analytics acc || _contains_patterns html _ANALYTICS_PATTERNS)
    (contact_cta acc || _contains_contact_cta html)
    (viewport_meta acc || find_meta_viewport html)
    (email_present acc || search_email text)
    (phone_present acc || search_phone text).

(** [statistics.mean] of a list of integers that is not empty: the exact
    quotient when it is a whole number (an [int]), and otherwise the float
    nearest to it, [float(Fraction(total, n))]. *)
Definition mean (xs : list Z) : Q :=
  let total := fold_left Z.add xs 0%Z in
  let n := Z.of_nat (length xs) in
  if (total mod n =? 0)%Z then inject_Z (total / n)
  else Float.nearest (inject_Z total / inject_Z n).

Definition build_feature_vector (business : BusinessRecord) (pages : list PageSnapshot)
  : FeatureVector :=
  let snapshots := pages in
  match snapshots with
  | [] =>
      mkFeatureVector (place_id business) (name business) (website business)
        0 [] 0 false false false false false false false false
  | _ :: _ =>
      let acc := fold_left scan_snapshot snapshots scan_start in
      let languages := map fst (most_common (language_counter acc)) in
      let avg_words :=
        match word_counts acc with
        | [] => 0%Q
        | _ :: _ => mean (word_counts acc)
        end in
      mkFeatureVector (place_id business) (name business) (website business)
        (Z.of_nat (length snapshots)) languages avg_words
        (structured_data acc) (meta_description acc) (open_graph acc)
        (analytics acc) (contact_cta acc) (viewport_meta acc)
        (email_present acc) (phone_present acc)
  end.

End Build.

End Features.

(** ** urllib.parse as the crawler uses it *)

Module Urllib.

(** Splitting a string at the first character that satisfies [p]: the
    characters before it, and the rest starting with it. *)
Fixpoint break (p : ascii -> bool) (s : string) : string * string :=
  match s with
  | String c s' =>
      if p c then (EmptyString, s)
      else let (a, b) := break p s' in (String c a, b)
  | EmptyString => (EmptyString, EmptyString)
  end.

Fixpoint forallb_str (p : ascii -> bool) (s : string) : bool :=
  match s with
  | String c s' => p c && forallb_str p s'
  | EmptyString => true
  end.

Definition has_char (c : ascii) (s : string) : bool :=
  negb (forallb_str (fun x => negb (Ascii.eqb x c)) s).

Definition is_empty (s : string) : bool :=
  match s with EmptyString => true | String _ _ => false end.

Definition tail (s : string) : string :=
  match s with String _ s' => s' | EmptyString => EmptyString end.

(** [_WHATWG_C0_CONTROL_OR_SPACE]. *)
Definition is_c0_control_or_space (c : ascii) : bool := (nat_of_ascii c <=? 32)%nat.

Fixpoint lstrip_c0 (s : string) : string :=
  match s with
  | String c s' => if is_c0_control_or_space c then lstrip_c0 s' else s
  | EmptyString => EmptyString
  end.

(** [_UNSAFE_URL_BYTES_TO_REMOVE]: tab, carriage return, newline. *)
Definition is_unsafe_byte (c : ascii) : bool :=
  Ascii.eqb c "009" || Ascii.eqb c "013" || Ascii.eqb c "010".

Fixpoint remove_unsafe (s : string) : string :=
  match s with
  | String c s' => if is_unsafe_byte c then remove_unsafe s' else String c (remove_unsafe s')
  | EmptyString => EmptyString
  end.

Definition is_ascii_alpha (c : ascii) : bool :=
  let n := nat_of_ascii c in
  ((65 <=? n) && (n <=? 90) || (97 <=? n) && (n <=? 122))%nat.

Definition is_ascii_digit (c : ascii) : bool :=
  let n := nat_of_ascii c in ((48 <=? n) && (n <=? 57))%nat.

(** [scheme_chars]. *)
Definition is_scheme_char (c : ascii) : bool :=
  is_ascii_alpha c || is_ascii_digit c ||
  Ascii.eqb c "+" || Ascii.eqb c "-" || Ascii.eqb c ".".

Definition is_colon (c : ascii) : bool := Ascii.eqb c ":".
Definition is_hash (c : ascii) : bool := Ascii.eqb c "#".
Definition is_question (c : ascii) : bool := Ascii.eqb c "?".

(** The delimiters that end the network location, [_splitnetloc]. *)
Definition is_netloc_delim (c : ascii) : bool :=
  Ascii.eqb c "/" || Ascii.eqb c "?" || Ascii.eqb c "#".

Record SplitResult := mkSplitResult {
  scheme : string;
  netloc : string;
  path : string;
  query : string;
  fragment : string
}.

(** The scheme step of [urlsplit]: with [i = url.find(':')], when [i > 0],
    [url[0]] is an ASCII letter and [url[:i]] consists of scheme characters,
    the scheme is [url[:i].lower()] and the rest is [url[i+1:]]. *)
Definition split_scheme (url : string) : string * string :=
  let (before, rest) := break is_colon url in
  match before, rest with
  | String c0 _, String _ after =>
      if is_ascii_alpha c0 && forallb_str is_scheme_char before
      then (Str.lower before, after)
      else (EmptyString, url)
  | _, _ => (EmptyString, url)
  end.

(** [url.split(c, 1)] when [c] occurs in [url], else [(url, "")]. *)
Definition split_once (p : ascii -> bool) (url : string) : string * string :=
  let (before, rest) := break p url in (before, tail rest).

(** [netloc.partition('[')[2].partition(']')[0]]. *)
Definition bracketed_host (netloc : string) : string :=
  fst (break (Ascii.eqb "]") (tail (snd (break (Ascii.eqb "[") netloc)))).

(** The parts of [urllib.parse] that the model takes from the library:
    [_check_bracketed_host], which validates an IPv6 or IPvFuture literal
    (false when it raises [ValueError]), and [urljoin] ([None] when it
    raises [ValueError]).  [_checknetloc] only raises on characters whose
    NFKC form contains a URL delimiter; no code point below 256 has one. *)
Class Library := {
  _check_bracketed_host : string -> bool;
  urljoin : string -> string -> option string
}.

Section Split.

Context {lib : Library}.

(** The [ValueError] checks of [urlsplit] on the network location. *)
Definition netloc_accepted (netloc : string) : bool :=
  let has_open := has_char "[" netloc in
  let has_close := has_char "]" netloc in
  if (has_open && negb has_close) || (has_close && negb has_open) then false
  else if has_open && has_close then _check_bracketed_host (bracketed_host netloc)
  else true.

(** [urllib.parse.urlsplit(url)]; [None] stands for [ValueError]. *)
Definition urlsplit (url : string) : option SplitResult :=
  let url := lstrip_c0 url in
  let url := remove_unsafe url in
  let (scheme, url) := split_scheme url in
  let (netloc, url) :=
    if Str.startswith url "//" then break is_netloc_delim (tail (tail url))
    else (EmptyString, url) in
  if netloc_accepted netloc then
    let (url, fragment) := split_once is_hash url in
    let (url, query) := split_once is_question url in
    Some (mkSplitResult scheme netloc url query fragment)
  else None.

End Split.

Definition uses_netloc : list string :=
  [""; "ftp"; "http"; "gopher"; "nntp"; "telnet"; "imap"; "wais"; "file"; "mms";
   "https"; "shttp"; "snews"; "prospero"; "rtsp"; "rtspu"; "rsync"; "svn";
   "svn+ssh"; "sftp"; "nfs"; "git"; "git+ssh"; "ws"; "wss"].

Definition mem_str (s : string) (l : list string) : bool :=
  existsb (String.eqb s) l.

(** [urllib.parse.urlunsplit((scheme, netloc, url, query, fragment))]. *)
Definition urlunsplit (scheme netloc url query fragment : string) : string :=
  let url :=
    if negb (is_empty netloc)
       || (negb (is_empty scheme) && mem_str scheme uses_netloc
           && negb (Str.startswith url "//"))
    then
      let url :=
        match url with
        | EmptyString => url
        | String c _ => if Ascii.eqb c "/" then url else String "/" url
        end in
      "//" ++ netloc ++ url
    else url in
  let url := if is_empty scheme then url else scheme ++ ":" ++ url in
  let url := if is_empty query then url else url ++ "?" ++ query in
  let url := if is_empty fragment then url else url ++ "#" ++ fragment in
  url.

(** [s.rstrip("/")]. *)
Fixpoint rstrip_slash (s : string) : string :=
  match s with
  | String c s' =>
      match rstrip_slash s' with
      | EmptyString => if Ascii.eqb c "/" then EmptyString else String c EmptyString
      | r => String c r
      end
  | EmptyString => EmptyString
  end.

End Urllib.

(** ** enrichment/web_crawler.py *)

Module Crawler.

Import Urllib.

(** The network as one crawl sees it.  [read_robots w robots_url] builds a
    [RobotFileParser], reads [robots_url] (a failed read is swallowed and
    leaves the permissive default) and returns it; [can_fetch p url] is
    [p.can_fetch("*", url)]; [http_get w url] is [_fetch_html]: the text of
    the response, or [None] when [utils.http.get] raised.  Every call may
    change the state of the world, so the same URL can answer differently
    from one call to the next. *)
Class Net (World RobotParser : Type) := {
  read_robots : World -> string -> RobotParser * World;
  can_fetch : RobotParser -> string -> bool;
  http_get : World -> string -> option string * World
}.

(** What the parsing libraries answer on a page: [soup.title.string] (or
    [None] without a title), [trafilatura.extract], [soup.get_text(" ")],
    [langdetect.detect] ([None] when it raises), the [href] of every
    [<a href>] in document order, and the order in which a Python [set] of
    strings with the given elements is iterated. *)
Class Html := {
  title_string : string -> option string;
  extract_text : string -> option string;
  get_text : string -> string;
  detect : string -> option string;
  anchor_hrefs : string -> list string;
  iter_set : list string -> list string;
  iter_set_perm : forall l, Permutation (iter_set l) l
}.

Section WebCrawler.

Context {lib : Library} {html_lib : Html}.
Context {World RobotParser : Type} {net : Net World RobotParser}.

Variable _max_pages : Z.

Definition _normalize_url (url : string) : option string :=
  match urlsplit url with
  | None => None
  | Some parsed =>
      if negb (mem_str (scheme parsed) ["http"; "https"]) || is_empty (netloc parsed)
      then None
      else
        let normalized :=
          urlunsplit (scheme parsed) (netloc parsed)
            (if is_empty (path parsed) then "/" else path parsed) "" "" in
        Some (rstrip_slash normalized ++ (if is_empty (path parsed) then "/" else ""))
  end.

(** [None] when [urlsplit] raises. *)
Definition _domain_key (url : string) : option string :=
  parsed <- urlsplit url ;;
  Some (urlunsplit (scheme parsed) (netloc parsed) "" "" "").

Definition _detect_language (text : string) : option string :=
  if (String.length text <? 20)%nat then None else detect text.

(** [self._robots_cache], a dict from domain key to parser. *)
Definition RobotsCache := list (string * RobotParser).

Fixpoint cache_lookup (domain : string) (cache : RobotsCache) : option RobotParser :=
  match cache with
  | (k, v) :: cache' => if String.eqb k domain then Some v else cache_lookup domain cache'
  | [] => None
  end.

(** [cache[domain] = parser] for a domain that is not yet a key. *)
Definition cache_store (domain : string) (parser : RobotParser) (cache : RobotsCache)
  : RobotsCache := (cache ++ [(domain, parser)])%list.

Definition _get_robot_parser (cache : RobotsCache) (w : World) (url : string)
  : option (RobotParser * RobotsCache * World) :=
  domain <- _domain_key url ;;
  match cache_lookup domain cache with
  | Some parser => Some (parser, cache, w)
  | None =>
      robots_url <- urljoin domain "/robots.txt" ;;
      let (parser, w') := read_robots w robots_url in
      Some (parser, cache_store domain parser cache, w')
  end.

Definition _is_allowed (cache : RobotsCache) (w : World) (url : string)
  : option (bool * RobotsCache * World) :=
  r <- _get_robot_parser cache w url ;;
  let '(parser, cache', w') := r in
  Some (can_fetch parser url, cache', w').

(** [links.add(x)] on a set kept as a duplicate-free list. *)
Definition set_add (x : string) (s : list string) : list string :=
  if mem_str x s then s else (s ++ [x])%list.

(** The body of the loop of [_extract_internal_links] for one [href];
    [None] when [urljoin] or [urlsplit] raises. *)
Definition add_internal_link (root_url : string) (root_parts : SplitResult)
  (links : list string) (href : string) : option (list string) :=
  parsed <- urljoin root_url href ;;
  parsed_parts <- urlsplit parsed ;;
  if negb (String.eqb (netloc parsed_parts) (netloc root_parts)) then Some links
  else if negb (mem_str (scheme parsed_parts) ["http"; "https"]) then Some links
  else
    match _normalize_url parsed with
    | Some normalized =>
        if is_empty normalized then Some links else Some (set_add normalized links)
    | None => Some links
    end.

Fixpoint fold_links (root_url : string) (root_parts : SplitResult)
  (links : list string) (hrefs : list string) : option (list string) :=
  match hrefs with
  | href :: hrefs' =>
      links' <- add_internal_link root_url root_parts links href ;;
      fold_links root_url root_parts links' hrefs'
  | [] => Some links
  end.

Definition _extract_internal_links (root_url : string) (html : string)
  : option (list string) :=
  root_parts <- urlsplit root_url ;;
  fold_links root_url root_parts [] (anchor_hrefs html).

(** The local variables of [crawl], the robots cache of the crawler and the
    world. *)
Record Crawl := mkCrawl {
  to_visit : list string;
  seen : list string;
  snapshots : list PageSnapshot;
  _robots_cache : RobotsCache;
  world : World
}.

(** [while to_visit and len(snapshots) < self._max_pages]. *)
Definition loop_condition (st : Crawl) : bool :=
  negb (match to_visit st with [] => true | _ :: _ => false end)
  && (Z.of_nat (length (snapshots st)) <? _max_pages)%Z.

(** The body of [for link in ...]: the frontier after looking at one link. *)
Definition enqueue (seen : list string) (to_visit : list string) (link : string)
  : list string :=
  if negb (mem_str link seen) && negb (mem_str link to_visit)
     && (Z.of_nat (length to_visit) <? _max_pages * 2)%Z
  then (to_visit ++ [link])%list
  else to_visit.

Definition make_snapshot (target html : string) : PageSnapshot :=
  let title := Str.clean_whitespace (title_string html) in
  let text :=
    Str.clean_whitespace
      (Some match extract_text html with
            | Some t => if is_empty t then get_text html else t
            | None => get_text html
            end) in
  let language := _detect_language text in
  mkPageSnapshot target title language html text.

(** One iteration of the loop of [crawl]; [None] when it raises. *)
Definition crawl_body (normalized_root : string) (st : Crawl) : option Crawl :=
  match to_visit st with
  | [] => Some st
  | target :: rest =>
      if mem_str target (seen st) then
        Some (mkCrawl rest (seen st) (snapshots st) (_robots_cache st) (world st))
      else
        r <- _is_allowed (_robots_cache st) (world st) target ;;
        let '(allowed, cache, w) := r in
        if negb allowed then
          Some (mkCrawl rest (seen st) (snapshots st) cache w)
        else
          let seen' := target :: seen st in
          let (fetched, w') := http_get w target in
          match fetched with
          | None => Some (mkCrawl rest seen' (snapshots st) cache w')
          | Some html =>
              let snapshots' := (snapshots st ++ [make_snapshot target html])%list in
              links <- _extract_internal_links normalized_root html ;;
              let to_visit' := fold_left (enqueue seen') (iter_set links) rest in
              Some (mkCrawl to_visit' seen' snapshots' cache w')
          end
  end.

(** A bound on the iterations still to come: every iteration shortens the
    frontier by one, except those that collect one of the remaining pages
    and may refill the frontier up to its cap. *)
Definition budget (st : Crawl) : nat :=
  let cap := Z.to_nat (_max_pages * 2) in
  (length (to_visit st)
   + Z.to_nat (_max_pages - Z.of_nat (length (snapshots st))) * S cap)%nat.

Lemma enqueue_length (seen0 : list string) (links frontier : list string) :
  (length (fold_left (enqueue seen0) links frontier)
   <= Nat.max (length frontier) (Z.to_nat (_max_pages * 2)))%nat.
Proof.
  revert frontier.
  induction links as [|link links IH]; intros frontier; cbn [fold_left].
  - lia.
  - etransitivity; [apply IH|].
    unfold enqueue.
    destruct (negb (mem_str link seen0) && negb (mem_str link frontier)
              && (Z.of_nat (length frontier) <? _max_pages * 2)%Z) eqn:E.
    + apply andb_prop in E as [_ E]. apply Z.ltb_lt in E.
      rewrite length_app. cbn [length]. lia.
    + lia.
Qed.

Lemma crawl_body_decreases (normalized_root : string) (st st' : Crawl) :
  loop_condition st = true ->
  crawl_body normalized_root st = Some st' ->
  (budget st' < budget st)%nat.
Proof.
  unfold loop_condition, crawl_body, budget.
  destruct (to_visit st) as [|target rest]; [discriminate|].
  cbn [negb andb length]. intros Hlt Hbody.
  apply Z.ltb_lt in Hlt.
  destruct (mem_str target (seen st)).
  { injection Hbody as <-. cbn [to_visit snapshots]. lia. }
  destruct (_is_allowed _ _ _) as [[[allowed cache] w]|]; [|discriminate].
  cbn in Hbody.
  destruct allowed; cbn in Hbody.
  - destruct (http_get w target) as [[html|] w'].
    + destruct (_extract_internal_links _ _) as [links|]; [|discriminate].
      cbn in Hbody. injection Hbody as <-. cbn [snapshots to_visit].
      pose proof (enqueue_length (target :: seen st) (iter_set links) rest) as Hlen.
      rewrite length_app. cbn [length].
      set (cap := Z.to_nat (_max_pages * 2)) in *.
      set (n := length (snapshots st)) in *.
      replace (Z.to_nat (_max_pages - Z.of_nat n))
        with (S (Z.to_nat (_max_pages - Z.of_nat (n + 1)))) by lia.
      lia.
    + injection Hbody as <-. cbn [to_visit snapshots]. lia.
  - injection Hbody as <-. cbn [to_visit snapshots]. lia.
Qed.

(** Matching on a value while keeping the equation that names it. *)
Definition inspect {A : Type} (x : A) : {y : A | x = y} := exist _ x eq_refl.

(** The loop of [crawl]; [None] when an iteration raises. *)
Equations? crawl_loop (normalized_root : string) (st : Crawl) : option Crawl
  by wf (budget st) lt :=
  crawl_loop normalized_root st with inspect (loop_condition st) => {
    | exist _ true Hcond with inspect (crawl_body normalized_root st) => {
        | exist _ (Some st') Hbody => crawl_loop normalized_root st'
        | exist _ None _ => None };
    | exist _ false _ => Some st }.
Proof.
  eapply crawl_body_decreases; eassumption.
Qed.

(** [crawl(url)]: the snapshots, with the state in which the loop ended;
    [None] when the crawl raises. *)
Definition crawl_from (cache : RobotsCache) (w : World) (url : string) : option Crawl :=
  match _normalize_url url with
  | None => Some (mkCrawl [] [] [] cache w)
  | Some normalized_root =>
      if is_empty normalized_root then Some (mkCrawl [] [] [] cache w)
      else crawl_loop normalized_root (mkCrawl [normalized_root] [] [] cache w)
  end.

Definition crawl (cache : RobotsCache) (w : World) (url : string)
  : option (list PageSnapshot) :=
  st <- crawl_from cache w url ;;
  Some (snapshots st).

End WebCrawler.

End Crawler.

(** ** utils/text.py: chunking *)

Module Text.

(** Whether a string begins with a character of a word. *)
Definition starts_word (s : string) : bool :=
  match s with
  | String c _ => negb (Str.is_py_space c)
  | EmptyString => false
  end.

(** [s.split()]: the maximal runs of characters that are not white space. *)
Fixpoint split (s : string) : list string :=
  match s with
  | String c s' =>
      if Str.is_py_space c then split s'
      else
        match starts_word s', split s' with
        | true, w :: ws => String c w :: ws
        | _, ws => String c EmptyString :: ws
        end
  | EmptyString => []
  end.

(** [sep.join(parts)]. *)
Fixpoint join (sep : string) (parts : list string) : string :=
  match parts with
  | [] => EmptyString
  | [w] => w
  | w :: parts' => w ++ sep ++ join sep parts'
  end.

(** The loop of [chunk_text] over the words that are left, with the chunks
    made so far and the words of the chunk in the making. *)
Fixpoint chunk_loop (max_tokens : Z) (words : list string)
  (chunks : list string) (current : list string) : list string :=
  match words with
  | word :: words' =>
      let current := (current ++ [word])%list in
      if (Z.of_nat (length current) >=? max_tokens)%Z
      then chunk_loop max_tokens words' (chunks ++ [join " " current])%list []
      else chunk_loop max_tokens words' chunks current
  | [] =>
      match current with
      | [] => chunks
      | _ :: _ => (chunks ++ [join " " current])%list
      end
  end.

Definition chunk_text (text : string) (max_tokens : Z) : list string :=
  let words := split text in
  match words with
  | [] => []
  | _ :: _ => chunk_loop max_tokens words [] []
  end.

End Text.

(** ** Python [str], [range] and slices as the modules below use them *)

Module Py.

(** [s.lower()] on the code points below 256: the ASCII capitals and the
    Latin-1 capitals, which leaves out the multiplication sign. *)
Definition lower_char (c : ascii) : ascii :=
  let n := nat_of_ascii c in
  if ((65 <=? n) && (n <=? 90) || (192 <=? n) && (n <=? 222) && negb (n =? 215))%nat
  then ascii_of_nat (n + 32) else c.

Fixpoint lower (s : string) : string :=
  match s with
  | String c s' => String (lower_char c) (lower s')
  | EmptyString => EmptyString
  end.

(** [s.replace(old, new)] for one-character [old] and [new]. *)
Fixpoint replace (old new : ascii) (s : string) : string :=
  match s with
  | String c s' => String (if Ascii.eqb c old then new else c) (replace old new s')
  | EmptyString => EmptyString
  end.

(** [s.find(c)] for a one-character [c]: the first index, or -1. *)
Fixpoint find (c : ascii) (s : string) : Z :=
  match s with
  | String d s' =>
      if Ascii.eqb d c then 0%Z
      else let i := find c s' in if (i =? -1)%Z then (-1)%Z else (i + 1)%Z
  | EmptyString => (-1)%Z
  end.

(** [s.rfind(c)] for a one-character [c]: the last index, or -1. *)
Fixpoint rfind (c : ascii) (s : string) : Z :=
  match s with
  | String d s' =>
      let i := rfind c s' in
      if (i =? -1)%Z then (if Ascii.eqb d c then 0%Z else (-1)%Z) else (i + 1)%Z
  | EmptyString => (-1)%Z
  end.

(** The position that a slice bound stands for in a sequence of length
    [len]: negative bounds count from the end, and all are clamped. *)
Definition slice_bound (len i : Z) : Z :=
  if (i <? 0)%Z then Z.max 0 (i + len) else Z.min i len.

(** [s[start:stop]] on a string. *)
Definition slice (s : string) (start stop : Z) : string :=
  let len := Z.of_nat (String.length s) in
  let a := slice_bound len start in
  let b := slice_bound len stop in
  substring (Z.to_nat a) (Z.to_nat (b - a)) s.

(** [items[start:stop]] on a list. *)
Definition slice_list {A : Type} (items : list A) (start stop : Z) : list A :=
  let len := Z.of_nat (length items) in
  let a := slice_bound len start in
  let b := slice_bound len stop in
  firstn (Z.to_nat (b - a)) (skipn (Z.to_nat a) items).

(** The values of [range(start, stop, step)] from [i] on; [fuel] bounds
    their number. *)
Fixpoint range_from (fuel : nat) (i stop step : Z) : list Z :=
  match fuel with
  | S fuel' =>
      if (if (0 <? step)%Z then (i <? stop)%Z else (stop <? i)%Z)
      then i :: range_from fuel' (i + step)%Z stop step
      else []
  | O => []
  end.

(** [range(start, stop, step)]; a step of zero raises [ValueError]. *)
Definition range (start stop step : Z) : option (list Z) :=
  if (step =? 0)%Z then None
  else Some (range_from (Z.abs_nat (stop - start)) start stop step).

(** [s.lstrip(c)] and [s.rstrip(c)] for a one-character [c]. *)
Fixpoint lstrip_char (c : ascii) (s : string) : string :=
  match s with
  | String d s' => if Ascii.eqb d c then lstrip_char c s' else s
  | EmptyString => EmptyString
  end.

Fixpoint rstrip_char (c : ascii) (s : string) : string :=
  match s with
  | String d s' =>
      match rstrip_char c s' with
      | EmptyString => if Ascii.eqb d c then EmptyString else String d EmptyString
      | r => String d r
      end
  | EmptyString => EmptyString
  end.

Definition strip_char (c : ascii) (s : string) : string :=
  rstrip_char c (lstrip_char c s).

(** [re.sub(cls + "+", repl, s)] for a character class [cls] and a
    one-character [repl]: every maximal run of characters of the class is
    replaced by one [repl]. [in_run] tells that the character before was
    of the class. *)
Fixpoint sub_runs (cls : ascii -> bool) (repl : ascii) (in_run : bool) (s : string)
  : string :=
  match s with
  | String c s' =>
      if cls c then
        if in_run then sub_runs cls repl true s'
        else String repl (sub_runs cls repl true s')
      else String c (sub_runs cls repl false s')
  | EmptyString => EmptyString
  end.

End Py.

(** ** storage/persistence.py *)

Module Persistence.

(** [chunk_sequence(items, chunk_size)], the chunks that the generator
    yields; [None] when it raises. *)
Definition chunk_sequence {A : Type} (items : list A) (chunk_size : Z)
  : option (list (list A)) :=
  starts <- Py.range 0 (Z.of_nat (length items)) chunk_size ;;
  Some (map (fun i => Py.slice_list items i (i + chunk_size)) starts).

End Persistence.

(** ** generation/offers.py: pricing and the reading of LLM answers *)

Module OfferGenerator.

Import Offers.

(** [SERVICE_TIERS[package].base_price], in SAR. *)
Definition base_price (package : ServicePackage) : Z :=
  match package with
  | BASIC => 1500
  | PROFESSIONAL => 3500
  | ENTERPRISE => 8000
  end.

(** [INDUSTRY_PREMIUMS], each key with its [premium_sar]. *)
Definition INDUSTRY_PREMIUMS : list (string * Z) :=
  [ ("healthcare", 500%Z); ("education", 300%Z); ("ecommerce", 700%Z);
    ("restaurant", 200%Z); ("real_estate", 400%Z); ("automotive", 300%Z) ].

(** [d.get(key, default)]. *)
Fixpoint dict_get (d : list (string * Z)) (key : string) (default : Z) : Z :=
  match d with
  | (k, v) :: d' => if String.eqb k key then v else dict_get d' key default
  | [] => default
  end.

Definition calculate_adjusted_price (package : ServicePackage) (industry : string) : Z :=
  let base_price := base_price package in
  let industry_key := Py.replace " " "_" (Py.lower industry) in
  let premium := dict_get INDUSTRY_PREMIUMS industry_key 0 in
  (base_price + premium)%Z.

(** The first two lines of [generate_tailored_offer]: the package and the
    price that the offer carries. *)
Definition offer_package_and_price (analysis : BusinessAnalysis) : ServicePackage * Z :=
  let recommended_package := analyze_package_fit analysis in
  let adjusted_price := calculate_adjusted_price recommended_package (industry analysis) in
  (recommended_package, adjusted_price).

Record TailoredOffer := mkTailoredOffer {
  package_recommendation : ServicePackage;
  adjusted_price : Z;
  justification : string;
  arabic_summary : string;
  english_summary : string;
  priority_features : list string;
  roi_projection : string;
  next_steps : list string
}.

Record OutreachMessage := mkOutreachMessage {
  subject_ar : string;
  subject_en : string;
  body_ar : string;
  body_en : string;
  call_to_action : string;
  business_specific_details : string
}.

Definition _extract_json (text : string) : option string :=
  let start := Py.find "{" text in
  let end_ := Py.rfind "}" text in
  if negb (start =? -1)%Z && negb (end_ =? -1)%Z && (start <? end_)%Z
  then Some (Py.slice text start (end_ + 1))
  else None.

End OfferGenerator.

(** ** pipeline/orchestrator.py *)

Module Orchestrator.

Definition is_slug_char (c : ascii) : bool :=
  let n := nat_of_ascii c in
  ((97 <=? n) && (n <=? 122) || (48 <=? n) && (n <=? 57))%nat.

Definition is_dash (c : ascii) : bool := Ascii.eqb c "-".

Definition _slugify (value : string) : string :=
  let value := Py.lower (Str.strip value) in
  let value := Py.sub_runs (fun c => negb (is_slug_char c)) "-" false value in
  let value := Py.sub_runs is_dash "-" false value in
  let value := Py.strip_char "-" value in
  if Urllib.is_empty value then "business" else value.

(** [_infer_industry] ends in [str.title], whose results leave the code
    points below 256 (the capital of the sharp s is two letters, that of the
    y with diaeresis is above 255). *)
Class Casing := { str_title : string -> string }.

Definition _infer_industry {casing : Casing} (business : BusinessRecord) : string :=
  match types business with
  | first :: _ => str_title (Py.replace "_" " " first)
  | [] => "General"
  end.

Record AnalyzedBusiness := mkAnalyzedBusiness {
  business : BusinessRecord;
  feature_vector : FeatureVector;
  pages : list PageSnapshot;
  maturity : Scoring.MaturityAssessment;
  industry : string;
  offer : option OfferGenerator.TailoredOffer;
  outreach : option OfferGenerator.OutreachMessage
}.

(** [business.website] as a condition: [None] and the empty string are
    falsy. *)
Definition website_to_crawl (business : BusinessRecord) : option string :=
  match website business with
  | Some w => if Urllib.is_empty w then None else Some w
  | None => None
  end.

Section Pipeline.

Context {lib : Urllib.Library} {html_lib : Crawler.Html}.
Context {World RobotParser : Type} {net : Crawler.Net World RobotParser}.
Context {parser : Features.PageParser} {llm : Scoring.SupportsLLM}.
Context {casing : Casing}.

(** What [self.web_crawler] keeps between two crawls, and the network. *)
Definition CrawlerState : Type := (@Crawler.RobotsCache RobotParser * World)%type.

(** [pages = ...] in the loop of [_analyze_businesses]; [WebCrawler()] has
    the default cap of five pages. *)
Definition pages_of (include_web_analysis : bool) (business : BusinessRecord)
  (cw : CrawlerState) : option (list PageSnapshot * CrawlerState) :=
  match (if include_web_analysis then website_to_crawl business else None) with
  | Some w =>
      st <- Crawler.crawl_from 5 (fst cw) (snd cw) w ;;
      Some (Crawler.snapshots st, (Crawler._robots_cache st, Crawler.world st))
  | None => Some ([], cw)
  end.

(** The loop of [_analyze_businesses] over the businesses that are left;
    a crawl that raises ends it, a scoring that raises skips the business. *)
Fixpoint analyze_loop (include_web_analysis : bool) (businesses : list BusinessRecord)
  (analyses : list AnalyzedBusiness) (cw : CrawlerState)
  : option (list AnalyzedBusiness * CrawlerState) :=
  match businesses with
  | business :: businesses' =>
      crawled <- pages_of include_web_analysis business cw ;;
      let (pages, cw) := crawled in
      let feature_vector := Features.build_feature_vector business pages in
      match Scoring.score business feature_vector with
      | None => analyze_loop include_web_analysis businesses' analyses cw
      | Some maturity =>
          let industry := _infer_industry business in
          analyze_loop include_web_analysis businesses'
            (analyses
             ++ [mkAnalyzedBusiness business feature_vector pages maturity industry
                   None None])%list
            cw
      end
  | [] => Some (analyses, cw)
  end.

Definition _analyze_businesses (include_web_analysis : bool)
  (businesses : list BusinessRecord) (cw : CrawlerState)
  : option (list AnalyzedBusiness * CrawlerState) :=
  analyze_loop include_web_analysis businesses [] cw.

End Pipeline.

(** [a <= b], [a < b] and [a > b] on floats. *)
Definition le_float (a b : Q) : bool := Qle_bool a b.
Definition lt_float (a b : Q) : bool := negb (Qle_bool b a).
Definition gt_float (a b : Q) : bool := negb (Qle_bool a b).

(** [len([score for score in scores if keep(score)])]. *)
Definition count_scores (keep : Q -> bool) (scores : list Q) : Z :=
  Z.of_nat (length (filter keep scores)).

(** [min(scores)] and [max(scores)] of [first :: others]: the first of the
    smallest, of the largest. *)
Definition py_min_list (first : Q) (others : list Q) : Q :=
  fold_left (fun m x => if lt_float x m then x else m) others first.

Definition py_max_list (first : Q) (others : list Q) : Q :=
  fold_left (fun m x => if gt_float x m then x else m) others first.

(** [sum(scores)] on floats: added from the left, every sum rounded. *)
Definition py_sum (scores : list Q) : Q := fold_left Float.add scores 0%Q.

(** The dict that [_create_summary] returns; the keys that it has only for a
    run with analyses are optional. *)
Record Summary := mkSummary {
  total_businesses : Z;
  average_maturity_score : Q;
  min_maturity_score : option Q;
  max_maturity_score : option Q;
  industries : list (string * Z);
  maturity_distribution : list (string * Z);
  offers_generated : Z;
  analysis_completed_at : option string
}.

(** [now] is [datetime.utcnow().isoformat()]. *)
Definition _create_summary (now : string) (analyses : list AnalyzedBusiness)
  (offers_generated : Z) : Summary :=
  let score_of := fun analysis => Scoring.overall_score (maturity analysis) in
  match analyses with
  | [] => mkSummary 0 0 None None [] [] offers_generated None
  | first :: others =>
      let scores := map score_of analyses in
      let industry_counter :=
        fold_left (fun counter analysis => Features.counter_incr (industry analysis) counter)
          analyses [] in
      let maturity_distribution :=
        [ ("low (0-30)", count_scores (fun score => le_float score 30) scores);
          ("medium (31-70)",
           count_scores (fun score => le_float 31 score && le_float score 70) scores);
          ("high (71-100)", count_scores (fun score => gt_float score 70) scores) ] in
      mkSummary
        (Z.of_nat (length analyses))
        (Float.round2 (Float.div (py_sum scores) (inject_Z (Z.of_nat (length scores)))))
        (Some (py_min_list (score_of first) (map score_of others)))
        (Some (py_max_list (score_of first) (map score_of others)))
        (Features.most_common industry_counter)
        maturity_distribution
        offers_generated
        (Some (now ++ "Z"))
  end.

End Orchestrator.

(** ** pipeline/orchestrator.py: discovery *)

Module Discovery.

(** [self.places_client.discover(keyword=..., location=..., radius_meters=...,
    language=..., max_results=..., fetch_details=...)], which asks the
    Places service: the records, or [None] when the call raises. *)
Class Places (World : Type) := {
  discover :
    World -> string -> Coordinates -> Z -> string -> Z -> bool
    -> option (list BusinessRecord) * World
}.

(** The dict [discovered], from place id to record, in insertion order. *)
Definition Discovered := list (string * BusinessRecord).

Definition dict_contains (key : string) (d : Discovered) : bool :=
  existsb (fun kv => String.eqb (fst kv) key) d.

(** [if record.place_id not in discovered: discovered[record.place_id] = record]. *)
Definition add_if_new (d : Discovered) (record : BusinessRecord) : Discovered :=
  if dict_contains (place_id record) d then d
  else (d ++ [(place_id record, record)])%list.

Section Discover.

Context {World : Type} {places : Places World}.

(** The loop over the business types; a discovery that raises is skipped. *)
Fixpoint discover_loop (per_type_limit : Z) (coords : Coordinates) (search_radius : Z)
  (language : string) (business_types : list string) (discovered : Discovered)
  (w : World) : Discovered * World :=
  match business_types with
  | business_type :: business_types' =>
      match discover w business_type coords search_radius language per_type_limit true with
      | (Some results, w') =>
          discover_loop per_type_limit coords search_radius language business_types'
            (fold_left add_if_new results discovered) w'
      | (None, w') =>
          discover_loop per_type_limit coords search_radius language business_types'
            discovered w'
      end
  | [] => (discovered, w)
  end.

(** [max_businesses] and [search_radius] are of [self.config],
    [default_locale] of [self.settings]. *)
Definition _discover_businesses (max_businesses search_radius : Z)
  (default_locale : string) (business_types : list string) (location : Q * Q)
  (w : World) : list BusinessRecord * World :=
  let per_type_limit :=
    Z.max 1 (max_businesses / Z.max (Z.of_nat (length business_types)) 1) in
  let coords := mkCoordinates (fst location) (snd location) in
  let language := fst (Urllib.break Orchestrator.is_dash default_locale) in
  let (discovered, w) :=
    discover_loop per_type_limit coords search_radius language business_types [] w in
  (map snd discovered, w).

End Discover.

End Discovery.

(** ** cli.py: file names of the offers *)

Module Cli.

(** [ch.isalnum()] on the code points below 256. *)
Definition isalnum (c : ascii) : bool :=
  let n := nat_of_ascii c in
  ((48 <=? n) && (n <=? 57) || (65 <=? n) && (n <=? 90) || (97 <=? n) && (n <=? 122)
   || (n =? 170) || (178 <=? n) && (n <=? 179) || (n =? 181)
   || (185 <=? n) && (n <=? 186) || (188 <=? n) && (n <=? 190)
   || (192 <=? n) && (n <=? 214) || (216 <=? n) && (n <=? 246)
   || (248 <=? n) && (n <=? 255))%nat.

(** ["".join(ch if ch.isalnum() else "-" for ch in value)]. *)
Fixpoint dash_others (value : string) : string :=
  match value with
  | String ch value' => String (if isalnum ch then ch else "-"%char) (dash_others value')
  | EmptyString => EmptyString
  end.

(** [s.split(sep)] for a one-character [sep]; the parts may be empty. *)
Fixpoint split_on (sep : ascii) (s : string) : list string :=
  match s with
  | String c s' =>
      if Ascii.eqb c sep then EmptyString :: split_on sep s'
      else
        match split_on sep s' with
        | part :: parts => String c part :: parts
        | [] => [String c EmptyString]
        end
  | EmptyString => [EmptyString]
  end.

Definition _slugify (value : string) : string :=
  let value := Py.lower (Str.strip value) in
  let value := dash_others value in
  let slug :=
    Text.join "-"
      (filter (fun part => negb (Urllib.is_empty part)) (split_on "-" value)) in
  if Urllib.is_empty slug then "business" else slug.

End Cli.

(** * Vocabulary of the statements and sample inputs *)

(** The maximally positive input of the scorer: an https website, rating
    4.8 from 200 ratings, every signal present, 500 words per page on 5
    pages, at least two languages. *)
Definition maximally_positive (b : BusinessRecord) (f : FeatureVector) : Prop :=
  (exists w, website b = Some w /\ Str.startswith w "https" = true) /\
  (exists r, rating b = Some r /\ (r == 48 # 10)%Q) /\
  user_ratings_total b = Some 200%Z /\
  has_structured_data f = true /\
  has_meta_description f = true /\
  has_open_graph f = true /\
  has_analytics f = true /\
  has_contact_cta f = true /\
  has_viewport_meta f = true /\
  has_email_address f = true /\
  has_phone_number f = true /\
  (avg_word_count f == 500)%Q /\
  total_pages f = 5%Z /\
  (2 <= length (languages f))%nat.

Module Samples.

(** A text generator that always answers. *)
Definition quiet_llm : Scoring.SupportsLLM :=
  {| Scoring.generate := fun _ => Some " ok ";
     Scoring._build_prompt := fun b _ _ lang => lang ++ ": " ++ name b;
     Scoring._build_recommendation_prompt := fun b _ _ lang => lang ++ "! " ++ name b |}.

Definition best_business : BusinessRecord :=
  mkBusinessRecord "place-1" "Riyadh Dental" "1 King Fahd Rd"
    (mkCoordinates (247 # 10) (466 # 10)) ["dentist"]
    (Some (48 # 10)) (Some 200%Z) (Some "https://dental.example")
    (Some "+966123456789") "https://maps.example/place-1".

Definition best_features : FeatureVector :=
  mkFeatureVector "place-1" "Riyadh Dental" (Some "https://dental.example")
    5 ["Arabic"; "English"] 500 true true true true true true true true.

End Samples.

Module HttpSamples.

Import Http.

(** The outcomes after which [get] tries again, if an attempt is left. *)
Definition retried (o : SessionOutcome) : bool :=
  transport_failure o || error_status o.

(** A server that answers 503 to every request. *)
Definition always_503 : nat -> SessionOutcome := fun _ => Responds 503.

(** A server that answers 503 once and 200 afterwards. *)
Definition recovers : nat -> SessionOutcome :=
  fun k => if (k <=? 1)%nat then Responds 503 else Responds 200.

End HttpSamples.

(** The ranking of languages in the words of the specification: distinct
    labels, the more frequent first, and among equally frequent ones the one
    that occurs first in the list of snapshots. *)
Module Ranking.

(** The label of each snapshot that has one, in the order of the snapshots. *)
Definition detected_labels (pages : list PageSnapshot) : list string :=
  flat_map
    (fun snapshot =>
       match Features.language_label_of snapshot with
       | Some language_label => [language_label]
       | None => []
       end)
    pages.

(** [counter[key]], zero for a missing key. *)
Fixpoint counter_get (key : string) (c : Features.Counter) : Z :=
  match c with
  | (k, n) :: c' => if String.eqb k key then n else counter_get key c'
  | [] => 0%Z
  end.

(** The counter after the loop has seen the given labels. *)
Definition count_labels (labels : list string) : Features.Counter :=
  fold_left (fun c language_label => Features.counter_incr language_label c) labels [].

Definition frequency (labels : list string) (x : string) : nat :=
  count_occ string_dec labels x.

(** The index of the first occurrence of [x], or the length of the list. *)
Fixpoint first_position (labels : list string) (x : string) : nat :=
  match labels with
  | y :: labels' => if String.eqb y x then O else S (first_position labels' x)
  | [] => O
  end.

Definition ranks_before (labels : list string) (x y : string) : Prop :=
  (frequency labels y < frequency labels x)%nat \/
  (frequency labels x = frequency labels y /\
   (first_position labels x < first_position labels y)%nat).

(** The order that a stable sort by descending count produces on counter
    entries that stood in the order of [pos]. *)
Definition by_count_then_pos (pos : string -> nat) (x y : string * Z) : Prop :=
  (snd y < snd x)%Z \/ (snd x = snd y /\ (pos (fst x) < pos (fst y))%nat).

Definition frequency_ranked (labels l : list string) : Prop :=
  NoDup l /\
  (forall x, In x l <-> In x labels) /\
  StronglySorted (ranks_before labels) l.

End Ranking.

Module FeatureSamples.

(** A parser that finds nothing on any page. *)
Definition blind_parser : Features.PageParser :=
  {| Features.find_ld_json_script := fun _ => false;
     Features.find_meta_description := fun _ => false;
     Features.find_meta_open_graph := fun _ => false;
     Features.find_meta_viewport := fun _ => false;
     Features.anchor_texts := fun _ => [];
     Features.search_email := fun _ => false;
     Features.search_phone := fun _ => false |}.

Definition page_in (lang : option string) (n : string) : PageSnapshot :=
  mkPageSnapshot ("https://dental.example/" ++ n) n lang "<html></html>" "two words".

(** Six pages: French, Arabic twice (under two codes), English twice, and
    one page without a language. *)
Definition six_pages : list PageSnapshot :=
  [ page_in (Some "fr") "a"; page_in (Some "en") "b"; page_in (Some "ar-SA") "c";
    page_in None "d"; page_in (Some "AR") "e"; page_in (Some "en-us") "f" ].

End FeatureSamples.

(** Shapes of strings that the facts about URLs speak of. *)
Module UrlShapes.

Import Urllib.

(** A string that is empty or begins with a character satisfying [p]. *)
Definition headed (p : ascii -> bool) (s : string) : Prop :=
  match s with
  | String c _ => p c = true
  | EmptyString => True
  end.

Definition not_slash (c : ascii) : bool := negb (Ascii.eqb c "/").

(** Characters that can stand in a network location, and in a path, once
    [urlsplit] has cut the URL. *)
Definition netloc_char (c : ascii) : bool :=
  negb (is_unsafe_byte c) && negb (is_netloc_delim c).

Definition path_char (c : ascii) : bool :=
  negb (is_unsafe_byte c) && (negb (is_hash c) && negb (is_question c)).

Definition is_slash (c : ascii) : bool := Ascii.eqb c "/".

(** The path as [urlunsplit] writes it after a network location. *)
Definition slashed (p : string) : string :=
  match p with
  | EmptyString => p
  | String c _ => if Ascii.eqb c "/" then p else String "/" p
  end.

(** The path that [_normalize_url] writes after the network location. *)
Definition normalized_path (p : string) : string :=
  rstrip_slash (slashed (if is_empty p then "/" else p))
  ++ (if is_empty p then "/" else "").

(** Two URLs with the same network location. *)
Definition same_netloc {lib : Library} (root u : string) : Prop :=
  exists p q, urlsplit root = Some p /\ urlsplit u = Some q /\ netloc q = netloc p.

(** What holds of the crawl state before and after every iteration: the
    page cap, and that every URL in the frontier, in the seen set and in a
    snapshot has the network location of the root. *)
Definition crawl_invariant {lib : Library} {World RobotParser : Type}
  (max_pages : Z) (root : string) (st : @Crawler.Crawl World RobotParser) : Prop :=
  (Z.of_nat (length (Crawler.snapshots st)) <= max_pages)%Z /\
  Forall (same_netloc root) (Crawler.to_visit st) /\
  Forall (same_netloc root) (Crawler.seen st) /\
  Forall (fun snapshot => same_netloc root (url snapshot)) (Crawler.snapshots st).

End UrlShapes.

Module CrawlSamples.

Import Urllib Crawler.

(** A library that accepts every bracketed host and joins absolute links. *)
Definition plain_library : Library :=
  {| _check_bracketed_host := fun _ => true;
     urljoin := fun _ href => Some href |}.

(** A site of three pages: the home page links to [/x], to [/a] and to
    another host; [/a] links to [/x]; robots.txt disallows [/x]. *)
Definition site_page (u : string) : option string :=
  if String.eqb u "http://s/" then Some "home"
  else if String.eqb u "http://s/a" then Some "a"
  else if String.eqb u "http://s/x" then Some "x"
  else None.

Definition site_hrefs (html : string) : list string :=
  if String.eqb html "home" then ["http://s/x"; "http://s/a"; "http://elsewhere/"]
  else if String.eqb html "a" then ["http://s/x"]
  else [].

Definition site_net : Net unit unit :=
  {| read_robots := fun w _ => (tt, w);
     can_fetch := fun _ u => negb (String.eqb u "http://s/x");
     http_get := fun w u => (site_page u, w) |}.

Definition site_html : Html :=
  {| title_string := fun html => Some html;
     extract_text := fun _ => None;
     get_text := fun html => html;
     detect := fun _ => Some "en";
     anchor_hrefs := site_hrefs;
     iter_set := fun l => l;
     iter_set_perm := fun l => Permutation_refl l |}.

(** The targets that the loop pops, one per iteration, each with the truth
    of "it is not yet seen", that is, of "its robots check is made". *)
Fixpoint crawl_trace {lib : Library} {html_lib : Html} {World RobotParser : Type}
  {net : Net World RobotParser} (fuel : nat) (max_pages : Z) (root : string)
  (st : Crawl) : list (string * bool) :=
  match fuel with
  | O => []
  | S fuel' =>
      if loop_condition max_pages st then
        match to_visit st with
        | target :: _ =>
            (target, negb (mem_str target (seen st)))
            :: match crawl_body max_pages root st with
               | Some st' => crawl_trace fuel' max_pages root st'
               | None => []
               end
        | [] => []
        end
      else []
  end.

End CrawlSamples.

(** The loop of [crawl] as the specification words its step b, "skip if
    already seen or robots-disallowed (mark seen regardless)": a popped URL
    that robots.txt disallows enters the seen set before it is skipped.
    Everything else is [crawl_body]. *)
Module CrawlAsSpecified.

Import Urllib Crawler.

Section Marking.

Context {lib : Library} {html_lib : Html}.
Context {World RobotParser : Type} {net : Net World RobotParser}.

Variable max_pages : Z.

Definition crawl_body_marking (normalized_root : string) (st : Crawl) : option Crawl :=
  match to_visit st with
  | [] => Some st
  | target :: rest =>
      if mem_str target (seen st) then
        Some (mkCrawl rest (seen st) (snapshots st) (_robots_cache st) (world st))
      else
        r <- _is_allowed (_robots_cache st) (world st) target ;;
        let '(allowed, cache, w) := r in
        let seen' := target :: seen st in
        if negb allowed then
          Some (mkCrawl rest seen' (snapshots st) cache w)
        else
          let (fetched, w') := http_get w target in
          match fetched with
          | None => Some (mkCrawl rest seen' (snapshots st) cache w')
          | Some html =>
              let snapshots' := (snapshots st ++ [make_snapshot target html])%list in
              links <- _extract_internal_links normalized_root html ;;
              let to_visit' :=
                fold_left (enqueue max_pages seen') (iter_set links) rest in
              Some (mkCrawl to_visit' seen' snapshots' cache w')
          end
  end.

(** At most [fuel] iterations of that loop. *)
Fixpoint crawl_loop_marking (fuel : nat) (normalized_root : string) (st : Crawl)
  : option Crawl :=
  match fuel with
  | S fuel' =>
      if loop_condition max_pages st then
        st' <- crawl_body_marking normalized_root st ;;
        crawl_loop_marking fuel' normalized_root st'
      else Some st
  | O => Some st
  end.

End Marking.

End CrawlAsSpecified.

(** A site on which a disallowed URL costs a page: the home page links to
    [/x] and [/a]; [/a] links to [/x] again, to five pages that cannot be
    fetched and, last, to [/good]; robots.txt disallows [/x]. *)
Module SlotSamples.

Import Urllib Crawler.

Definition slot_page (u : string) : option string :=
  if String.eqb u "http://r/" then Some "home"
  else if String.eqb u "http://r/a" then Some "a"
  else if String.eqb u "http://r/x" then Some "x"
  else if String.eqb u "http://r/good" then Some "good"
  else None.

Definition slot_hrefs (html : string) : list string :=
  if String.eqb html "home" then ["http://r/x"; "http://r/a"]
  else if String.eqb html "a" then
    ["http://r/x"; "http://r/d1"; "http://r/d2"; "http://r/d3"; "http://r/d4";
     "http://r/d5"; "http://r/good"]
  else [].

Definition slot_net : Net unit unit :=
  {| read_robots := fun w _ => (tt, w);
     can_fetch := fun _ u => negb (String.eqb u "http://r/x");
     http_get := fun w u => (slot_page u, w) |}.

(** The links of a page are taken in the order of the document. *)
Definition slot_html : Html :=
  {| title_string := fun html => Some html;
     extract_text := fun _ => None;
     get_text := fun html => html;
     detect := fun _ => Some "en";
     anchor_hrefs := slot_hrefs;
     iter_set := fun l => l;
     iter_set_perm := fun l => Permutation_refl l |}.

End SlotSamples.

(** The first steps of [urlsplit], up to the network location. *)
Module UrlFront.

Import Urllib.

(** The scheme, the network location and what is left of the URL, before the
    [ValueError] check and before fragment and query are cut off. *)
Definition url_front (url : string) : string * string * string :=
  let url := remove_unsafe (lstrip_c0 url) in
  let (scheme, url) := split_scheme url in
  let (netloc, url) :=
    if Str.startswith url "//" then break is_netloc_delim (tail (tail url))
    else (EmptyString, url) in
  (scheme, netloc, url).

End UrlFront.

(** Words, and the grouping of words that [chunk_text] joins into chunks. *)
Module TextShapes.

(** A word: not empty and without white space. *)
Definition is_word (w : string) : Prop :=
  w <> EmptyString /\ Urllib.forallb_str (fun c => negb (Str.is_py_space c)) w = true.

(** The groups of words behind the chunks: [current] is the group in the
    making. *)
Fixpoint group_words (max_tokens : Z) (words : list string) (current : list string)
  : list (list string) :=
  match words with
  | word :: words' =>
      let current := (current ++ [word])%list in
      if (Z.of_nat (length current) >=? max_tokens)%Z
      then current :: group_words max_tokens words' []
      else group_words max_tokens words' current
  | [] =>
      match current with
      | [] => []
      | _ :: _ => [current]
      end
  end.

End TextShapes.

(** Two more sample networks for the crawler: one on which every fetch
    fails, and one that serves the same link-free page at every URL. *)
Module NetSamples.

Import Crawler.

Definition offline_net : Net unit unit :=
  {| read_robots := fun w _ => (tt, w);
     can_fetch := fun _ _ => true;
     http_get := fun w _ => (None, w) |}.

Definition leaf_net : Net unit unit :=
  {| read_robots := fun w _ => (tt, w);
     can_fetch := fun _ _ => true;
     http_get := fun w _ => (Some "leaf", w) |}.

End NetSamples.

(** Characters other than a given one. *)
Module Chars.

Definition differs (c : ascii) : ascii -> bool := fun d => negb (Ascii.eqb d c).

End Chars.

(** The shape of the file name stems that [_slugify] makes. *)
Module SlugShapes.

Import Orchestrator.

Definition slug_or_dash (c : ascii) : bool := is_slug_char c || is_dash c.

Definition starts_with_dash (s : string) : bool :=
  match s with
  | String c _ => is_dash c
  | EmptyString => false
  end.

Fixpoint ends_with_dash (s : string) : bool :=
  match s with
  | String c s' =>
      match s' with
      | EmptyString => is_dash c
      | String _ _ => ends_with_dash s'
      end
  | EmptyString => false
  end.

Fixpoint no_double_dash (s : string) : bool :=
  match s with
  | String c s' => negb (is_dash c && starts_with_dash s') && no_double_dash s'
  | EmptyString => true
  end.

Definition is_slug (s : string) : bool :=
  negb (Urllib.is_empty s) && Urllib.forallb_str slug_or_dash s && no_double_dash s
  && negb (starts_with_dash s) && negb (ends_with_dash s).

End SlugShapes.

(** What the statements about the pipeline speak of. *)
Module PipelineShapes.

Import Orchestrator.

(** [l] keeps some of the elements of [m], in their order. *)
Inductive Subseq {A : Type} : list A -> list A -> Prop :=
| subseq_nil : Subseq [] []
| subseq_keep (x : A) (l m : list A) : Subseq l m -> Subseq (x :: l) (x :: m)
| subseq_drop (x : A) (l m : list A) : Subseq l m -> Subseq l (x :: m).

Section Analyses.

Context {parser : Features.PageParser} {llm : Scoring.SupportsLLM}.
Context {casing : Casing}.

(** An analysis as [_analyze_businesses] builds it: features from its own
    pages, the assessment that the scorer returned for them, no offer yet;
    and no pages where nothing was to crawl. *)
Definition analysis_as_built (include_web_analysis : bool) (a : AnalyzedBusiness) : Prop :=
  feature_vector a = Features.build_feature_vector (business a) (pages a) /\
  Scoring.score (business a) (feature_vector a) = Some (maturity a) /\
  industry a = _infer_industry (business a) /\
  offer a = None /\
  outreach a = None /\
  (include_web_analysis = false \/ website_to_crawl (business a) = None -> pages a = []).

End Analyses.

(** A score strictly between 30 and 31. *)
Definition in_gap (score : Q) : bool := lt_float 30 score && lt_float score 31.

(** The sum of the counts of a dict of counts. *)
Definition total_count (d : list (string * Z)) : Z := fold_right Z.add 0%Z (map snd d).

End PipelineShapes.

(** Sample collaborators for the pipeline. *)
Module PipelineSamples.

Import Orchestrator.

(** A casing that changes nothing. *)
Definition plain_casing : Casing := {| str_title := fun s => s |}.

(** A business without a web site. *)
Definition corner_shop : BusinessRecord :=
  mkBusinessRecord "p2" "Corner Shop" "Riyadh" (mkCoordinates 0 0)
    ["grocery_store"] None None None None "https://maps.example/p2".

End PipelineSamples.

(** One business with its features being at least as good as another, signal
    by signal. *)
Module ScoreOrder.

Import Scoring.

Definition implies (a b : bool) : Prop := a = true -> b = true.

Definition improves (b b' : BusinessRecord) (f f' : FeatureVector) : Prop :=
  implies (website_is_https (website b)) (website_is_https (website b')) /\
  (rating_or_zero (rating b) <= rating_or_zero (rating b'))%Q /\
  implies (many_ratings (user_ratings_total b)) (many_ratings (user_ratings_total b')) /\
  implies (has_structured_data f) (has_structured_data f') /\
  implies (has_meta_description f) (has_meta_description f') /\
  implies (has_open_graph f) (has_open_graph f') /\
  implies (has_analytics f) (has_analytics f') /\
  implies (has_contact_cta f) (has_contact_cta f') /\
  implies (has_viewport_meta f) (has_viewport_meta f') /\
  implies (has_email_address f) (has_email_address f') /\
  implies (has_phone_number f) (has_phone_number f') /\
  (length (languages f) <= length (languages f'))%nat /\
  (avg_word_count f <= avg_word_count f')%Q /\
  (total_pages f <= total_pages f')%Z.

End ScoreOrder.

(** The shape of the dict of discovered businesses. *)
Module DiscoveryShapes.

Import Discovery.

(** The dict keeps each record under its own place id, and no key twice. *)
Definition well_keyed (d : Discovered) : Prop :=
  Forall (fun kv => fst kv = place_id (snd kv)) d /\ NoDup (map fst d).

End DiscoveryShapes.

(** A sample Places service: the same two businesses for every keyword, cut
    at [max_results]. *)
Module DiscoverySamples.

Import Discovery.

Definition two_places : Places unit :=
  {| discover := fun w _ _ _ _ max_results _ =>
       (Some (firstn (Z.to_nat max_results)
                [Samples.best_business; PipelineSamples.corner_shop]), w) |}.

End DiscoverySamples.

(** Characters on which the two slug functions read alike. *)
Module CliShapes.

Definition is_ascii (c : ascii) : bool := (nat_of_ascii c <? 128)%nat.

(** [isalnum] and the class [[a-z0-9]] agree on the character. *)
Definition same_class (c : ascii) : bool :=
  Bool.eqb (Cli.isalnum c) (Orchestrator.is_slug_char c).

Definition starts_slug (s : string) : bool :=
  match s with
  | String c _ => Orchestrator.is_slug_char c
  | EmptyString => false
  end.

(** The parts that the CLI joins. *)
Definition slug_parts (s : string) : list string :=
  filter (fun part => negb (Urllib.is_empty part)) (Cli.split_on "-" (Cli.dash_others s)).

End CliShapes.

(** The relative rounding error of a double. *)
Module FloatShapes.

(** [2^-53], half the distance from 1 to the next double. *)
Definition unit_roundoff : Q := 1 # 9007199254740992.

End FloatShapes.

(** * Part II: properties *)

(** ** The maturity scorer *)

Section ScoringFacts.

Import Scoring.
Open Scope Q_scope.

Context {llm : SupportsLLM}.

(** What a returned assessment holds. *)
Lemma score_inv (b : BusinessRecord) (f : FeatureVector) (a : MaturityAssessment) :
  score b f = Some a ->
  subscores a = _calculate_subscores b f /\
  overall_score a = py_round2 (mean4 (_calculate_subscores b f)).
Proof.
  unfold score, bind.
  repeat match goal with
         | |- context [match generate ?p with _ => _ end] => destruct (generate p)
         end; try discriminate.
  intros [= <-]. split; reflexivity.
Qed.

(** The scorer returns whenever the four text generations do. *)
Lemma score_returns (b : BusinessRecord) (f : FeatureVector) :
  (forall prompt, generate prompt <> None) ->
  exists a, score b f = Some a.
Proof.
  intros Hgen. unfold score, bind.
  repeat match goal with
         | |- context [match generate ?p with _ => _ end] =>
             let E := fresh "E" in
             destruct (generate p) eqn:E; [|exfalso; exact (Hgen _ E)]
         end.
  eexists. reflexivity.
Qed.

Ltac split_flags :=
  repeat match goal with
         | |- context [if ?c then _ else _] => destruct c
         end.

Ltac pick_integer :=
  split_flags; eexists;
  (split; [vm_compute; reflexivity | vm_compute; split; discriminate]).

(** Every subscore is a whole number between its base and 100. *)
Lemma technical_integral (b : BusinessRecord) (f : FeatureVector) :
  exists n : Z, _score_technical b f = inject_Z n /\ (50 <= n <= 100)%Z.
Proof. unfold _score_technical. pick_integer. Qed.

Lemma seo_integral (f : FeatureVector) :
  exists n : Z, _score_seo f = inject_Z n /\ (40 <= n <= 100)%Z.
Proof. unfold _score_seo. pick_integer. Qed.

Lemma content_integral (f : FeatureVector) :
  exists n : Z, _score_content f = inject_Z n /\ (35 <= n <= 100)%Z.
Proof. unfold _score_content. pick_integer. Qed.

Lemma trust_integral (b : BusinessRecord) (f : FeatureVector) :
  exists n : Z, _score_trust b f = inject_Z n /\ (45 <= n <= 100)%Z.
Proof. unfold _score_trust. pick_integer. Qed.

(** Rounding to two decimals keeps a quarter of a whole number as it is. *)
Lemma py_round2_quarters (n : Z) :
  py_round2 (inject_Z n / 4) == inject_Z n / 4.
Proof.
  unfold py_round2, round_half_even.
  change (Qnum (inject_Z n / 4 * 100)) with (n * 1 * 100)%Z.
  change (Qden (inject_Z n / 4 * 100)) with 4%positive.
  replace (n * 1 * 100)%Z with (25 * n * 4)%Z by ring.
  rewrite Z.div_mul, Z.mod_mul by discriminate.
  change (2 * 0 ?= 4)%Z with Lt. cbv iota.
  unfold Qeq.
  change (Qnum (inject_Z n / 4)) with (n * 1)%Z.
  change (Qden (inject_Z n / 4)) with 4%positive.
  change (Qnum (25 * n # 100)) with (25 * n)%Z.
  change (Qden (25 * n # 100)) with 100%positive.
  lia.
Qed.

Lemma mean4_integral (b : BusinessRecord) (f : FeatureVector) :
  exists n : Z,
    mean4 (_calculate_subscores b f) = inject_Z n / 4 /\
    (170 <= n <= 400)%Z /\
    (n = Qnum (_score_technical b f) + Qnum (_score_seo f)
         + Qnum (_score_content f) + Qnum (_score_trust b f))%Z.
Proof.
  destruct (technical_integral b f) as (t & Ht & ?).
  destruct (seo_integral f) as (s & Hs & ?).
  destruct (content_integral f) as (c & Hc & ?).
  destruct (trust_integral b f) as (r & Hr & ?).
  exists (t + s + c + r)%Z.
  unfold mean4, _calculate_subscores. cbn [technical seo content trust].
  rewrite Ht, Hs, Hc, Hr. cbn [Qnum inject_Z].
  split; [|split; [lia | reflexivity]].
  unfold Qplus, inject_Z. cbn [Qnum Qden Pos.mul].
  f_equal. f_equal. ring.
Qed.

(** The undecorated subscores of a maximally positive input. *)
Lemma max_positive_subscores (b : BusinessRecord) (f : FeatureVector) :
  maximally_positive b f ->
  _calculate_subscores b f = mkSubScores 100 100 80 90.
Proof.
  intros ((w & Hw & Hhttps) & (r & Hr & Hr48) & Hcount & Hsd & Hmd & Hog & Han
          & Hcta & Hvp & Hem & Hph & Havg & Hpages & Hlang).
  assert (H300 : ge_float (avg_word_count f) 300 = true).
  { apply Qle_bool_iff. rewrite Havg. discriminate. }
  assert (H400 : ge_float (avg_word_count f) 400 = true).
  { apply Qle_bool_iff. rewrite Havg. discriminate. }
  assert (H42 : ge_float (rating_or_zero (rating b)) (42 # 10) = true).
  { rewrite Hr. apply Qle_bool_iff. cbn [rating_or_zero]. rewrite Hr48. discriminate. }
  apply Nat.leb_le in Hlang.
  unfold _calculate_subscores, _score_technical, _score_seo, _score_content, _score_trust.
  rewrite Hw, Hcount, Hpages, H300, H400, H42.
  cbn [website_is_https many_ratings]. rewrite Hhttps, Hlang.
  rewrite Hsd, Hmd, Hog, Han, Hcta, Hvp, Hem, Hph.
  vm_compute. reflexivity.
Qed.

(** C1, as the code has it: on a maximally positive input the technical and
    seo subscores are 100, the content subscore is 80 (35 + 20 + 15 + 10),
    the trust subscore is 90 (45 + 15 + 10 + 10 + 10), and the overall score
    is 92.5. *)
Theorem max_positive_scores (b : BusinessRecord) (f : FeatureVector)
  (a : MaturityAssessment) :
  maximally_positive b f ->
  score b f = Some a ->
  technical (subscores a) == 100 /\
  seo (subscores a) == 100 /\
  content (subscores a) == 80 /\
  trust (subscores a) == 90 /\
  overall_score a == 925 # 10.
Proof.
  intros Hmax Hscore.
  destruct (score_inv b f a Hscore) as [Hsub Hover].
  rewrite Hover, Hsub, (max_positive_subscores b f Hmax).
  vm_compute. repeat split; reflexivity.
Qed.

(** C6: every subscore lies in [0, 100]; the overall score is the mean of
    the four subscores rounded to two decimals, which here is the mean
    itself; and it lies in [0, 100]. *)
Theorem overall_is_rounded_mean (b : BusinessRecord) (f : FeatureVector)
  (a : MaturityAssessment) :
  score b f = Some a ->
  (0 <= technical (subscores a) <= 100) /\
  (0 <= seo (subscores a) <= 100) /\
  (0 <= content (subscores a) <= 100) /\
  (0 <= trust (subscores a) <= 100) /\
  overall_score a =
    py_round2 ((technical (subscores a) + seo (subscores a)
                + content (subscores a) + trust (subscores a)) / 4) /\
  overall_score a ==
    (technical (subscores a) + seo (subscores a)
     + content (subscores a) + trust (subscores a)) / 4 /\
  0 <= overall_score a <= 100.
Proof.
  intros Hscore.
  destruct (score_inv b f a Hscore) as [Hsub Hover].
  destruct (mean4_integral b f) as (n & Hmean & Hn & _).
  pose proof (py_round2_quarters n) as Hround.
  rewrite <- Hmean, <- Hover in Hround.
  assert (Hbound : 0 <= overall_score a <= 100).
  { rewrite Hround, Hmean. unfold Qle, Qdiv, Qmult, Qinv, inject_Z.
    cbn [Qnum Qden Pos.mul]. lia. }
  rewrite Hsub. unfold _calculate_subscores. cbn [technical seo content trust].
  split; [|split; [|split; [|split; [|split; [exact Hover|split; [exact Hround|exact Hbound]]]]]].
  - destruct (technical_integral b f) as (t & -> & ?).
    unfold Qle, inject_Z; cbn [Qnum Qden]; lia.
  - destruct (seo_integral f) as (s & -> & ?).
    unfold Qle, inject_Z; cbn [Qnum Qden]; lia.
  - destruct (content_integral f) as (c & -> & ?).
    unfold Qle, inject_Z; cbn [Qnum Qden]; lia.
  - destruct (trust_integral b f) as (r & -> & ?).
    unfold Qle, inject_Z; cbn [Qnum Qden]; lia.
Qed.

(** C10: the subscores never fall below their bases, so the overall score
    is at least 42.5 and the package recommended for the assessment is never
    the basic one. *)
Theorem scores_above_base_never_basic (b : BusinessRecord) (f : FeatureVector)
  (a : MaturityAssessment) :
  score b f = Some a ->
  50 <= technical (subscores a) /\
  40 <= seo (subscores a) /\
  35 <= content (subscores a) /\
  45 <= trust (subscores a) /\
  425 # 10 <= overall_score a /\
  forall analysis : Offers.BusinessAnalysis,
    Offers.maturity analysis = a ->
    Offers.analyze_package_fit analysis <> Offers.BASIC.
Proof.
  intros Hscore.
  destruct (score_inv b f a Hscore) as [Hsub Hover].
  destruct (mean4_integral b f) as (n & Hmean & Hn & _).
  pose proof (py_round2_quarters n) as Hround.
  rewrite <- Hmean, <- Hover in Hround.
  assert (Hlow : 425 # 10 <= overall_score a).
  { rewrite Hround, Hmean. unfold Qle, Qdiv, Qmult, Qinv, inject_Z.
    cbn [Qnum Qden Pos.mul]. lia. }
  rewrite Hsub. unfold _calculate_subscores. cbn [technical seo content trust].
  destruct (technical_integral b f) as (t & -> & ?).
  destruct (seo_integral f) as (s & -> & ?).
  destruct (content_integral f) as (c & -> & ?).
  destruct (trust_integral b f) as (r & -> & ?).
  repeat split; try (unfold Qle, inject_Z; cbn [Qnum Qden]; lia); try exact Hlow.
  intros analysis Ha. unfold Offers.analyze_package_fit, Offers.lt_float.
  rewrite Ha.
  assert (H30 : Qle_bool 30 (overall_score a) = true).
  { apply Qle_bool_iff. apply Qle_trans with (425 # 10); [discriminate | exact Hlow]. }
  rewrite H30. cbn [negb].
  destruct (negb (Qle_bool 70 (overall_score a))); discriminate.
Qed.

End ScoringFacts.

Section ScoringSamples.

Import Scoring Samples.
Open Scope Q_scope.

(** The sample input is a maximally positive one. *)
Lemma best_is_maximally_positive : maximally_positive best_business best_features.
Proof.
  unfold maximally_positive. cbn.
  split; [exists "https://dental.example"; split; reflexivity|].
  split; [exists (48 # 10); split; reflexivity|].
  repeat split; reflexivity.
Defined.

(** C1 as stated fails: the content and trust subscores of the maximally
    positive sample stay at 80 and 90, and its overall score at 92.5. *)
Lemma max_positive_not_saturated :
  maximally_positive best_business best_features /\
  exists a,
    score (llm := quiet_llm) best_business best_features = Some a /\
    content (subscores a) == 80 /\
    trust (subscores a) == 90 /\
    overall_score a == 925 # 10 /\
    ~ content (subscores a) == 100 /\
    ~ trust (subscores a) == 100 /\
    ~ overall_score a == 100.
Proof.
  split; [exact best_is_maximally_positive|].
  eexists. split; [reflexivity|].
  vm_compute. repeat split; try reflexivity; discriminate.
Qed.

(** [max_positive_scores] on the sample business and feature vector. *)
Lemma max_positive_scores_witness :
  maximally_positive best_business best_features /\
  exists a,
    score (llm := quiet_llm) best_business best_features = Some a /\
    technical (subscores a) == 100 /\
    seo (subscores a) == 100 /\
    content (subscores a) == 80 /\
    trust (subscores a) == 90 /\
    overall_score a == 925 # 10.
Proof.
  split; [exact best_is_maximally_positive|].
  eexists. split; [reflexivity|].
  apply (max_positive_scores (llm := quiet_llm) best_business best_features).
  - exact best_is_maximally_positive.
  - reflexivity.
Defined.

(** [overall_is_rounded_mean] on the sample business and feature vector. *)
Lemma overall_is_rounded_mean_witness :
  exists a,
    score (llm := quiet_llm) best_business best_features = Some a /\
    overall_score a ==
      (technical (subscores a) + seo (subscores a)
       + content (subscores a) + trust (subscores a)) / 4 /\
    0 <= overall_score a <= 100.
Proof.
  eexists. split; [reflexivity|].
  apply (overall_is_rounded_mean (llm := quiet_llm) best_business best_features).
  reflexivity.
Defined.

(** [scores_above_base_never_basic] on the sample business: the package is
    not the basic one. *)
Lemma scores_above_base_never_basic_witness :
  exists a,
    score (llm := quiet_llm) best_business best_features = Some a /\
    425 # 10 <= overall_score a /\
    Offers.analyze_package_fit
      (Offers.mkBusinessAnalysis best_business best_features a
         "healthcare" ["Home"] "ar-SA") <> Offers.BASIC.
Proof.
  eexists. split; [reflexivity|].
  pose proof (scores_above_base_never_basic (llm := quiet_llm)
                best_business best_features _ eq_refl) as H.
  split; [apply H | apply H; reflexivity].
Defined.

End ScoringSamples.

(** ** The page fetcher *)

Section HttpFacts.

Import Http HttpSamples.
Open Scope Z_scope.

Lemma get_body_retried (o : SessionOutcome) :
  retried o =
  match get_body o with
  | Raised e => retry_if_exception_type e
  | Returned _ => false
  end.
Proof.
  destruct o as [| |status_code]; try reflexivity.
  unfold retried, get_body, error_status. cbn [transport_failure orb].
  destruct (status_code >=? 400); reflexivity.
Qed.

(** C4, as the code has it: [get] makes between one and three attempts; it
    tries again after a transport failure and equally after a response with
    status 400 or more, sleeping 1 s and then 2 s; it stops at the first
    attempt that is neither, or at the third; the result is that of the
    last attempt, so an [HttpError] reaches the caller only from the last
    attempt made. *)
Theorem get_retry_policy (session : nat -> SessionOutcome) :
  exists n : nat,
    (1 <= n <= 3)%nat /\
    attempts (snd (get session)) = map (fun k => (k, session k)) (seq 1 n) /\
    (forall k, (1 <= k < n)%nat -> retried (session k) = true) /\
    ((n < 3)%nat -> retried (session n) = false) /\
    fst (get session) = get_body (session n) /\
    sleeps (snd (get session)) = firstn (n - 1) [1; 2].
Proof.
  unfold get. cbn [max_attempt_number Nat.sub retrying].
  pose proof (get_body_retried (session 1%nat)) as H1.
  pose proof (get_body_retried (session 2%nat)) as H2.
  pose proof (get_body_retried (session 3%nat)) as H3.
  destruct (get_body (session 1%nat)) as [c1|e1] eqn:E1.
  { exists 1%nat. cbn. repeat split; try lia; auto. }
  destruct (retry_if_exception_type e1).
  2:{ exists 1%nat. cbn. repeat split; try lia; auto. }
  destruct (get_body (session 2%nat)) as [c2|e2] eqn:E2.
  { exists 2%nat. cbn. repeat split; try lia; auto.
    intros k Hk. replace k with 1%nat by lia. exact H1. }
  destruct (retry_if_exception_type e2).
  2:{ exists 2%nat. cbn. repeat split; try lia; auto.
      intros k Hk. replace k with 1%nat by lia. exact H1. }
  exists 3%nat.
  assert (Hk : forall k, (1 <= k < 3)%nat -> retried (session k) = true).
  { intros k Hk. assert (k = 1 \/ k = 2)%nat as [-> | ->] by lia; assumption. }
  destruct (get_body (session 3%nat)) as [c3|e3] eqn:E3.
  { cbn. repeat split; try lia; auto. }
  destruct (retry_if_exception_type e3); cbn; repeat split; try lia; auto.
Qed.

(** C4 as stated fails: a 503 on the first attempt is not raised at once
    but retried, twice when the server keeps answering 503, and the caller
    gets the response when a later attempt succeeds. *)
Lemma http_error_is_retried :
  get always_503 =
    (Raised (HttpError 503),
     [Attempt 1 (Responds 503); Sleep 1;
      Attempt 2 (Responds 503); Sleep 2;
      Attempt 3 (Responds 503)]) /\
  get recovers =
    (Returned 200,
     [Attempt 1 (Responds 503); Sleep 1; Attempt 2 (Responds 200)]).
Proof. split; reflexivity. Qed.

End HttpFacts.

(** ** The feature extractor *)

Section SortedFacts.

Context {A : Type}.

Lemma StronglySorted_restrict (R R' : A -> A -> Prop) (l : list A) :
  (forall a b, In a l -> In b l -> R a b -> R' a b) ->
  StronglySorted R l -> StronglySorted R' l.
Proof.
  induction l as [|x l IH]; intros Himp Hs; [constructor|].
  inversion Hs as [|? ? Hl Hx]; subst.
  constructor.
  - apply IH; [|exact Hl]. intros a b Ha Hb. apply Himp; right; assumption.
  - rewrite Forall_forall in *. intros y Hy.
    apply Himp; [left; reflexivity | right; exact Hy | apply Hx, Hy].
Qed.

Lemma StronglySorted_append_one (R : A -> A -> Prop) (l : list A) (x : A) :
  StronglySorted R l -> Forall (fun a => R a x) l -> StronglySorted R (l ++ [x]).
Proof.
  induction l as [|y l IH]; intros Hs Hall; cbn.
  - constructor; constructor.
  - inversion Hs as [|? ? Hl Hy]; subst.
    inversion Hall as [|? ? Hyx Hlx]; subst.
    constructor; [apply IH; assumption|].
    apply Forall_app. split; [exact Hy | constructor; [exact Hyx | constructor]].
Qed.

Lemma StronglySorted_map {B : Type} (f : A -> B) (R : B -> B -> Prop) (l : list A) :
  StronglySorted (fun a b => R (f a) (f b)) l <-> StronglySorted R (map f l).
Proof.
  induction l as [|x l IH]; cbn.
  - split; constructor.
  - split; intros Hs; inversion Hs as [|? ? Hl Hx]; subst; constructor;
      try (apply IH; exact Hl).
    + rewrite Forall_map. exact Hx.
    + rewrite Forall_map in Hx. exact Hx.
Qed.

Lemma StronglySorted_NoDup (R : A -> A -> Prop) (l : list A) :
  (forall a, ~ R a a) -> StronglySorted R l -> NoDup l.
Proof.
  intros Hirr. induction 1 as [|x l Hl IH Hx]; constructor; [|exact IH].
  intros Hin. rewrite Forall_forall in Hx. exact (Hirr x (Hx x Hin)).
Qed.

(** Two duplicate-free lists with the same elements, sorted by an order
    that never holds both ways, are the same list. *)
Lemma StronglySorted_unique (R : A -> A -> Prop) (l1 l2 : list A) :
  (forall a b, R a b -> R b a -> False) ->
  NoDup l1 -> NoDup l2 -> (forall x, In x l1 <-> In x l2) ->
  StronglySorted R l1 -> StronglySorted R l2 -> l1 = l2.
Proof.
  intros Hasym. revert l2.
  induction l1 as [|x l1 IH]; intros l2 Hnd1 Hnd2 Hsame Hs1 Hs2.
  - destruct l2 as [|y l2]; [reflexivity|].
    exfalso. apply (proj2 (Hsame y)). left. reflexivity.
  - destruct l2 as [|y l2].
    { exfalso. apply (proj1 (Hsame x)). left. reflexivity. }
    inversion Hnd1 as [|? ? Hx1 Hnd1']; subst.
    inversion Hnd2 as [|? ? Hy2 Hnd2']; subst.
    inversion Hs1 as [|? ? Hs1' Hx]; subst.
    inversion Hs2 as [|? ? Hs2' Hy]; subst.
    rewrite Forall_forall in Hx, Hy.
    assert (Hhead : x = y).
    { destruct (proj1 (Hsame x) (or_introl eq_refl)) as [E | Hin2]; [symmetry; exact E|].
      destruct (proj2 (Hsame y) (or_introl eq_refl)) as [E | Hin1]; [exact E|].
      exfalso. exact (Hasym x y (Hx y Hin1) (Hy x Hin2)). }
    subst y. f_equal. apply IH; try assumption.
    intros z. split; intros Hz.
    + destruct (proj1 (Hsame z) (or_intror Hz)) as [E | H]; [|exact H].
      subst z. contradiction.
    + destruct (proj2 (Hsame z) (or_intror Hz)) as [E | H]; [|exact H].
      subst z. contradiction.
Qed.

End SortedFacts.

Section LanguageRanking.

Import Features Ranking.

Lemma counter_get_incr (key l : string) (c : Counter) :
  counter_get key (counter_incr l c)
  = (counter_get key c + if String.eqb l key then 1 else 0)%Z.
Proof.
  induction c as [|[k n] c IH]; cbn.
  - destruct (String.eqb l key); reflexivity.
  - destruct (String.eqb k l) eqn:Ekl; cbn.
    + apply String.eqb_eq in Ekl. subst k.
      destruct (String.eqb l key); lia.
    + destruct (String.eqb k key) eqn:Ek; [|exact IH].
      apply String.eqb_eq in Ek. subst k.
      rewrite (String.eqb_sym l key), Ekl. lia.
Qed.

Lemma counter_keys_incr (l : string) (c : Counter) :
  map fst (counter_incr l c)
  = if Urllib.mem_str l (map fst c) then map fst c else (map fst c ++ [l])%list.
Proof.
  unfold Urllib.mem_str.
  induction c as [|[k n] c IH]; cbn; [reflexivity|].
  rewrite (String.eqb_sym l k).
  destruct (String.eqb k l); cbn; [reflexivity|].
  rewrite IH. destruct (existsb (String.eqb l) (map fst c)); reflexivity.
Qed.

Lemma mem_str_In (x : string) (l : list string) :
  Urllib.mem_str x l = true <-> In x l.
Proof.
  unfold Urllib.mem_str. rewrite existsb_exists. split.
  - intros (y & Hy & E). apply String.eqb_eq in E. subst. exact Hy.
  - intros H. exists x. split; [exact H | apply String.eqb_refl].
Qed.

Lemma counter_get_entry (k : string) (n : Z) (c : Counter) :
  NoDup (map fst c) -> In (k, n) c -> counter_get k c = n.
Proof.
  induction c as [|[k' n'] c IH]; cbn; [contradiction|].
  intros Hnd [E | Hin].
  - injection E as -> ->. rewrite String.eqb_refl. reflexivity.
  - inversion Hnd as [|? ? Hnotin Hnd']; subst.
    destruct (String.eqb k' k) eqn:Ek; [|apply IH; assumption].
    apply String.eqb_eq in Ek. subst k'.
    exfalso. apply Hnotin. apply (in_map fst) in Hin. exact Hin.
Qed.

Lemma frequency_app_one (pre : list string) (l x : string) :
  frequency (pre ++ [l]) x
  = (frequency pre x + if String.eqb l x then 1 else 0)%nat.
Proof.
  unfold frequency. rewrite count_occ_app. cbn.
  destruct (string_dec l x) as [E | E].
  - subst. rewrite String.eqb_refl. reflexivity.
  - apply String.eqb_neq in E. rewrite E. reflexivity.
Qed.

Lemma first_position_lt (pre : list string) (x : string) :
  In x pre -> (first_position pre x < length pre)%nat.
Proof.
  induction pre as [|y pre IH]; cbn; [contradiction|].
  intros Hin. destruct (String.eqb y x) eqn:E; [lia|].
  apply String.eqb_neq in E. destruct Hin as [-> | Hin]; [contradiction|].
  specialize (IH Hin). lia.
Qed.

Lemma first_position_app_in (pre : list string) (l x : string) :
  In x pre -> first_position (pre ++ [l]) x = first_position pre x.
Proof.
  induction pre as [|y pre IH]; cbn; [contradiction|].
  intros Hin. destruct (String.eqb y x) eqn:E; [reflexivity|].
  apply String.eqb_neq in E. destruct Hin as [-> | Hin]; [contradiction|].
  rewrite (IH Hin). reflexivity.
Qed.

Lemma first_position_app_new (pre : list string) (l : string) :
  ~ In l pre -> first_position (pre ++ [l]) l = length pre.
Proof.
  induction pre as [|y pre IH]; cbn; intros Hnotin.
  - rewrite String.eqb_refl. reflexivity.
  - destruct (String.eqb y l) eqn:E.
    + apply String.eqb_eq in E. subst. exfalso. apply Hnotin. left. reflexivity.
    + rewrite IH; [reflexivity|]. intros H. apply Hnotin. right. exact H.
Qed.

(** The counter built from the labels: its keys are the distinct labels in
    the order of their first occurrence, each with its number of
    occurrences. *)
Lemma count_labels_spec (labels : list string) :
  (forall k, counter_get k (count_labels labels) = Z.of_nat (frequency labels k)) /\
  (forall k, In k (map fst (count_labels labels)) <-> In k labels) /\
  StronglySorted (fun a b => (first_position labels a < first_position labels b)%nat)
    (map fst (count_labels labels)).
Proof.
  induction labels as [|l pre (Hget & Hkeys & Hsorted)] using rev_ind.
  - cbn. repeat split; try contradiction; constructor.
  - replace (count_labels (pre ++ [l])) with (counter_incr l (count_labels pre))
      by (unfold count_labels; rewrite fold_left_app; reflexivity).
    set (c := count_labels pre) in *.
    split; [|split].
    + intros k. rewrite counter_get_incr, Hget, frequency_app_one.
      destruct (String.eqb l k); lia.
    + intros k. rewrite counter_keys_incr, in_app_iff. cbn [In].
      destruct (Urllib.mem_str l (map fst c)) eqn:Em.
      * apply mem_str_In in Em. rewrite Hkeys.
        split; [tauto|]. intros [H | [<- | []]]; [exact H | apply Hkeys, Em].
      * rewrite in_app_iff, Hkeys. cbn [In]. tauto.
    + rewrite counter_keys_incr.
      assert (Hold : StronglySorted
                (fun a b => (first_position (pre ++ [l]) a
                             < first_position (pre ++ [l]) b)%nat) (map fst c)).
      { apply StronglySorted_restrict with (2 := Hsorted).
        intros a b Ha Hb. apply Hkeys in Ha, Hb.
        rewrite !first_position_app_in by assumption. trivial. }
      destruct (Urllib.mem_str l (map fst c)) eqn:Em; [exact Hold|].
      apply StronglySorted_append_one; [exact Hold|].
      assert (Hnew : ~ In l pre).
      { intros H. apply Hkeys, mem_str_In in H. congruence. }
      rewrite Forall_forall. intros a Ha. apply Hkeys in Ha.
      rewrite first_position_app_in, first_position_app_new by assumption.
      apply first_position_lt, Ha.
Qed.

End LanguageRanking.

Section MostCommon.

Import Features Ranking.

Variable pos : string -> nat.

Lemma insert_by_count_perm (x : string * Z) (l : list (string * Z)) :
  Permutation (insert_by_count x l) (x :: l).
Proof.
  induction l as [|y l IH]; cbn; [reflexivity|].
  destruct (snd x <? snd y)%Z; [|reflexivity].
  rewrite IH. apply perm_swap.
Qed.

Lemma most_common_perm (c : Counter) : Permutation (most_common c) c.
Proof.
  induction c as [|x c IH]; cbn; [reflexivity|].
  rewrite insert_by_count_perm. constructor. exact IH.
Qed.

Lemma insert_by_count_sorted (x : string * Z) (l : list (string * Z)) :
  StronglySorted (by_count_then_pos pos) l ->
  Forall (fun y => (pos (fst x) < pos (fst y))%nat) l ->
  StronglySorted (by_count_then_pos pos) (insert_by_count x l).
Proof.
  induction l as [|y l IH]; intros Hs Hpos; cbn.
  - constructor; constructor.
  - inversion Hs as [|? ? Hl Hy]; subst.
    inversion Hpos as [|? ? Hxy Hxl]; subst.
    destruct (snd x <? snd y)%Z eqn:E.
    + apply Z.ltb_lt in E. constructor; [apply IH; assumption|].
      rewrite (insert_by_count_perm x l). constructor; [left; exact E | exact Hy].
    + apply Z.ltb_ge in E. constructor; [exact Hs|].
      constructor.
      * unfold by_count_then_pos. destruct (Z.eq_dec (snd x) (snd y)); [right | left]; lia.
      * rewrite Forall_forall in *. intros z Hz.
        specialize (Hy z Hz). specialize (Hxl z Hz).
        unfold by_count_then_pos in *.
        destruct (Z.eq_dec (snd x) (snd z)); [right | left]; lia.
Qed.

Lemma most_common_sorted (c : Counter) :
  StronglySorted (fun a b => (pos (fst a) < pos (fst b))%nat) c ->
  StronglySorted (by_count_then_pos pos) (most_common c).
Proof.
  induction 1 as [|x c Hc IH Hx]; cbn; [constructor|].
  apply insert_by_count_sorted; [exact IH|].
  rewrite (most_common_perm c). exact Hx.
Qed.

End MostCommon.

Section FeatureFacts.

Import Features Ranking.

Context {parser : PageParser}.

Lemma scan_language_counter (pages : list PageSnapshot) (acc : Scan) :
  language_counter (fold_left scan_snapshot pages acc)
  = fold_left (fun c language_label => counter_incr language_label c)
      (detected_labels pages) (language_counter acc).
Proof.
  revert acc. induction pages as [|page pages IH]; intros acc; [reflexivity|].
  cbn [fold_left detected_labels flat_map]. rewrite fold_left_app, IH.
  f_equal. unfold scan_snapshot. cbn [language_counter].
  destruct (language_label_of page); reflexivity.
Qed.

(** The languages of a feature vector are the ranked keys of the counter. *)
Lemma languages_most_common (b : BusinessRecord) (pages : list PageSnapshot) :
  languages (build_feature_vector b pages)
  = map fst (most_common (count_labels (detected_labels pages))).
Proof.
  destruct pages as [|page pages]; [reflexivity|].
  unfold build_feature_vector. cbn [languages].
  rewrite scan_language_counter. reflexivity.
Qed.

(** C8: on an empty page list the feature vector counts no page, has every
    signal false, an average word count of 0.0 and no language. *)
Theorem empty_pages_feature_vector (b : BusinessRecord) :
  let fv := build_feature_vector b [] in
  total_pages fv = 0%Z /\
  has_structured_data fv = false /\
  has_meta_description fv = false /\
  has_open_graph fv = false /\
  has_analytics fv = false /\
  has_contact_cta fv = false /\
  has_viewport_meta fv = false /\
  has_email_address fv = false /\
  has_phone_number fv = false /\
  avg_word_count fv = 0%Q /\
  languages fv = [] /\
  fv_place_id fv = place_id b /\
  fv_business_name fv = name b /\
  fv_website fv = website b.
Proof. cbn. repeat split. Qed.

(** C9: for a non-empty list of snapshots the languages of the feature
    vector are the distinct detected labels, the more frequent first, and
    among equally frequent ones the one detected first. *)
Theorem languages_frequency_ranked (b : BusinessRecord) (pages : list PageSnapshot) :
  pages <> [] ->
  frequency_ranked (detected_labels pages) (languages (build_feature_vector b pages)).
Proof.
  intros _. rewrite languages_most_common.
  set (labels := detected_labels pages).
  destruct (count_labels_spec labels) as (Hget & Hkeys & Hsorted).
  set (c := count_labels labels) in *.
  assert (Hnd : NoDup (map fst c)).
  { apply StronglySorted_NoDup with (2 := Hsorted). intros a. lia. }
  pose proof (most_common_perm c) as Hperm.
  assert (Hcount : forall e, In e (most_common c) ->
                             snd e = Z.of_nat (frequency labels (fst e))).
  { intros [k n] He. cbn. rewrite <- Hget. symmetry.
    apply counter_get_entry; [exact Hnd|].
    apply (Permutation_in _ Hperm), He. }
  split; [|split].
  - apply (Permutation_NoDup (l := map fst c)); [|exact Hnd].
    apply Permutation_map. symmetry. exact Hperm.
  - intros x. rewrite <- Hkeys. split; apply Permutation_in, Permutation_map;
      [exact Hperm | symmetry; exact Hperm].
  - apply (proj1 (StronglySorted_map fst (ranks_before labels) (most_common c))).
    apply StronglySorted_restrict
      with (2 := most_common_sorted (first_position labels) c
                   (proj2 (StronglySorted_map fst _ c) Hsorted)).
    intros x y Hx Hy. unfold by_count_then_pos, ranks_before.
    rewrite (Hcount x Hx), (Hcount y Hy). lia.
Qed.

(** The ranking determines the list: the languages of the feature vector are
    the only list that is frequency-ranked for the detected labels. *)
Lemma frequency_ranked_unique (labels l1 l2 : list string) :
  frequency_ranked labels l1 -> frequency_ranked labels l2 -> l1 = l2.
Proof.
  intros (Hnd1 & Hin1 & Hs1) (Hnd2 & Hin2 & Hs2).
  apply (StronglySorted_unique (ranks_before labels)); try assumption.
  - unfold ranks_before. intros a b. lia.
  - intros x. rewrite Hin1, Hin2. reflexivity.
Qed.

End FeatureFacts.

(** ** URL splitting and normalization *)

Section StringFacts.

Import Urllib UrlShapes.

Lemma append_empty_r (s : string) : s ++ "" = s.
Proof. induction s as [|c s IH]; cbn; [reflexivity | rewrite IH; reflexivity]. Qed.

Lemma append_assoc (a b c : string) : (a ++ b) ++ c = a ++ b ++ c.
Proof. induction a as [|x a IH]; cbn; [reflexivity | rewrite IH; reflexivity]. Qed.

Lemma forallb_str_app (q : ascii -> bool) (a b : string) :
  forallb_str q (a ++ b) = forallb_str q a && forallb_str q b.
Proof.
  induction a as [|c a IH]; cbn; [reflexivity|].
  rewrite IH. apply andb_assoc.
Qed.

Lemma forallb_str_impl (q q' : ascii -> bool) (s : string) :
  (forall c, q c = true -> q' c = true) ->
  forallb_str q s = true -> forallb_str q' s = true.
Proof.
  intros Himp. induction s as [|c s IH]; cbn; [reflexivity|].
  intros H. apply andb_prop in H as [Hc Hs].
  rewrite (Himp c Hc), (IH Hs). reflexivity.
Qed.

Lemma forallb_str_and (q1 q2 : ascii -> bool) (s : string) :
  forallb_str q1 s = true -> forallb_str q2 s = true ->
  forallb_str (fun c => q1 c && q2 c) s = true.
Proof.
  induction s as [|c s IH]; cbn; [reflexivity|].
  intros H1 H2. apply andb_prop in H1 as [Hc1 Hs1]. apply andb_prop in H2 as [Hc2 Hs2].
  rewrite Hc1, Hc2, (IH Hs1 Hs2). reflexivity.
Qed.

Lemma forallb_str_tail (q : ascii -> bool) (s : string) :
  forallb_str q s = true -> forallb_str q (tail s) = true.
Proof.
  destruct s as [|c s]; cbn; [reflexivity|].
  intros H. apply andb_prop in H. apply H.
Qed.

Lemma break_spec (p : ascii -> bool) (s a b : string) :
  break p s = (a, b) ->
  s = a ++ b /\ forallb_str (fun c => negb (p c)) a = true /\ headed p b.
Proof.
  revert a b. induction s as [|c s IH]; cbn; intros a b.
  - intros [= <- <-]. repeat split.
  - destruct (p c) eqn:Ec.
    + intros [= <- <-]. cbn. repeat split. exact Ec.
    + destruct (break p s) as [a' b'] eqn:E. intros [= <- <-].
      destruct (IH a' b' eq_refl) as (-> & Ha & Hb).
      cbn. rewrite Ec, Ha. repeat split. exact Hb.
Qed.

Lemma break_app (p : ascii -> bool) (a b : string) :
  forallb_str (fun c => negb (p c)) a = true -> headed p b ->
  break p (a ++ b) = (a, b).
Proof.
  induction a as [|c a IH]; cbn; intros Ha Hb.
  - destruct b as [|c b]; cbn in *; [reflexivity | rewrite Hb; reflexivity].
  - apply andb_prop in Ha as [Hc Ha]. apply negb_true_iff in Hc.
    rewrite Hc, (IH Ha Hb). reflexivity.
Qed.

Lemma break_none (p : ascii -> bool) (s : string) :
  forallb_str (fun c => negb (p c)) s = true -> break p s = (s, "").
Proof.
  intros H. rewrite <- (append_empty_r s) at 1. apply break_app; [exact H | exact I].
Qed.

Lemma break_forall (q p : ascii -> bool) (s a b : string) :
  break p s = (a, b) -> forallb_str q s = true ->
  forallb_str q a = true /\ forallb_str q b = true.
Proof.
  intros Hb Hq. apply break_spec in Hb as (-> & _ & _).
  rewrite forallb_str_app in Hq. apply andb_prop in Hq. exact Hq.
Qed.

Lemma remove_unsafe_clean (s : string) :
  forallb_str (fun c => negb (is_unsafe_byte c)) (remove_unsafe s) = true.
Proof.
  induction s as [|c s IH]; cbn; [reflexivity|].
  destruct (is_unsafe_byte c) eqn:E; [exact IH|].
  cbn. rewrite E, IH. reflexivity.
Qed.

Lemma remove_unsafe_fixed (s : string) :
  forallb_str (fun c => negb (is_unsafe_byte c)) s = true -> remove_unsafe s = s.
Proof.
  induction s as [|c s IH]; cbn; [reflexivity|].
  intros H. apply andb_prop in H as [Hc Hs]. apply negb_true_iff in Hc.
  rewrite Hc, (IH Hs). reflexivity.
Qed.

Lemma rstrip_slash_app (a b : string) :
  rstrip_slash (a ++ b)
  = if is_empty (rstrip_slash b) then rstrip_slash a else a ++ rstrip_slash b.
Proof.
  induction a as [|c a IH]; cbn.
  - destruct (rstrip_slash b); reflexivity.
  - rewrite IH. destruct (rstrip_slash b) as [|c' r]; cbn; [reflexivity|].
    destruct (a ++ String c' r) eqn:E; [|reflexivity].
    destruct a; discriminate.
Qed.

Lemma rstrip_slash_fixed (s : string) :
  forallb_str not_slash s = true -> rstrip_slash s = s.
Proof.
  induction s as [|c s IH]; cbn; [reflexivity|].
  intros H. apply andb_prop in H as [Hc Hs]. rewrite (IH Hs).
  unfold not_slash in Hc. apply negb_true_iff in Hc. rewrite Hc.
  destruct s; reflexivity.
Qed.

Lemma rstrip_slash_forall (q : ascii -> bool) (s : string) :
  forallb_str q s = true -> forallb_str q (rstrip_slash s) = true.
Proof.
  induction s as [|c s IH]; cbn; [reflexivity|].
  intros H. apply andb_prop in H as [Hc Hs]. specialize (IH Hs).
  destruct (rstrip_slash s) as [|c' r].
  - destruct (Ascii.eqb c "/"); cbn; [reflexivity | rewrite Hc; reflexivity].
  - cbn in *. rewrite Hc, IH. reflexivity.
Qed.

Lemma rstrip_slash_headed (p : ascii -> bool) (s : string) :
  headed p s -> headed p (rstrip_slash s).
Proof.
  destruct s as [|c s]; cbn; [trivial|].
  intros Hc. destruct (rstrip_slash s); [destruct (Ascii.eqb c "/")|]; cbn; trivial.
Qed.

Lemma rstrip_slash_no_trailing (s : string) :
  forall r, rstrip_slash s <> r ++ "/".
Proof.
  induction s as [|c s IH]; cbn; intros r.
  - destruct r; discriminate.
  - destruct (rstrip_slash s) as [|c' r'] eqn:E.
    + destruct (Ascii.eqb c "/") eqn:Ec; [destruct r; discriminate|].
      destruct r as [|c2 r]; cbn.
      * intros [= ->]. discriminate.
      * intros [= _ H]. destruct r; discriminate.
    + destruct r as [|c2 r]; cbn; [discriminate|].
      intros [= _ H]. exact (IH r H).
Qed.

(** After a non-empty host without slashes, stripping only reaches the path. *)
Lemma rstrip_slash_after_host (pre host rest : string) :
  is_empty host = false -> forallb_str not_slash host = true ->
  rstrip_slash (pre ++ host ++ rest) = pre ++ host ++ rstrip_slash rest.
Proof.
  intros Hne Hhost.
  assert (Hinner : rstrip_slash (host ++ rest) = host ++ rstrip_slash rest).
  { rewrite rstrip_slash_app, (rstrip_slash_fixed host Hhost).
    destruct (rstrip_slash rest); cbn; [rewrite append_empty_r|]; reflexivity. }
  rewrite rstrip_slash_app, Hinner.
  destruct host as [|c host]; [discriminate|]. reflexivity.
Qed.

Lemma rstrip_slash_idem (s : string) :
  rstrip_slash (rstrip_slash s) = rstrip_slash s.
Proof.
  induction s as [|c s IH]; cbn; [reflexivity|].
  destruct (rstrip_slash s) as [|c' r] eqn:E.
  - destruct (Ascii.eqb c "/") eqn:Ec; cbn; [reflexivity|]. rewrite Ec. reflexivity.
  - change (rstrip_slash (String c (String c' r)))
      with (match rstrip_slash (String c' r) with
            | EmptyString => if Ascii.eqb c "/" then EmptyString else String c EmptyString
            | r0 => String c r0
            end).
    rewrite IH. reflexivity.
Qed.

Lemma rstrip_slash_empty (s : string) :
  rstrip_slash s = "" -> forallb_str is_slash s = true.
Proof.
  induction s as [|c s IH]; cbn; [reflexivity|].
  destruct (rstrip_slash s); [|discriminate].
  unfold is_slash at 1.
  destruct (Ascii.eqb c "/"); [|discriminate].
  intros _. apply IH. reflexivity.
Qed.

Lemma append_ends_with (a r x : string) (c : ascii) :
  r <> "" -> a ++ r = x ++ String c "" -> exists x', r = x' ++ String c "".
Proof.
  revert x. induction a as [|d a IH]; cbn; intros x Hr H.
  - exists x. exact H.
  - destruct x as [|e x]; cbn in H.
    + injection H as _ H. destruct a; [|discriminate]. cbn in H. contradiction.
    + injection H as _ H. exact (IH x Hr H).
Qed.

End StringFacts.

Section NormalizeFacts.

Import Urllib Crawler UrlShapes.

Context {lib : Library}.

Lemma http_scheme_cases (s : string) :
  mem_str s ["http"; "https"] = true -> s = "http" \/ s = "https".
Proof.
  unfold mem_str. cbn. intros H.
  apply orb_prop in H as [H | H]; [left|].
  - apply String.eqb_eq in H. exact H.
  - apply orb_prop in H as [H | H]; [|discriminate].
    right. apply String.eqb_eq in H. exact H.
Qed.

Lemma urlunsplit_http (sch host p : string) :
  sch = "http" \/ sch = "https" -> is_empty host = false ->
  urlunsplit sch host p "" "" = sch ++ "://" ++ host ++ slashed p.
Proof.
  intros Hs Hh. unfold urlunsplit. rewrite Hh. cbn [negb orb is_empty].
  replace (is_empty sch) with false by (destruct Hs; subst; reflexivity).
  unfold slashed. destruct p as [|c p]; reflexivity.
Qed.

Lemma split_scheme_forall (q : ascii -> bool) (u sch rest : string) :
  split_scheme u = (sch, rest) -> forallb_str q u = true -> forallb_str q rest = true.
Proof.
  unfold split_scheme. destruct (break is_colon u) as [before after] eqn:Eb.
  intros H Hq. destruct (break_forall q _ _ _ _ Eb Hq) as [_ Hafter].
  destruct before as [|c0 before]; [injection H as _ <-; exact Hq|].
  destruct after as [|colon after]; [injection H as _ <-; exact Hq|].
  destruct (is_ascii_alpha c0 && forallb_str is_scheme_char (String c0 before)).
  - injection H as _ <-. cbn in Hafter. apply andb_prop in Hafter. apply Hafter.
  - injection H as _ <-. exact Hq.
Qed.

Lemma split_once_spec (p : ascii -> bool) (q : ascii -> bool) (u a b : string) :
  split_once p u = (a, b) -> forallb_str q u = true ->
  forallb_str (fun c => negb (p c)) a = true /\ forallb_str q a = true.
Proof.
  unfold split_once. destruct (break p u) as [a' b'] eqn:Eb.
  intros [= <- <-] Hq. split.
  - apply (break_spec _ _ _ _ Eb).
  - apply (break_forall q _ _ _ _ Eb Hq).
Qed.

(** What [urlsplit] returns, part by part. *)
Lemma urlsplit_parts (u : string) (parsed : SplitResult) :
  urlsplit u = Some parsed ->
  netloc_accepted (netloc parsed) = true /\
  forallb_str path_char (path parsed) = true /\
  (is_empty (netloc parsed) = false ->
   forallb_str netloc_char (netloc parsed) = true).
Proof.
  unfold urlsplit.
  pose proof (remove_unsafe_clean (lstrip_c0 u)) as Hclean.
  destruct (split_scheme (remove_unsafe (lstrip_c0 u))) as [sch u3] eqn:Ess.
  pose proof (split_scheme_forall _ _ _ _ Ess Hclean) as H3.
  assert (Hcut : forall host u4,
            (if Str.startswith u3 "//" then break is_netloc_delim (tail (tail u3))
             else ("", u3)) = (host, u4) ->
            forallb_str (fun c => negb (is_unsafe_byte c)) u4 = true /\
            (is_empty host = false -> forallb_str netloc_char host = true)).
  { intros host u4. destruct (Str.startswith u3 "//").
    - intros Eb.
      pose proof (forallb_str_tail _ _ (forallb_str_tail _ _ H3)) as Ht.
      destruct (break_forall _ _ _ _ _ Eb Ht) as [Hh H4].
      split; [exact H4|]. intros _.
      apply forallb_str_and; [exact Hh | apply (break_spec _ _ _ _ Eb)].
    - intros [= <- <-]. split; [exact H3 | discriminate]. }
  destruct (if Str.startswith u3 "//" then _ else _) as [host u4] eqn:Ecut.
  destruct (Hcut host u4 eq_refl) as [H4 Hhost].
  destruct (netloc_accepted host) eqn:Eacc; [|discriminate].
  destruct (split_once is_hash u4) as [u5 frag] eqn:Eh.
  destruct (split_once_spec _ _ _ _ _ Eh H4) as [Hnohash H5].
  destruct (split_once is_question u5) as [pth qry] eqn:Eq.
  destruct (split_once_spec _ _ _ _ _ Eq H5) as [Hnoq Hp].
  destruct (split_once_spec _ _ _ _ _ Eq Hnohash) as [_ Hph].
  intros [= <-]. cbn [netloc path].
  split; [exact Eacc|]. split; [|exact Hhost].
  apply forallb_str_and; [exact Hp|]. apply forallb_str_and; assumption.
Qed.

(** Parsing a URL that was assembled from an http(s) scheme, an accepted
    network location and a path gives these three parts back. *)
Lemma urlsplit_assembled (sch host t : string) :
  sch = "http" \/ sch = "https" ->
  netloc_accepted host = true ->
  forallb_str netloc_char host = true ->
  forallb_str path_char t = true ->
  headed is_slash t ->
  urlsplit (sch ++ "://" ++ host ++ t) = Some (mkSplitResult sch host t "" "").
Proof.
  intros Hs Hacc Hhost Ht Hhead.
  assert (Hclean : remove_unsafe (host ++ t) = host ++ t).
  { apply remove_unsafe_fixed. rewrite forallb_str_app.
    rewrite (forallb_str_impl netloc_char _ host), (forallb_str_impl path_char _ t);
      trivial; intros c Hc; apply andb_prop in Hc; apply Hc. }
  assert (Hbreak : break is_netloc_delim (host ++ t) = (host, t)).
  { apply break_app.
    - apply (forallb_str_impl netloc_char); [|exact Hhost].
      intros c Hc. apply andb_prop in Hc. apply Hc.
    - destruct t as [|c t]; cbn in *; [trivial|].
      unfold is_slash in Hhead. unfold is_netloc_delim. rewrite Hhead. reflexivity. }
  assert (Hhash : split_once is_hash t = (t, "")).
  { unfold split_once. rewrite break_none; [reflexivity|].
    apply (forallb_str_impl path_char); [|exact Ht].
    intros c Hc. apply andb_prop in Hc as [_ Hc]. apply andb_prop in Hc. apply Hc. }
  assert (Hquestion : split_once is_question t = (t, "")).
  { unfold split_once. rewrite break_none; [reflexivity|].
    apply (forallb_str_impl path_char); [|exact Ht].
    intros c Hc. apply andb_prop in Hc as [_ Hc]. apply andb_prop in Hc. apply Hc. }
  unfold urlsplit.
  destruct Hs; subst sch.
  - change (remove_unsafe (lstrip_c0 ("http" ++ "://" ++ host ++ t)))
      with ("http://" ++ remove_unsafe (host ++ t)).
    rewrite Hclean.
    change (split_scheme ("http://" ++ host ++ t)) with ("http", "//" ++ host ++ t).
    cbv beta iota.
    change (Str.startswith ("//" ++ host ++ t) "//") with true.
    change (tail (tail ("//" ++ host ++ t))) with (host ++ t).
    cbv beta iota. rewrite Hbreak, Hacc, Hhash. rewrite Hquestion. reflexivity.
  - change (remove_unsafe (lstrip_c0 ("https" ++ "://" ++ host ++ t)))
      with ("https://" ++ remove_unsafe (host ++ t)).
    rewrite Hclean.
    change (split_scheme ("https://" ++ host ++ t)) with ("https", "//" ++ host ++ t).
    cbv beta iota.
    change (Str.startswith ("//" ++ host ++ t) "//") with true.
    change (tail (tail ("//" ++ host ++ t))) with (host ++ t).
    cbv beta iota. rewrite Hbreak, Hacc, Hhash. rewrite Hquestion. reflexivity.
Qed.

Lemma normalized_path_ok (p : string) :
  forallb_str path_char p = true ->
  forallb_str path_char (normalized_path p) = true /\
  headed is_slash (normalized_path p).
Proof.
  unfold normalized_path. destruct p as [|c p]; [split; reflexivity|].
  cbn [is_empty]. rewrite append_empty_r. intros Hp.
  assert (Hs : forallb_str path_char (slashed (String c p)) = true
               /\ headed is_slash (slashed (String c p))).
  { unfold slashed. destruct (Ascii.eqb c "/") eqn:Ec; split.
    - exact Hp.
    - exact Ec.
    - change (path_char "/" && forallb_str path_char (String c p) = true).
      rewrite Hp. reflexivity.
    - reflexivity. }
  split; [apply rstrip_slash_forall | apply rstrip_slash_headed]; apply Hs.
Qed.

(** A normalized URL is the scheme, the network location and the normalized
    path of the URL it came from, and parses into these parts again. *)
Lemma normalize_reparse (u v : string) :
  _normalize_url u = Some v ->
  exists parsed,
    urlsplit u = Some parsed /\
    (scheme parsed = "http" \/ scheme parsed = "https") /\
    is_empty (netloc parsed) = false /\
    v = scheme parsed ++ "://" ++ netloc parsed ++ normalized_path (path parsed) /\
    urlsplit v
    = Some (mkSplitResult (scheme parsed) (netloc parsed)
              (normalized_path (path parsed)) "" "").
Proof.
  unfold _normalize_url.
  destruct (urlsplit u) as [parsed|] eqn:Eu; [|discriminate].
  destruct (urlsplit_parts u parsed Eu) as (Hacc & Hpath & Hhost).
  destruct (mem_str (scheme parsed) ["http"; "https"]) eqn:Es; [|discriminate].
  apply http_scheme_cases in Es.
  destruct (is_empty (netloc parsed)) eqn:En; [discriminate|].
  specialize (Hhost eq_refl).
  cbn [negb orb]. intros [= <-].
  exists parsed.
  destruct (normalized_path_ok _ Hpath) as [Htp Hth].
  assert (Hv : rstrip_slash
                 (urlunsplit (scheme parsed) (netloc parsed)
                    (if is_empty (path parsed) then "/" else path parsed) "" "")
               ++ (if is_empty (path parsed) then "/" else "")
               = scheme parsed ++ "://" ++ netloc parsed
                 ++ normalized_path (path parsed)).
  { rewrite (urlunsplit_http _ _ _ Es En).
    rewrite <- (append_assoc (scheme parsed) "://").
    rewrite rstrip_slash_after_host; [|exact En|].
    - unfold normalized_path. rewrite !append_assoc. reflexivity.
    - apply (forallb_str_impl netloc_char); [|exact Hhost].
      intros c Hc. apply andb_prop in Hc as [_ Hc].
      unfold is_netloc_delim in Hc. unfold not_slash.
      destruct (Ascii.eqb c "/"); [discriminate | reflexivity]. }
  rewrite Hv.
  repeat split; trivial.
  apply urlsplit_assembled; assumption.
Qed.

(** Query and fragment play no part: URLs with the same scheme, network
    location and path normalize alike. *)
Lemma normalize_by_parts (u1 u2 : string) (p1 p2 : SplitResult) :
  urlsplit u1 = Some p1 -> urlsplit u2 = Some p2 ->
  scheme p1 = scheme p2 -> netloc p1 = netloc p2 -> path p1 = path p2 ->
  _normalize_url u1 = _normalize_url u2.
Proof.
  intros H1 H2 Hs Hn Hp. unfold _normalize_url.
  rewrite H1, H2, Hs, Hn, Hp. reflexivity.
Qed.

(** X30: Away from the site root the normalizer does what is asked of it: when
    the path has a character other than [/], the result has no trailing
    slash and is its own normal form. *)
Lemma normalize_non_root (u v : string) (parsed : SplitResult) :
  urlsplit u = Some parsed ->
  forallb_str is_slash (path parsed) = false ->
  _normalize_url u = Some v ->
  (forall r, v <> r ++ "/") /\ _normalize_url v = Some v.
Proof.
  intros Hu Hpath Hnorm.
  destruct (normalize_reparse u v Hnorm) as (parsed' & Hu' & Hs & Hn & Hv & Hre).
  rewrite Hu in Hu'. injection Hu' as <-.
  set (r := rstrip_slash (slashed (path parsed))).
  assert (Hnp : normalized_path (path parsed) = r).
  { unfold normalized_path. destruct (path parsed); [discriminate|].
    cbn [is_empty]. apply append_empty_r. }
  assert (Hr : r <> "").
  { intros E. apply rstrip_slash_empty in E.
    unfold slashed in E. destruct (path parsed) as [|c p]; [discriminate|].
    destruct (Ascii.eqb c "/") eqn:Ec.
    - rewrite E in Hpath. discriminate.
    - cbn in E. unfold is_slash in E. rewrite Ec in E. discriminate. }
  assert (Hhead : headed is_slash r).
  { apply rstrip_slash_headed. unfold slashed.
    destruct (path parsed) as [|c p]; [exact I|].
    destruct (Ascii.eqb c "/") eqn:Ec; [exact Ec | reflexivity]. }
  assert (Hfix : normalized_path r = r).
  { unfold normalized_path. destruct r as [|c r'] eqn:Er; [contradiction|].
    cbn [is_empty]. rewrite append_empty_r.
    unfold slashed. cbn in Hhead. unfold is_slash in Hhead. rewrite Hhead.
    rewrite <- Er. apply rstrip_slash_idem. }
  rewrite Hnp in Hv, Hre. split.
  - intros x Hx. rewrite Hv in Hx.
    rewrite <- !append_assoc in Hx.
    destruct (append_ends_with _ _ _ _ Hr Hx) as (x' & Hx').
    exact (rstrip_slash_no_trailing _ _ Hx').
  - destruct (_normalize_url v) as [v'|] eqn:Ev.
    + destruct (normalize_reparse v v' Ev) as (q & Hq & _ & _ & Hv' & _).
      rewrite Hre in Hq. injection Hq as <-.
      cbn [scheme netloc path] in Hv'. rewrite Hfix in Hv'.
      rewrite Hv', Hv. reflexivity.
    + exfalso. revert Ev. unfold _normalize_url. rewrite Hre.
      cbn [scheme netloc path]. rewrite Hn.
      destruct Hs as [-> | ->]; discriminate.
Qed.

End NormalizeFacts.

(** ** The site crawler *)

Section CrawlFacts.

Import Urllib Crawler UrlShapes.

Context {lib : Library} {html_lib : Html}.
Context {World RobotParser : Type} {net : Net World RobotParser}.

Variable max_pages : Z.
Variable root : string.

Lemma normalized_same_netloc (root_parts parsed_parts : SplitResult)
  (parsed normalized : string) :
  urlsplit root = Some root_parts ->
  urlsplit parsed = Some parsed_parts ->
  netloc parsed_parts = netloc root_parts ->
  _normalize_url parsed = Some normalized ->
  same_netloc root normalized.
Proof.
  intros Hroot Hparsed Hnet Hnorm.
  destruct (normalize_reparse parsed normalized Hnorm)
    as (parsed' & Hparsed' & _ & _ & _ & Hre).
  rewrite Hparsed in Hparsed'. injection Hparsed' as <-.
  exists root_parts. eexists.
  split; [exact Hroot|]. split; [exact Hre | exact Hnet].
Qed.

Lemma set_add_forall (P : string -> Prop) (x : string) (s : list string) :
  P x -> Forall P s -> Forall P (set_add x s).
Proof.
  intros Hx Hs. unfold set_add. destruct (mem_str x s); [exact Hs|].
  apply Forall_app. split; [exact Hs | constructor; [exact Hx | constructor]].
Qed.

Lemma fold_links_same_netloc (root_parts : SplitResult) (hrefs links0 links : list string) :
  urlsplit root = Some root_parts ->
  Forall (same_netloc root) links0 ->
  fold_links root root_parts links0 hrefs = Some links ->
  Forall (same_netloc root) links.
Proof.
  intros Hroot. revert links0.
  induction hrefs as [|href hrefs IH]; intros links0 H0; cbn.
  - intros [= <-]. exact H0.
  - unfold bind at 1.
    destruct (add_internal_link root root_parts links0 href) as [links1|] eqn:Eadd;
      [|discriminate].
    apply IH. revert Eadd. unfold add_internal_link, bind.
    destruct (urljoin root href) as [parsed|]; [|discriminate].
    destruct (urlsplit parsed) as [parsed_parts|] eqn:Eparsed; [|discriminate].
    destruct (String.eqb (netloc parsed_parts) (netloc root_parts)) eqn:Enet;
      cbn [negb]; [|intros [= <-]; exact H0].
    apply String.eqb_eq in Enet.
    destruct (negb (mem_str (scheme parsed_parts) ["http"; "https"]));
      [intros [= <-]; exact H0|].
    destruct (_normalize_url parsed) as [normalized|] eqn:Enorm;
      [|intros [= <-]; exact H0].
    destruct (is_empty normalized); intros [= <-]; [exact H0|].
    apply set_add_forall; [|exact H0].
    exact (normalized_same_netloc _ _ _ _ Hroot Eparsed Enet Enorm).
Qed.

Lemma extract_internal_links_same_netloc (html : string) (links : list string) :
  _extract_internal_links root html = Some links ->
  Forall (same_netloc root) links.
Proof.
  unfold _extract_internal_links, bind.
  destruct (urlsplit root) as [root_parts|] eqn:Eroot; [|discriminate].
  apply (fold_links_same_netloc root_parts); [exact Eroot | constructor].
Qed.

Lemma enqueue_forall (P : string -> Prop) (seen0 links frontier : list string) :
  Forall P links -> Forall P frontier ->
  Forall P (fold_left (enqueue max_pages seen0) links frontier).
Proof.
  revert frontier. induction links as [|link links IH]; intros frontier Hl Hf; cbn.
  - exact Hf.
  - inversion Hl as [|? ? Hlink Hlinks]; subst.
    apply IH; [exact Hlinks|]. unfold enqueue.
    destruct (_ && _); [|exact Hf].
    apply Forall_app. split; [exact Hf | constructor; [exact Hlink | constructor]].
Qed.

Lemma crawl_body_invariant (st st' : @Crawl World RobotParser) :
  loop_condition max_pages st = true ->
  crawl_invariant max_pages root st ->
  crawl_body max_pages root st = Some st' ->
  crawl_invariant max_pages root st'.
Proof.
  unfold loop_condition, crawl_body, crawl_invariant.
  destruct (to_visit st) as [|target rest]; [discriminate|].
  cbn [negb andb]. intros Hlt (Hlen & Hfrontier & Hseen & Hsnaps).
  apply Z.ltb_lt in Hlt.
  inversion Hfrontier as [|? ? Htarget Hrest]; subst.
  destruct (mem_str target (seen st)).
  { intros [= <-]. cbn. auto. }
  unfold bind at 1.
  destruct (_is_allowed _ _ _) as [[[allowed cache] w]|]; [|discriminate].
  destruct allowed; cbn [negb].
  2:{ intros [= <-]. cbn. auto. }
  destruct (http_get w target) as [[html|] w'].
  2:{ intros [= <-]. cbn. auto. }
  unfold bind.
  destruct (_extract_internal_links root html) as [links|] eqn:Elinks; [|discriminate].
  intros [= <-]. cbn [to_visit seen snapshots].
  apply extract_internal_links_same_netloc in Elinks.
  split; [rewrite length_app; cbn [length]; lia|].
  split; [|split].
  - apply enqueue_forall; [|exact Hrest].
    rewrite Forall_forall in *. intros x Hx. apply Elinks.
    apply (Permutation_in _ (iter_set_perm links)), Hx.
  - constructor; assumption.
  - apply Forall_app. split; [exact Hsnaps|]. constructor; [exact Htarget | constructor].
Qed.

Lemma crawl_loop_invariant (st st' : @Crawl World RobotParser) :
  crawl_invariant max_pages root st ->
  crawl_loop max_pages root st = Some st' ->
  crawl_invariant max_pages root st'.
Proof.
  revert st'.
  apply (crawl_loop_elim max_pages
           (fun r s res => r = root -> forall s', crawl_invariant max_pages root s ->
                                                  res = Some s' ->
                                                  crawl_invariant max_pages root s'));
    try reflexivity.
  - intros r s _ _ _ s' Hinv [= <-]. exact Hinv.
  - intros r s s1 Hbody Hcond IH _ _ -> s' Hinv Hres.
    apply (IH eq_refl s'); [|exact Hres].
    exact (crawl_body_invariant s s1 Hcond Hinv Hbody).
  - intros r s _ _ _ _ _ s' _ Hres. discriminate.
Qed.

End CrawlFacts.

Section CrawlTheorems.

Import Urllib Crawler UrlShapes.

Context {lib : Library} {html_lib : Html}.
Context {World RobotParser : Type} {net : Net World RobotParser}.

(** C7: with a page cap that is not negative, a crawl that returns has
    collected at most [max_pages] snapshots; the URL of every snapshot, and
    every URL that was fetched (the seen set), has the network location of
    the normalized seed. *)
Theorem crawl_bounded_same_origin (max_pages : Z) (cache : RobotsCache)
  (w : World) (seed : string) (st : Crawl) :
  (0 <= max_pages)%Z ->
  crawl_from max_pages cache w seed = Some st ->
  crawl max_pages cache w seed = Some (snapshots st) /\
  (Z.of_nat (length (snapshots st)) <= max_pages)%Z /\
  forall normalized_root,
    _normalize_url seed = Some normalized_root ->
    Forall (fun snapshot => same_netloc normalized_root (url snapshot)) (snapshots st) /\
    Forall (same_netloc normalized_root) (seen st).
Proof.
  intros Hmax Hrun.
  split; [unfold crawl; rewrite Hrun; reflexivity|].
  revert Hrun. unfold crawl_from.
  destruct (_normalize_url seed) as [normalized_root|] eqn:Enorm.
  2:{ intros [= <-]. cbn. split; [exact Hmax | discriminate]. }
  destruct (is_empty normalized_root).
  { intros [= <-]. cbn. split; [exact Hmax|]. intros r _. split; constructor. }
  intros Hloop.
  assert (Hself : same_netloc normalized_root normalized_root).
  { destruct (normalize_reparse seed normalized_root Enorm) as (parsed & _ & _ & _ & _ & Hre).
    eexists. eexists. split; [exact Hre|]. split; [exact Hre | reflexivity]. }
  assert (Hinit : crawl_invariant max_pages normalized_root
                    (mkCrawl [normalized_root] [] [] cache w)).
  { unfold crawl_invariant. cbn. repeat split; try constructor; trivial. }
  destruct (crawl_loop_invariant max_pages normalized_root _ st Hinit Hloop)
    as (Hlen & _ & Hseen & Hsnaps).
  split; [exact Hlen|]. intros r [= <-]. split; assumption.
Qed.

(** What an iteration does with the URL it pops: one that is already seen,
    or that robots.txt disallows, leaves the seen set and the snapshots as
    they were and fetches nothing; a URL enters the seen set only when it
    passes both checks. *)
Theorem crawl_body_marks_seen (max_pages : Z) (normalized_root : string)
  (st st' : Crawl) (target : string) (rest : list string) :
  to_visit st = target :: rest ->
  crawl_body max_pages normalized_root st = Some st' ->
  (mem_str target (seen st) = true ->
   st' = mkCrawl rest (seen st) (snapshots st) (_robots_cache st) (world st)) /\
  (mem_str target (seen st) = false ->
   exists allowed cache w,
     _is_allowed (_robots_cache st) (world st) target = Some (allowed, cache, w) /\
     (allowed = false -> st' = mkCrawl rest (seen st) (snapshots st) cache w) /\
     (allowed = true -> seen st' = target :: seen st)).
Proof.
  unfold crawl_body. intros ->.
  destruct (mem_str target (seen st)).
  { intros [= <-]. split; [reflexivity | discriminate]. }
  unfold bind at 1.
  destruct (_is_allowed _ _ _) as [[[allowed cache] w]|]; [|discriminate].
  intros Hbody. split; [discriminate|]. intros _.
  exists allowed, cache, w. split; [reflexivity|].
  destruct allowed; cbn [negb] in Hbody.
  - split; [discriminate|]. intros _.
    destruct (http_get w target) as [[html|] w'].
    + unfold bind in Hbody.
      destruct (_extract_internal_links _ _); [|discriminate].
      injection Hbody as <-. reflexivity.
    + injection Hbody as <-. reflexivity.
  - split; [|discriminate]. intros _. injection Hbody as <-. reflexivity.
Qed.

(** C2 on the code: the two spellings of a site root differ only by the
    trailing slash, and [_normalize_url] tells them apart; the spelling with
    the slash loses it, the one without gains it. *)
Theorem root_spellings_normalize_apart :
  _normalize_url "https://example.com" = Some "https://example.com/" /\
  _normalize_url "https://example.com/" = Some "https://example.com" /\
  _normalize_url "https://example.com/?page=2" = Some "https://example.com" /\
  _normalize_url "https://example.com#top" = Some "https://example.com/".
Proof. repeat split; reflexivity. Qed.

(** C3 on the code: normalizing the normalized root URL changes it again. *)
Theorem normalize_root_not_idempotent :
  exists v,
    _normalize_url "https://example.com" = Some v /\
    _normalize_url v = Some "https://example.com" /\
    _normalize_url v <> Some v.
Proof.
  exists "https://example.com/". repeat split; try reflexivity. discriminate.
Qed.

End CrawlTheorems.

Section CrawlSampleFacts.

Import Urllib Crawler UrlShapes CrawlSamples.

#[local] Existing Instance plain_library.
#[local] Existing Instance site_net.
#[local] Existing Instance site_html.

(** C5 on the code: the iteration that pops the disallowed [/x] leaves the
    seen set empty, where the specification marks the URL seen; so in the
    crawl of the sample site [/x] is enqueued again when [/a] links to it,
    and is popped and robots-checked a second time. *)
Lemma disallowed_target_not_marked_seen :
  _is_allowed [] tt "http://s/x" = Some (false, [("http://s", tt)], tt) /\
  crawl_body 5 "http://s/" (mkCrawl ["http://s/x"] [] [] [] tt)
  = Some (mkCrawl [] [] [] [("http://s", tt)] tt) /\
  crawl_trace 10 5 "http://s/" (mkCrawl ["http://s/"] [] [] [] tt)
  = [("http://s/", true); ("http://s/x", true); ("http://s/a", true);
     ("http://s/x", true)] /\
  option_map seen (crawl_from 5 [] tt "http://s") = Some ["http://s/a"; "http://s/"].
Proof. repeat split; vm_compute; reflexivity. Qed.

(** [crawl_body_marks_seen] on the iteration that pops the disallowed [/x]. *)
Lemma crawl_body_marks_seen_witness :
  exists st',
    crawl_body 5 "http://s/" (mkCrawl ["http://s/x"] [] [] [] tt) = Some st' /\
    exists allowed cache w,
      _is_allowed [] tt "http://s/x" = Some (allowed, cache, w) /\
      (allowed = false -> st' = mkCrawl [] [] [] cache w) /\
      (allowed = true -> seen st' = ["http://s/x"]).
Proof.
  eexists. split; [vm_compute; reflexivity|].
  apply (crawl_body_marks_seen 5 "http://s/"
           (mkCrawl ["http://s/x"] [] [] [] tt) _ "http://s/x" []);
    reflexivity.
Defined.

(** [crawl_bounded_same_origin] on the crawl of the sample site with the
    default cap of five pages. *)
Lemma crawl_bounded_same_origin_witness :
  exists st,
    crawl_from 5 [] tt "http://s" = Some st /\
    crawl 5 [] tt "http://s" = Some (snapshots st) /\
    (Z.of_nat (length (snapshots st)) <= 5)%Z /\
    Forall (fun snapshot => same_netloc "http://s/" (url snapshot)) (snapshots st).
Proof.
  eexists. split; [vm_compute; reflexivity|].
  destruct (crawl_bounded_same_origin 5 [] tt "http://s" _
              ltac:(discriminate) ltac:(vm_compute; reflexivity))
    as (Hcrawl & Hlen & Hhost).
  split; [exact Hcrawl|]. split; [exact Hlen|].
  apply (Hhost "http://s/"). reflexivity.
Defined.

End CrawlSampleFacts.

Section SlotSampleFacts.

Import Urllib Crawler CrawlSamples CrawlAsSpecified SlotSamples.

#[local] Existing Instance plain_library.
#[local] Existing Instance slot_net.
#[local] Existing Instance slot_html.

(** What the unmarked URL costs. With a cap of three pages the frontier
    holds six URLs. The disallowed [/x] is popped, skipped and not marked;
    [/a] links to it again, so it takes the first of the six places and the
    link to [/good], an allowed page that can be fetched, finds the frontier
    full. The crawl ends with two pages and has never asked for [/good].
    With [/x] marked seen, as the specification has it, [/good] is in the
    frontier and becomes the third page. *)
Lemma disallowed_url_costs_a_page :
  crawl_trace 20 3 "http://r/" (mkCrawl ["http://r/"] [] [] [] tt)
  = [("http://r/", true); ("http://r/x", true); ("http://r/a", true);
     ("http://r/x", true); ("http://r/d1", true); ("http://r/d2", true);
     ("http://r/d3", true); ("http://r/d4", true); ("http://r/d5", true)] /\
  option_map (fun st => (to_visit st, map url (snapshots st)))
    (crawl_from 3 [] tt "http://r")
  = Some ([], ["http://r/"; "http://r/a"]) /\
  option_map (fun st => mem_str "http://r/good" (seen st)) (crawl_from 3 [] tt "http://r")
  = Some false /\
  _is_allowed [] tt "http://r/good" = Some (true, [("http://r", tt)], tt) /\
  http_get tt "http://r/good" = (Some "good", tt) /\
  option_map (fun st => map url (snapshots st))
    (crawl_loop_marking 3 20 "http://r/" (mkCrawl ["http://r/"] [] [] [] tt))
  = Some ["http://r/"; "http://r/a"; "http://r/good"].
Proof. repeat split; vm_compute; reflexivity. Qed.

End SlotSampleFacts.

Section FeatureSampleFacts.

Import Features Ranking FeatureSamples.

#[local] Existing Instance blind_parser.

(** [languages_frequency_ranked] on the six sample pages: English and
    Arabic occur twice each, English first; French occurs once. *)
Lemma languages_frequency_ranked_witness :
  languages (build_feature_vector Samples.best_business six_pages)
  = ["English"; "Arabic"; "fr"] /\
  frequency_ranked (detected_labels six_pages)
    (languages (build_feature_vector Samples.best_business six_pages)).
Proof.
  split; [reflexivity|].
  apply languages_frequency_ranked. discriminate.
Defined.

End FeatureSampleFacts.

(** * Part III: further properties of the modules above *)

(** ** Ceilings of the scorer *)

Section ScoringCeilings.

Import Scoring.
Open Scope Q_scope.

Context {llm : SupportsLLM}.

Ltac each_flag :=
  repeat match goal with
         | |- context [if ?c then _ else _] => destruct c
         end.

Lemma content_at_most_80 (f : FeatureVector) :
  exists n : Z, _score_content f = inject_Z n /\ (35 <= n <= 80)%Z.
Proof.
  unfold _score_content. each_flag; eexists;
    (split; [vm_compute; reflexivity | vm_compute; split; discriminate]).
Qed.

Lemma trust_at_most_90 (b : BusinessRecord) (f : FeatureVector) :
  exists n : Z, _score_trust b f = inject_Z n /\ (45 <= n <= 90)%Z.
Proof.
  unfold _score_trust. each_flag; eexists;
    (split; [vm_compute; reflexivity | vm_compute; split; discriminate]).
Qed.

(** X1: The bonuses of the content and trust formulas cannot reach the clamp: in
    every returned assessment the content subscore is at most 80, the trust
    subscore at most 90 and the overall score at most 92.5. *)
Theorem assessment_ceilings (b : BusinessRecord) (f : FeatureVector)
  (a : MaturityAssessment) :
  score b f = Some a ->
  content (subscores a) <= 80 /\
  trust (subscores a) <= 90 /\
  overall_score a <= 925 # 10.
Proof.
  intros Hscore.
  destruct (score_inv b f a Hscore) as [Hsub Hover].
  destruct (mean4_integral b f) as (n & Hmean & _ & Hn).
  pose proof (py_round2_quarters n) as Hround.
  rewrite <- Hmean, <- Hover in Hround.
  destruct (technical_integral b f) as (t & Ht & ?).
  destruct (seo_integral f) as (s & Hs & ?).
  destruct (content_at_most_80 f) as (c & Hc & ?).
  destruct (trust_at_most_90 b f) as (r & Hr & ?).
  rewrite Ht, Hs, Hc, Hr in Hn. cbn [Qnum inject_Z] in Hn.
  rewrite Hsub. unfold _calculate_subscores. cbn [content trust].
  rewrite Hc, Hr.
  split; [|split].
  - unfold Qle, inject_Z; cbn [Qnum Qden]; lia.
  - unfold Qle, inject_Z; cbn [Qnum Qden]; lia.
  - rewrite Hround, Hmean. unfold Qle, Qdiv, Qmult, Qinv, inject_Z.
    cbn [Qnum Qden Pos.mul]. lia.
Qed.

End ScoringCeilings.

Section ScoringCeilingSamples.

Import Scoring Samples.
Open Scope Q_scope.

(** [assessment_ceilings] on the sample business, which attains all three. *)
Lemma assessment_ceilings_witness :
  exists a,
    score (llm := quiet_llm) best_business best_features = Some a /\
    content (subscores a) <= 80 /\
    trust (subscores a) <= 90 /\
    overall_score a <= 925 # 10.
Proof.
  eexists. split; [reflexivity|].
  apply (assessment_ceilings (llm := quiet_llm) best_business best_features).
  reflexivity.
Defined.

End ScoringCeilingSamples.

(** ** What the fetcher hands back *)

Section HttpExtras.

Import Http HttpSamples.
Open Scope Z_scope.

Lemma get_body_returned (o : SessionOutcome) (status_code : Z) :
  get_body o = Returned status_code -> o = Responds status_code /\ status_code < 400.
Proof.
  destruct o as [| |c]; cbn; try discriminate.
  destruct (c >=? 400) eqn:E; [discriminate|].
  intros [= <-]. split; [reflexivity | lia].
Qed.

(** X2: A response that [get] returns has a status below 400, it is the answer
    to the last attempt made, and [get] has slept at most 3 seconds in
    all. *)
Theorem get_returns_only_success (session : nat -> SessionOutcome) (status_code : Z) :
  fst (get session) = Returned status_code ->
  status_code < 400 /\
  (exists k, (1 <= k <= 3)%nat /\ session k = Responds status_code /\
             last (attempts (snd (get session))) (O, RaisesOther)
             = (k, Responds status_code)) /\
  fold_right Z.add 0 (sleeps (snd (get session))) <= 3.
Proof.
  unfold get. cbn [max_attempt_number Nat.sub retrying].
  destruct (get_body (session 1%nat)) as [c1|e1] eqn:E1.
  { cbn. intros [= ->]. apply get_body_returned in E1 as [E1 Hc].
    split; [exact Hc|]. split; [|lia].
    exists 1%nat. rewrite E1. repeat split; lia. }
  destruct (retry_if_exception_type e1); [|discriminate].
  destruct (get_body (session 2%nat)) as [c2|e2] eqn:E2.
  { cbn. intros [= ->]. apply get_body_returned in E2 as [E2 Hc].
    split; [exact Hc|]. split; [|lia].
    exists 2%nat. rewrite E2. repeat split; lia. }
  destruct (retry_if_exception_type e2); [|discriminate].
  destruct (get_body (session 3%nat)) as [c3|e3] eqn:E3.
  { cbn. intros [= ->]. apply get_body_returned in E3 as [E3 Hc].
    split; [exact Hc|]. split; [|lia].
    exists 3%nat. rewrite E3. repeat split; lia. }
  destruct (retry_if_exception_type e3); discriminate.
Qed.

(** [get_returns_only_success] on the server that recovers at the second
    attempt. *)
Lemma get_returns_only_success_witness :
  fst (get recovers) = Returned 200 /\ 200 < 400.
Proof.
  split; [reflexivity|].
  apply (get_returns_only_success recovers 200). reflexivity.
Defined.

End HttpExtras.

(** ** Rounding to a double *)

Section FloatFacts.

Import Scoring Float FloatShapes.
Open Scope Q_scope.

(** Rounding to the nearest whole number moves by at most a half. *)
Lemma round_half_even_error (x : Q) :
  Qabs (inject_Z (round_half_even x) - x) <= 1 # 2.
Proof.
  destruct x as [n d]. unfold round_half_even. cbn [Qnum Qden].
  pose proof (Z.div_mod n (Zpos d) ltac:(lia)) as Hdm.
  pose proof (Z.mod_pos_bound n (Zpos d) ltac:(lia)) as Hr.
  set (f := (n / Zpos d)%Z) in *. set (r := (n mod Zpos d)%Z) in *.
  assert (H : forall m : Z, (2 * Z.abs (m * Zpos d - n) <= Zpos d)%Z ->
              Qabs (inject_Z m - (n # d)) <= 1 # 2).
  { intros m Hm. unfold Qle, Qabs, Qminus, Qplus, Qopp, inject_Z. cbn [Qnum Qden].
    rewrite Pos.mul_1_l.
    replace (m * Zpos d + - n * 1)%Z with (m * Zpos d - n)%Z by ring. lia. }
  destruct (Z.compare_spec (2 * r) (Zpos d)) as [He|Hl|Hg].
  - destruct (Z.even f); apply H; lia.
  - apply H. lia.
  - apply H. lia.
Qed.

Lemma pow2_pos (e : Z) : 0 < 2 ^ e.
Proof. apply Qpower_0_lt. reflexivity. Qed.

Lemma pow2_inverse (e : Z) : 2 ^ (- e) * 2 ^ e == 1.
Proof.
  rewrite <- Qpower_plus by discriminate.
  replace (- e + e)%Z with 0%Z by ring. reflexivity.
Qed.

Lemma Qabs_as_div (q : Q) :
  Qabs q == inject_Z (Z.abs (Qnum q)) / inject_Z (Zpos (Qden q)).
Proof. destruct q as [n d]. unfold Qabs. cbn [Qnum Qden]. apply Qmake_Qdiv. Qed.

(** Scaled by its exponent, a rational has at least 53 bits before the
    point. *)
Lemma exponent_spec (q : Q) :
  ~ q == 0 -> 2 ^ 52 <= Qabs q * 2 ^ (- exponent q).
Proof.
  intros Hq. unfold exponent.
  set (la := Z.log2 (Z.abs (Qnum q))). set (ld := Z.log2 (Zpos (Qden q))).
  destruct (Qle_bool (2 ^ 52) (Qabs q * 2 ^ (- (la - ld - 52)))) eqn:E.
  { apply Qle_bool_iff in E. exact E. }
  clear E.
  assert (Ha : (0 < Z.abs (Qnum q))%Z).
  { destruct q as [n d]. unfold Qeq in Hq. cbn in *. lia. }
  destruct (Z.log2_spec _ Ha) as [Hla _]. fold la in Hla.
  destruct (Z.log2_spec (Zpos (Qden q)) ltac:(lia)) as [_ Hld]. fold ld in Hld.
  assert (Hla0 : (0 <= la)%Z) by apply Z.log2_nonneg.
  assert (Hld0 : (0 <= ld)%Z) by apply Z.log2_nonneg.
  rewrite Zle_Qle, Zpower_Qpower in Hla by lia.
  replace (Z.succ ld) with (ld + 1)%Z in Hld by lia.
  rewrite Zlt_Qlt, Zpower_Qpower in Hld by lia.
  change (inject_Z 2) with 2 in *.
  assert (Hd : 0 < inject_Z (Zpos (Qden q))) by reflexivity.
  replace (- (la - ld - 52 - 1))%Z with ((52 + (ld + 1)) + - la)%Z by ring.
  set (k := (ld + 1)%Z) in *.
  rewrite (Qabs_as_div q), (Qpower_plus 2 (52 + k) (- la)), (Qpower_plus 2 52 k),
    Qpower_opp by discriminate.
  pose proof (pow2_pos la) as Hpa. pose proof (pow2_pos k) as Hpd.
  pose proof (pow2_pos 52) as Hp52.
  set (A := inject_Z (Z.abs (Qnum q))) in *. set (D := inject_Z (Zpos (Qden q))) in *.
  set (PA := 2 ^ la) in *. set (PD := 2 ^ k) in *. set (P52 := 2 ^ 52) in *.
  assert (Heq : A / D * (P52 * PD * / PA) == P52 * ((A * / PA) * (PD * / D))).
  { field. split; lra. }
  rewrite Heq.
  assert (H1 : 1 <= A * / PA).
  { apply Qle_shift_div_l; [exact Hpa | lra]. }
  assert (H2 : 1 <= PD * / D).
  { apply Qle_shift_div_l; [exact Hd | lra]. }
  set (X := A * / PA) in *. set (Y := PD * / D) in *.
  assert (H3 : 1 <= X * Y) by nra.
  set (XY := X * Y) in *. nra.
Qed.

(** The double nearest to a rational is within the relative rounding error
    of it. *)
Lemma nearest_error (q : Q) :
  Qabs (nearest q - q) <= Qabs q * unit_roundoff.
Proof.
  unfold nearest, unit_roundoff. destruct (Qeq_bool q 0) eqn:E.
  { apply Qeq_bool_iff in E. rewrite E. discriminate. }
  assert (Hq : ~ q == 0).
  { intros H. apply Qeq_bool_iff in H. congruence. }
  pose proof (exponent_spec q Hq) as Hexp.
  set (e := exponent q) in *.
  pose proof (round_half_even_error (q * 2 ^ (- e))) as Hm.
  set (m := inject_Z (round_half_even (q * 2 ^ (- e)))) in *.
  pose proof (pow2_pos e) as Hp. pose proof (pow2_inverse e) as Hinv.
  assert (Heq : m * 2 ^ e - q == (m - q * 2 ^ (- e)) * 2 ^ e).
  { transitivity (m * 2 ^ e - q * (2 ^ (- e) * 2 ^ e)); [rewrite Hinv|]; ring. }
  rewrite Heq, Qabs_Qmult, (Qabs_pos (2 ^ e)) by lra.
  assert (Hq2 : 2 ^ 52 * 2 ^ e <= Qabs q).
  { assert (H : Qabs q == Qabs q * 2 ^ (- e) * 2 ^ e).
    { rewrite <- Qmult_assoc, Hinv. ring. }
    rewrite H. apply Qmult_le_compat_r; [exact Hexp | lra]. }
  change (2 ^ 52) with (4503599627370496 # 1) in Hq2.
  set (p := 2 ^ e) in *. set (a := Qabs q) in *.
  set (err := Qabs (m - q * 2 ^ (- e))) in *.
  assert (Herr : 0 <= err) by apply Qabs_nonneg.
  nra.
Qed.

Lemma sum_of_counts_nonneg (xs : list Z) :
  Forall (fun x => (0 <= x)%Z) xs ->
  fold_left Z.add xs 0%Z = Z.abs (fold_left Z.add xs 0%Z).
Proof.
  intros H. symmetry. apply Z.abs_eq.
  assert (Hacc : forall a, (0 <= a)%Z -> (0 <= fold_left Z.add xs a)%Z).
  { induction H as [|x xs Hx _ IH]; intros a Ha; cbn [fold_left]; [exact Ha|].
    apply IH. lia. }
  apply Hacc. lia.
Qed.

End FloatFacts.

(** ** The signals of a feature vector, page by page *)

Section SignalFacts.

Import Features Float FloatShapes.

Context {parser : PageParser}.

Lemma scan_fold (pages : list PageSnapshot) (acc : Scan) :
  let final := fold_left scan_snapshot pages acc in
  word_counts final
  = (word_counts acc
     ++ map (fun p => Z.of_nat (Str.count_words (extracted_text p))) pages)%list /\
  structured_data final
  = structured_data acc
    || existsb (fun p => find_ld_json_script (raw_html p)
                         || Str.contains "schema.org" (raw_html p)) pages /\
  meta_description final
  = meta_description acc || existsb (fun p => find_meta_description (raw_html p)) pages /\
  open_graph final
  = open_graph acc || existsb (fun p => find_meta_open_graph (raw_html p)) pages /\
  analytics final
  = analytics acc
    || existsb (fun p => _contains_patterns (raw_html p) _ANALYTICS_PATTERNS) pages /\
  contact_cta final
  = contact_cta acc || existsb (fun p => _contains_contact_cta (raw_html p)) pages /\
  viewport_meta final
  = viewport_meta acc || existsb (fun p => find_meta_viewport (raw_html p)) pages /\
  email_present final
  = email_present acc || existsb (fun p => search_email (extracted_text p)) pages /\
  phone_present final
  = phone_present acc || existsb (fun p => search_phone (extracted_text p)) pages.
Proof.
  revert acc. induction pages as [|page pages IH]; intros acc; cbn [fold_left].
  - cbn. rewrite app_nil_r, !orb_false_r. repeat split.
  - specialize (IH (scan_snapshot acc page)). cbn zeta in IH.
    destruct IH as (Hw & H1 & H2 & H3 & H4 & H5 & H6 & H7 & H8).
    cbn zeta. rewrite Hw, H1, H2, H3, H4, H5, H6, H7, H8.
    unfold scan_snapshot.
    cbn [word_counts structured_data meta_description open_graph analytics
         contact_cta viewport_meta email_present phone_present map existsb].
    rewrite <- app_assoc, !orb_assoc. repeat split.
Qed.

Lemma fold_add_shift (xs : list Z) (a : Z) :
  fold_left Z.add xs a = (a + fold_left Z.add xs 0)%Z.
Proof.
  revert a. induction xs as [|x xs IH]; intros a; cbn; [lia|].
  rewrite (IH (a + x)%Z), (IH x). lia.
Qed.

(** X3: A feature vector counts its pages; each of its eight signals is true
    exactly when some page shows it (so a further page never clears a
    signal); and its average word count is the mean of the word counts of
    the pages as a float has it: within the relative rounding error of a
    double, and exact when the mean is a whole number. *)
Theorem feature_vector_aggregates (b : BusinessRecord) (pages : list PageSnapshot) :
  let fv := build_feature_vector b pages in
  let total :=
    fold_left Z.add
      (map (fun p => Z.of_nat (Str.count_words (extracted_text p))) pages) 0%Z in
  let exact := (inject_Z total / inject_Z (Z.of_nat (length pages)))%Q in
  total_pages fv = Z.of_nat (length pages) /\
  has_structured_data fv
  = existsb (fun p => find_ld_json_script (raw_html p)
                      || Str.contains "schema.org" (raw_html p)) pages /\
  has_meta_description fv = existsb (fun p => find_meta_description (raw_html p)) pages /\
  has_open_graph fv = existsb (fun p => find_meta_open_graph (raw_html p)) pages /\
  has_analytics fv
  = existsb (fun p => _contains_patterns (raw_html p) _ANALYTICS_PATTERNS) pages /\
  has_contact_cta fv = existsb (fun p => _contains_contact_cta (raw_html p)) pages /\
  has_viewport_meta fv = existsb (fun p => find_meta_viewport (raw_html p)) pages /\
  has_email_address fv = existsb (fun p => search_email (extracted_text p)) pages /\
  has_phone_number fv = existsb (fun p => search_phone (extracted_text p)) pages /\
  (Qabs (avg_word_count fv - exact) <= exact * unit_roundoff)%Q /\
  ((total mod Z.of_nat (length pages) = 0)%Z -> (avg_word_count fv == exact)%Q).
Proof.
  destruct pages as [|page pages].
  { cbn. repeat split; try discriminate. }
  set (ps := page :: pages).
  destruct (scan_fold ps scan_start) as (Hw & H1 & H2 & H3 & H4 & H5 & H6 & H7 & H8).
  cbn zeta in *. cbn [scan_start word_counts structured_data meta_description
                      open_graph analytics contact_cta viewport_meta email_present
                      phone_present app orb] in *.
  unfold build_feature_vector. fold ps.
  cbn [total_pages has_structured_data has_meta_description has_open_graph
       has_analytics has_contact_cta has_viewport_meta has_email_address
       has_phone_number avg_word_count].
  rewrite H1, H2, H3, H4, H5, H6, H7, H8, Hw.
  do 9 (split; [reflexivity|]).
  subst ps. cbn [avg_word_count]. set (ps := page :: pages).
  set (counts := map (fun p => Z.of_nat (Str.count_words (extracted_text p))) ps).
  assert (Hlen : length counts = length ps) by apply length_map.
  assert (Hmean : (match counts with [] => 0 | _ :: _ => mean counts end) = mean counts).
  { unfold counts, ps. reflexivity. }
  rewrite Hmean. unfold mean. rewrite Hlen.
  set (total := fold_left Z.add counts 0%Z).
  set (n := Z.of_nat (length ps)).
  assert (Hn : (0 < n)%Z) by (unfold n, ps; cbn [length]; lia).
  assert (Htotal : (0 <= total)%Z).
  { unfold total. rewrite sum_of_counts_nonneg; [lia|].
    unfold counts. rewrite Forall_map. apply Forall_forall. intros p _. lia. }
  assert (Hexact : (0 <= inject_Z total / inject_Z n)%Q).
  { apply Qle_shift_div_l.
    - unfold Qlt, inject_Z. cbn [Qnum Qden]. lia.
    - rewrite Qmult_0_l. unfold Qle, inject_Z. cbn [Qnum Qden]. lia. }
  destruct (Z.eqb_spec (total mod n) 0) as [Hdiv|Hrest].
  - assert (Heq : (inject_Z (total / n) == inject_Z total / inject_Z n)%Q).
    { apply Z.div_exact in Hdiv; [|lia]. rewrite Hdiv at 2.
      rewrite inject_Z_mult. field.
      intros H. unfold Qeq, inject_Z in H. cbn [Qnum Qden] in H. lia. }
    split; [|intros _; exact Heq].
    rewrite Heq.
    setoid_replace (inject_Z total / inject_Z n - inject_Z total / inject_Z n)%Q
      with 0%Q by ring.
    unfold unit_roundoff. cbn [Qabs Z.abs]. nra.
  - split; [|intros Hdiv; contradiction].
    pose proof (nearest_error (inject_Z total / inject_Z n)) as Herr.
    rewrite (Qabs_pos _ Hexact) in Herr. exact Herr.
Qed.

End SignalFacts.

(** ** More on the site crawler *)

Section CrawlLoopFacts.

Import Urllib Crawler UrlShapes.

Context {lib : Library} {html_lib : Html}.
Context {World RobotParser : Type} {net : Net World RobotParser}.

Variable max_pages : Z.

(** The loop, one iteration at a time. *)
Lemma crawl_loop_unfold (root : string) (st : @Crawl World RobotParser) :
  crawl_loop max_pages root st
  = if loop_condition max_pages st then
      match crawl_body max_pages root st with
      | Some st' => crawl_loop max_pages root st'
      | None => None
      end
    else Some st.
Proof.
  apply (crawl_loop_elim max_pages
           (fun r s res =>
              res = if loop_condition max_pages s then
                      match crawl_body max_pages r s with
                      | Some s' => crawl_loop max_pages r s'
                      | None => None
                      end
                    else Some s)).
  - intros r s Hcond _. rewrite Hcond. reflexivity.
  - intros r s s' Hbody Hcond _ _ _. rewrite Hcond, Hbody. reflexivity.
  - intros r s Hbody Hcond _ _. rewrite Hcond, Hbody. reflexivity.
Qed.

(** A property that every iteration keeps holds when the loop ends. *)
Lemma crawl_loop_preserves (P : @Crawl World RobotParser -> Prop) (root : string) :
  (forall st st', loop_condition max_pages st = true -> P st ->
                  crawl_body max_pages root st = Some st' -> P st') ->
  forall st st', P st -> crawl_loop max_pages root st = Some st' -> P st'.
Proof.
  intros Hstep st st'. revert st'.
  apply (crawl_loop_elim max_pages
           (fun r s res => r = root -> forall s', P s -> res = Some s' -> P s'));
    try reflexivity.
  - intros r s _ _ _ s' HP [= <-]. exact HP.
  - intros r s s1 Hbody Hcond IH _ _ -> s' HP Hres.
    apply (IH eq_refl s'); [|exact Hres]. exact (Hstep s s1 Hcond HP Hbody).
  - intros r s _ _ _ _ _ s' _ Hres. discriminate.
Qed.

Lemma crawl_body_cases (root : string) (st st' : @Crawl World RobotParser)
  (target : string) (rest : list string) :
  to_visit st = target :: rest ->
  crawl_body max_pages root st = Some st' ->
  (seen st' = seen st /\ snapshots st' = snapshots st /\ to_visit st' = rest) \/
  (mem_str target (seen st) = false /\
   seen st' = target :: seen st /\
   exists cache w,
     _is_allowed (_robots_cache st) (world st) target = Some (true, cache, w) /\
     ((fst (http_get w target) = None /\
       snapshots st' = snapshots st /\ to_visit st' = rest) \/
      (exists html links,
         fst (http_get w target) = Some html /\
         _extract_internal_links root html = Some links /\
         snapshots st' = (snapshots st ++ [make_snapshot target html])%list /\
         to_visit st'
         = fold_left (enqueue max_pages (target :: seen st)) (iter_set links) rest))).
Proof.
  unfold crawl_body. intros ->.
  destruct (mem_str target (seen st)) eqn:Eseen.
  { intros [= <-]. left. repeat split. }
  unfold bind at 1.
  destruct (_is_allowed _ _ _) as [[[allowed cache] w]|]; [|discriminate].
  destruct allowed; cbn [negb].
  2:{ intros [= <-]. left. repeat split. }
  intros Hbody. right. split; [reflexivity|].
  destruct (http_get w target) as [[html|] w'] eqn:Eget.
  - unfold bind in Hbody.
    destruct (_extract_internal_links root html) as [links|] eqn:El; [|discriminate].
    injection Hbody as <-. split; [reflexivity|].
    exists cache, w. split; [reflexivity|]. right.
    exists html, links. rewrite Eget. repeat split. exact El.
  - injection Hbody as <-. split; [reflexivity|].
    exists cache, w. split; [reflexivity|]. left.
    rewrite Eget. repeat split.
Qed.

(** X4: No URL is fetched twice in a crawl, and no two snapshots share a URL:
    the seen set has no duplicates, the URLs of the snapshots are distinct,
    and each of them is in the seen set. *)
Theorem crawl_fetches_each_url_once (cache : RobotsCache) (w : World)
  (seed : string) (st : Crawl) :
  crawl_from max_pages cache w seed = Some st ->
  NoDup (seen st) /\
  NoDup (map url (snapshots st)) /\
  incl (map url (snapshots st)) (seen st).
Proof.
  unfold crawl_from.
  destruct (_normalize_url seed) as [root|].
  2:{ intros [= <-]. cbn. repeat split; try constructor. intros x []. }
  destruct (is_empty root).
  { intros [= <-]. cbn. repeat split; try constructor. intros x []. }
  apply (crawl_loop_preserves
           (fun s => NoDup (seen s) /\ NoDup (map url (snapshots s))
                     /\ incl (map url (snapshots s)) (seen s)) root).
  - intros s s' Hcond (Hseen & Hsnaps & Hincl) Hbody.
    unfold loop_condition in Hcond.
    destruct (to_visit s) as [|target rest] eqn:Ef; [discriminate|].
    destruct (crawl_body_cases root s s' target rest Ef Hbody)
      as [(-> & -> & _) | (Hnew & -> & cache' & w' & _ & Hfetch)].
    { repeat split; assumption. }
    assert (Hnotin : ~ In target (seen s)).
    { intros Hin. apply mem_str_In in Hin. congruence. }
    destruct Hfetch as [(_ & -> & _) | (html & links & _ & _ & -> & _)].
    + repeat split; [constructor; assumption | exact Hsnaps |].
      intros x Hx. right. apply Hincl, Hx.
    + rewrite map_app. cbn [map make_snapshot url].
      repeat split.
      * constructor; assumption.
      * apply NoDup_app; [exact Hsnaps | constructor; [intros [] | constructor] |].
        intros x Hx [<- | []]. apply Hnotin, Hincl, Hx.
      * intros x Hx. apply in_app_or in Hx as [Hx | [<- | []]];
          [right; apply Hincl, Hx | left; reflexivity].
  - cbn. repeat split; try constructor. intros x [].
Qed.

(** X5: A crawl has no snapshot, or its first snapshot is the page of the
    normalized seed: nothing else is fetched before the seed's page has
    been. *)
Theorem crawl_begins_at_seed (cache : RobotsCache) (w : World)
  (seed root : string) (st : Crawl) :
  _normalize_url seed = Some root ->
  crawl_from max_pages cache w seed = Some st ->
  snapshots st = [] \/
  exists first others, snapshots st = first :: others /\ url first = root.
Proof.
  unfold crawl_from. intros ->.
  destruct (is_empty root); [intros [= <-]; left; reflexivity|].
  intros Hloop.
  assert (H : (snapshots st = [] /\ (to_visit st = [root] \/ to_visit st = [])) \/
              exists first others, snapshots st = first :: others /\ url first = root).
  { revert Hloop.
    apply (crawl_loop_preserves
             (fun s => (snapshots s = [] /\ (to_visit s = [root] \/ to_visit s = [])) \/
                       exists first others,
                         snapshots s = first :: others /\ url first = root) root).
    - intros s s' Hcond HP Hbody.
      unfold loop_condition in Hcond.
      destruct (to_visit s) as [|target rest] eqn:Ef; [discriminate|].
      destruct (crawl_body_cases root s s' target rest Ef Hbody)
        as [(_ & -> & ->) | (_ & _ & cache' & w' & _ & Hfetch)].
      + destruct HP as [(Hnil & [[= -> ->] | [=]]) | HP]; [left | right; exact HP].
        split; [exact Hnil | right; reflexivity].
      + destruct Hfetch as [(_ & -> & ->) | (html & links & _ & _ & -> & _)].
        * destruct HP as [(Hnil & [[= -> ->] | [=]]) | HP]; [left | right; exact HP].
          split; [exact Hnil | right; reflexivity].
        * right. destruct HP as [(-> & [[= -> ->] | [=]]) | (f & o & -> & Hf)].
          -- eexists. eexists. split; reflexivity.
          -- exists f. eexists. split; [reflexivity | exact Hf].
    - left. cbn. split; [reflexivity | left; reflexivity]. }
  destruct H as [[Hnil _] | H]; [left; exact Hnil | right; exact H].
Qed.

(** X6: A crawl in which robots.txt allows nothing, or in which every fetch
    fails, returns no snapshot; it is not an error. *)
Theorem crawl_without_pages (cache : RobotsCache) (w : World)
  (seed : string) (st : Crawl) :
  (forall p u, can_fetch p u = false) \/ (forall w' u, fst (http_get w' u) = None) ->
  crawl_from max_pages cache w seed = Some st ->
  snapshots st = [].
Proof.
  intros Hnone. unfold crawl_from.
  destruct (_normalize_url seed) as [root|]; [|intros [= <-]; reflexivity].
  destruct (is_empty root); [intros [= <-]; reflexivity|].
  apply (crawl_loop_preserves (fun s => snapshots s = []) root); [|reflexivity].
  intros s s' Hcond HP Hbody.
  unfold loop_condition in Hcond.
  destruct (to_visit s) as [|target rest] eqn:Ef; [discriminate|].
  destruct (crawl_body_cases root s s' target rest Ef Hbody)
    as [(_ & -> & _) | (_ & _ & cache' & w' & Hallowed & Hfetch)]; [exact HP|].
  destruct Hfetch as [(_ & -> & _) | (html & links & Hget & _)]; [exact HP|].
  destruct Hnone as [Hrobots | Hdown].
  - unfold _is_allowed, bind in Hallowed.
    destruct (_get_robot_parser _ _ _) as [[[p c] w0]|]; [|discriminate].
    rewrite Hrobots in Hallowed. discriminate.
  - rewrite Hdown in Hget. discriminate.
Qed.

Lemma normalized_root_parses (seed root : string) :
  _normalize_url seed = Some root ->
  is_empty root = false /\ exists parts, urlsplit root = Some parts.
Proof.
  intros Hnorm.
  destruct (normalize_reparse seed root Hnorm) as (parsed & _ & Hs & _ & -> & Hre).
  split; [destruct Hs as [-> | ->]; reflexivity|].
  eexists. exact Hre.
Qed.

(** X7: A site of one page without links gives exactly one snapshot, that of the
    normalized seed, when the cap allows a page, robots.txt allows the page
    and its fetch succeeds. *)
Theorem single_page_crawl (cache cache1 : RobotsCache) (w w1 w2 : World)
  (seed root html : string) :
  (1 <= max_pages)%Z ->
  _normalize_url seed = Some root ->
  _is_allowed cache w root = Some (true, cache1, w1) ->
  http_get w1 root = (Some html, w2) ->
  anchor_hrefs html = [] ->
  crawl max_pages cache w seed = Some [make_snapshot root html].
Proof.
  intros Hmax Hnorm Hallowed Hget Hlinks.
  destruct (normalized_root_parses seed root Hnorm) as (Hne & parts & Hparts).
  unfold crawl, crawl_from. rewrite Hnorm, Hne.
  rewrite crawl_loop_unfold.
  assert (Hcond : loop_condition max_pages (mkCrawl [root] [] [] cache w) = true).
  { unfold loop_condition. cbn. apply Z.ltb_lt. lia. }
  rewrite Hcond.
  assert (Hbody : crawl_body max_pages root (mkCrawl [root] [] [] cache w)
                  = Some (mkCrawl [] [root] [make_snapshot root html] cache1 w2)).
  { unfold crawl_body. cbn [to_visit seen snapshots _robots_cache world mem_str existsb].
    rewrite Hallowed. cbn [bind negb]. rewrite Hget.
    unfold _extract_internal_links. rewrite Hparts, Hlinks. cbn [bind fold_links].
    assert (Hiter : iter_set [] = []).
    { apply Permutation_nil. symmetry. apply iter_set_perm. }
    rewrite Hiter. reflexivity. }
  rewrite Hbody, crawl_loop_unfold. reflexivity.
Qed.

End CrawlLoopFacts.

Section RobotsCacheFacts.

Import Urllib Crawler.

Context {lib : Library}.
Context {World RobotParser : Type} {net : Net World RobotParser}.

Lemma cache_lookup_store (domain d : string) (parser : RobotParser)
  (cache : @RobotsCache RobotParser) :
  cache_lookup d (cache_store domain parser cache)
  = match cache_lookup d cache with
    | Some v => Some v
    | None => if String.eqb domain d then Some parser else None
    end.
Proof.
  unfold cache_store. induction cache as [|[k v] cache IH]; cbn; [reflexivity|].
  destruct (String.eqb k d); [reflexivity | exact IH].
Qed.

(** X8: The robots policy of a domain is read once: after a lookup, the same
    URL is answered from the cache with the same parser and without
    touching the network, and no earlier entry of the cache has changed. *)
Theorem robots_parser_is_cached (cache cache' : RobotsCache) (w w' : World)
  (u : string) (parser : RobotParser) :
  _get_robot_parser cache w u = Some (parser, cache', w') ->
  (forall w2, _get_robot_parser cache' w2 u = Some (parser, cache', w2)) /\
  (forall d v, cache_lookup d cache = Some v -> cache_lookup d cache' = Some v).
Proof.
  unfold _get_robot_parser, bind.
  destruct (_domain_key u) as [domain|]; [|discriminate].
  destruct (cache_lookup domain cache) as [found|] eqn:Efound.
  - intros [= <- <- <-]. split; [|trivial].
    intros w2. rewrite Efound. reflexivity.
  - destruct (urljoin domain "/robots.txt") as [robots_url|]; [|discriminate].
    destruct (read_robots w robots_url) as [p w1].
    intros [= <- <- <-]. split.
    + intros w2. rewrite cache_lookup_store, Efound, String.eqb_refl. reflexivity.
    + intros d v Hd. rewrite cache_lookup_store, Hd. reflexivity.
Qed.

End RobotsCacheFacts.

(** ** Query and fragment in URL normalization *)

Section QueryFragmentFacts.

Import Urllib Crawler UrlShapes UrlFront.

Context {lib : Library}.

Lemma urlsplit_front (u : string) :
  urlsplit u
  = let '(sch, host, rest) := url_front u in
    if netloc_accepted host then
      let (rest', frag) := split_once is_hash rest in
      let (p, q) := split_once is_question rest' in
      Some (mkSplitResult sch host p q frag)
    else None.
Proof.
  unfold urlsplit, url_front.
  destruct (split_scheme _) as [sch u3].
  destruct (if Str.startswith u3 "//" then _ else _) as [host u4].
  reflexivity.
Qed.

Lemma lstrip_c0_app (a b : string) (c : ascii) :
  is_c0_control_or_space c = false ->
  lstrip_c0 (a ++ String c b) = lstrip_c0 a ++ String c b.
Proof.
  intros Hc. induction a as [|x a IH]; cbn; [rewrite Hc; reflexivity|].
  destruct (is_c0_control_or_space x); [exact IH | reflexivity].
Qed.

Lemma remove_unsafe_app (a b : string) :
  remove_unsafe (a ++ b) = remove_unsafe a ++ remove_unsafe b.
Proof.
  induction a as [|x a IH]; cbn; [reflexivity|].
  destruct (is_unsafe_byte x); [exact IH | cbn; rewrite IH; reflexivity].
Qed.

Lemma lstrip_c0_forall (q : ascii -> bool) (s : string) :
  forallb_str q s = true -> forallb_str q (lstrip_c0 s) = true.
Proof.
  induction s as [|c s IH]; cbn; [reflexivity|].
  intros H. destruct (is_c0_control_or_space c); [|exact H].
  apply IH. apply andb_prop in H. apply H.
Qed.

Lemma remove_unsafe_forall (q : ascii -> bool) (s : string) :
  forallb_str q s = true -> forallb_str q (remove_unsafe s) = true.
Proof.
  induction s as [|c s IH]; cbn; [reflexivity|].
  intros H. apply andb_prop in H as [Hc Hs].
  destruct (is_unsafe_byte c); [exact (IH Hs)|]. cbn. rewrite Hc, (IH Hs). reflexivity.
Qed.

(** Breaking a string that has been extended by a breaking character. *)
Lemma break_app_at (p : ascii -> bool) (a b x y : string) (c : ascii) :
  p c = true -> break p a = (x, y) -> break p (a ++ String c b) = (x, y ++ String c b).
Proof.
  intros Hc. revert x y. induction a as [|d a IH]; cbn; intros x y.
  - intros [= <- <-]. rewrite Hc. reflexivity.
  - destruct (p d); [intros [= <- <-]; reflexivity|].
    destruct (break p a) as [x' y'] eqn:E. intros [= <- <-].
    rewrite (IH x' y' eq_refl). reflexivity.
Qed.

(** The same, when the extension begins with a character that does not
    break and the string has a breaking character of its own or none. *)
Lemma break_app_past (p : ascii -> bool) (a b : string) :
  break p (a ++ b)
  = match snd (break p a) with
    | EmptyString => let (x, y) := break p b in (a ++ x, y)
    | String _ _ => (fst (break p a), snd (break p a) ++ b)
    end.
Proof.
  induction a as [|d a IH]; cbn.
  - destruct (break p b); reflexivity.
  - destruct (p d) eqn:Ed; [reflexivity|].
    rewrite IH. destruct (break p a) as [x y]. cbn.
    destruct y; [destruct (break p b); reflexivity | reflexivity].
Qed.

Lemma break_fst_nil (p : ascii -> bool) (a : string) :
  snd (break p a) = "" -> fst (break p a) = a.
Proof.
  destruct (break p a) as [x y] eqn:E. cbn. intros ->.
  apply break_spec in E as (-> & _). symmetry. apply append_empty_r.
Qed.

Lemma split_scheme_app (u s : string) (c : ascii) :
  is_colon c = false -> is_scheme_char c = false ->
  split_scheme (u ++ String c s)
  = let (sch, rest) := split_scheme u in (sch, rest ++ String c s).
Proof.
  intros Hcolon Hscheme. unfold split_scheme.
  rewrite break_app_past.
  destruct (break is_colon u) as [before after] eqn:Eu. cbn [fst snd].
  destruct after as [|colon after].
  - pose proof (break_fst_nil is_colon u) as Hu. rewrite Eu in Hu.
    specialize (Hu eq_refl). cbn in Hu. subst before.
    cbn [break]. rewrite Hcolon.
    destruct (break is_colon s) as [x y].
    assert (Hbad : forallb_str is_scheme_char (u ++ String c x) = false).
    { rewrite forallb_str_app. cbn. rewrite Hscheme. apply andb_false_r. }
    destruct u as [|c0 u]; cbn [append] in *.
    + destruct y; [reflexivity|]. rewrite Hbad, andb_false_r. reflexivity.
    + destruct y; [reflexivity|]. rewrite Hbad, andb_false_r. reflexivity.
  - destruct before as [|c0 before]; [reflexivity|].
    cbn [append].
    destruct (is_ascii_alpha c0 && forallb_str is_scheme_char (String c0 before));
      reflexivity.
Qed.

Lemma startswith_slashes_app (u s : string) (c : ascii) :
  Ascii.eqb c "/" = false ->
  Str.startswith (u ++ String c s) "//" = Str.startswith u "//" /\
  (Str.startswith u "//" = true ->
   tail (tail (u ++ String c s)) = tail (tail u) ++ String c s).
Proof.
  intros Hc. rewrite Ascii.eqb_sym in Hc.
  destruct u as [|a [|b u]]; cbn [Str.startswith append tail].
  - rewrite Hc. split; [reflexivity | discriminate].
  - rewrite Hc. cbn [andb]. rewrite andb_false_r. split; [reflexivity | discriminate].
  - split; reflexivity.
Qed.

Lemma url_front_app (u s : string) (c : ascii) :
  c = "#"%char \/ c = "?"%char ->
  url_front (u ++ String c s)
  = let '(sch, host, rest) := url_front u in
    (sch, host, rest ++ String c (remove_unsafe s)).
Proof.
  intros Hc. unfold url_front.
  rewrite lstrip_c0_app by (destruct Hc; subst; reflexivity).
  rewrite remove_unsafe_app.
  replace (remove_unsafe (String c s)) with (String c (remove_unsafe s))
    by (destruct Hc; subst; reflexivity).
  rewrite split_scheme_app by (destruct Hc; subst; reflexivity).
  destruct (split_scheme (remove_unsafe (lstrip_c0 u))) as [sch u3].
  destruct (startswith_slashes_app u3 (remove_unsafe s) c) as [Hstart Htail];
    [destruct Hc; subst; reflexivity|].
  rewrite Hstart.
  destruct (Str.startswith u3 "//"); [|reflexivity].
  rewrite (Htail eq_refl).
  destruct (break is_netloc_delim (tail (tail u3))) as [host u4] eqn:Eb.
  assert (Hd : is_netloc_delim c = true) by (destruct Hc; subst; reflexivity).
  rewrite (break_app_at is_netloc_delim _ (remove_unsafe s) _ _ c Hd Eb).
  reflexivity.
Qed.

Lemma url_front_forall (q : ascii -> bool) (u sch host rest : string) :
  url_front u = (sch, host, rest) ->
  forallb_str q u = true -> forallb_str q rest = true.
Proof.
  unfold url_front. intros H Hq.
  pose proof (remove_unsafe_forall q _ (lstrip_c0_forall q _ Hq)) as H2.
  destruct (split_scheme (remove_unsafe (lstrip_c0 u))) as [sch' u3] eqn:Ess.
  pose proof (split_scheme_forall q _ _ _ Ess H2) as H3.
  destruct (Str.startswith u3 "//").
  - destruct (break is_netloc_delim (tail (tail u3))) as [host' u4] eqn:Eb.
    injection H as _ _ <-.
    apply (break_forall q _ _ _ _ Eb). apply forallb_str_tail, forallb_str_tail, H3.
  - injection H as _ _ <-. exact H3.
Qed.

(** X9: A query, a fragment, or both, appended to a URL that has neither, do
    not change what the URL normalizes to. *)
Theorem normalize_ignores_query_and_fragment (u s : string) (c : ascii) :
  c = "#"%char \/ c = "?"%char ->
  forallb_str (fun x => negb (is_hash x)) u = true ->
  forallb_str (fun x => negb (is_question x)) u = true ->
  _normalize_url (u ++ String c s) = _normalize_url u.
Proof.
  intros Hc Hnohash Hnoq.
  unfold _normalize_url. rewrite !urlsplit_front, (url_front_app u s c Hc).
  destruct (url_front u) as [[sch host] rest] eqn:Ef.
  pose proof (url_front_forall _ _ _ _ _ Ef Hnohash) as Hrh.
  pose proof (url_front_forall _ _ _ _ _ Ef Hnoq) as Hrq.
  destruct (netloc_accepted host); [|reflexivity].
  assert (Hplain_h : break is_hash rest = (rest, "")) by (apply break_none, Hrh).
  assert (Hplain_q : break is_question rest = (rest, "")) by (apply break_none, Hrq).
  assert (Hu : (let (rest', frag) := split_once is_hash rest in
                let (p, q) := split_once is_question rest' in
                Some (mkSplitResult sch host p q frag))
               = Some (mkSplitResult sch host rest "" "")).
  { unfold split_once. rewrite Hplain_h. cbn [tail]. rewrite Hplain_q. reflexivity. }
  rewrite Hu. clear Hu.
  set (s2 := remove_unsafe s).
  assert (HU : exists q frag,
             (let (rest', frag) := split_once is_hash (rest ++ String c s2) in
              let (p, q) := split_once is_question rest' in
              Some (mkSplitResult sch host p q frag))
             = Some (mkSplitResult sch host rest q frag)).
  { destruct Hc as [-> | ->].
    - unfold split_once at 1.
      rewrite (break_app_at is_hash rest s2 rest "" "#" eq_refl Hplain_h).
      cbn [append tail]. unfold split_once. rewrite Hplain_q.
      eexists. eexists. reflexivity.
    - unfold split_once at 1. rewrite break_app_past, Hplain_h. cbn [snd].
      change (break is_hash (String "?" s2))
        with (let (a, b) := break is_hash s2 in (String "?" a, b)).
      destruct (break is_hash s2) as [x y].
      unfold split_once.
      rewrite (break_app_at is_question rest x rest "" "?" eq_refl Hplain_q).
      cbn [append tail]. eexists. eexists. reflexivity. }
  destruct HU as (q & frag & ->). reflexivity.
Qed.

End QueryFragmentFacts.

(** ** utils/text.py: cleaning and chunking *)

Section TextFacts.

Import Str Text TextShapes Urllib.

Lemma split_starts_word (s : string) :
  starts_word s = true -> exists w ws, split s = w :: ws.
Proof.
  destruct s as [|c s]; cbn; [discriminate|].
  intros Hc. apply negb_true_iff in Hc. rewrite Hc.
  destruct (starts_word s); destruct (split s); eexists; eexists; reflexivity.
Qed.

Lemma split_words (s : string) : Forall is_word (split s).
Proof.
  induction s as [|c s IH]; cbn; [constructor|].
  destruct (is_py_space c) eqn:Ec; [exact IH|].
  assert (Hone : is_word (String c "")).
  { split; [discriminate|]. cbn. rewrite Ec. reflexivity. }
  destruct (starts_word s); [|constructor; assumption].
  destruct (split s) as [|w ws]; [constructor; assumption|].
  inversion IH as [|? ? [Hne Hw] Hws]; subst.
  constructor; [|exact Hws]. split; [discriminate|]. cbn. rewrite Ec, Hw. reflexivity.
Qed.

Lemma join_empty (ws : list string) :
  Forall is_word ws -> join " " ws = "" -> ws = [].
Proof.
  destruct ws as [|w ws]; [reflexivity|].
  intros H. inversion H as [|? ? [Hne _] _]; subst.
  destruct w as [|c w]; [contradiction|].
  cbn. destruct ws; discriminate.
Qed.

Lemma join_cons (w : string) (ws : list string) :
  join " " (w :: ws) = w ++ match ws with [] => "" | _ :: _ => " " ++ join " " ws end.
Proof. destruct ws; cbn; [rewrite append_empty_r|]; reflexivity. Qed.

(** Stripping on the right after collapsing, word by word. *)
Lemma rstrip_collapse (s : string) :
  rstrip (collapse_spaces_from true s) = join " " (split s).
Proof.
  induction s as [|c s IH]; [reflexivity|].
  cbn [collapse_spaces_from split].
  destruct (is_py_space c) eqn:Ec; [exact IH|].
  pose proof (split_words s) as Hwords.
  destruct s as [|d s].
  { cbn. rewrite Ec. reflexivity. }
  cbn [starts_word].
  destruct (is_py_space d) eqn:Ed; cbn [negb].
  - (* a space follows: the word ends here *)
    assert (Hx : collapse_spaces_from false (String d s)
                 = String " " (collapse_spaces_from true (String d s))).
    { cbn. rewrite Ed. reflexivity. }
    rewrite Hx. cbn [rstrip]. rewrite IH.
    destruct (split (String d s)) as [|w ws] eqn:Es.
    + cbn. rewrite Ec. reflexivity.
    + rewrite (join_cons (String c "")).
      destruct (join " " (w :: ws)) eqn:Ej.
      * apply join_empty in Ej; [discriminate | exact Hwords].
      * reflexivity.
  - (* the word goes on *)
    assert (Hx : collapse_spaces_from false (String d s)
                 = collapse_spaces_from true (String d s)).
    { cbn. rewrite Ed. reflexivity. }
    rewrite Hx. cbn [rstrip]. rewrite IH.
    destruct (split_starts_word (String d s)) as (w & ws & Es);
      [cbn; rewrite Ed; reflexivity|].
    rewrite Es in *. rewrite !join_cons.
    set (rest := match ws with [] => "" | _ :: _ => " " ++ join " " ws end).
    cbn [append]. destruct (w ++ rest) eqn:Ej; [|reflexivity].
    inversion Hwords as [|? ? [Hne _] _]; subst.
    destruct w; [contradiction | discriminate].
Qed.

Lemma lstrip_collapse (b : bool) (s : string) :
  lstrip (collapse_spaces_from b s) = collapse_spaces_from true (lstrip s).
Proof.
  revert b. induction s as [|c s IH]; intros b; [reflexivity|].
  cbn [collapse_spaces_from lstrip].
  destruct (is_py_space c) eqn:Ec.
  - destruct b; [apply IH|]. cbn [lstrip].
    change (is_py_space " ") with true. cbv iota. apply IH.
  - cbn [lstrip collapse_spaces_from]. rewrite Ec. reflexivity.
Qed.

Lemma split_lstrip (s : string) : split (lstrip s) = split s.
Proof.
  induction s as [|c s IH]; [reflexivity|]. cbn [lstrip].
  destruct (is_py_space c) eqn:Ec; [|reflexivity].
  cbn [split]. rewrite Ec. exact IH.
Qed.

Lemma split_word_then (w r : string) :
  is_word w -> split (w ++ String " " r) = w :: split r.
Proof.
  intros [Hne Hw]. induction w as [|c w IH]; [contradiction|].
  cbn in Hw. apply andb_prop in Hw as [Hc Hw]. apply negb_true_iff in Hc.
  cbn [append split]. rewrite Hc.
  destruct w as [|d w].
  - cbn [append starts_word]. change (is_py_space " ") with true. reflexivity.
  - rewrite (IH ltac:(discriminate) Hw).
    cbn [append starts_word]. cbn in Hw. apply andb_prop in Hw as [Hd _]. rewrite Hd.
    reflexivity.
Qed.

Lemma split_one_word (w : string) : is_word w -> split w = [w].
Proof.
  intros [Hne Hw]. induction w as [|c w IH]; [contradiction|].
  cbn in Hw. apply andb_prop in Hw as [Hc Hw]. apply negb_true_iff in Hc.
  cbn [split]. rewrite Hc.
  destruct w as [|d w]; [reflexivity|].
  rewrite (IH ltac:(discriminate) Hw).
  cbn [starts_word]. cbn in Hw. apply andb_prop in Hw as [Hd _]. rewrite Hd.
  reflexivity.
Qed.

(** Splitting what was joined gives the words back. *)
Lemma split_join (ws : list string) :
  Forall is_word ws -> split (join " " ws) = ws.
Proof.
  induction 1 as [|w ws Hw Hws IH]; [reflexivity|].
  rewrite join_cons. destruct ws as [|w' ws].
  - rewrite append_empty_r. apply split_one_word, Hw.
  - change (" " ++ join " " (w' :: ws)) with (String " " (join " " (w' :: ws))).
    rewrite (split_word_then w _ Hw), IH. reflexivity.
Qed.

Lemma clean_as_join (t : string) : clean_whitespace (Some t) = join " " (split t).
Proof.
  unfold clean_whitespace, strip.
  rewrite lstrip_collapse, rstrip_collapse. rewrite split_lstrip. reflexivity.
Qed.

Lemma clean_idem (text : option string) :
  clean_whitespace (Some (clean_whitespace text)) = clean_whitespace text.
Proof.
  assert (Ht : clean_whitespace text
               = clean_whitespace (Some (match text with Some t => t | None => "" end)))
    by (destruct text; reflexivity).
  rewrite Ht, !clean_as_join, split_join; [reflexivity | apply split_words].
Qed.

(** X10: [clean_whitespace] returns the words of the text joined by single
    spaces, [" ".join(text.split())]; so it keeps the words, and cleaning a
    cleaned text changes nothing. *)
Theorem clean_whitespace_joins_words (text : option string) :
  let cleaned := clean_whitespace text in
  cleaned = join " " (split (match text with Some t => t | None => "" end)) /\
  split cleaned = split (match text with Some t => t | None => "" end) /\
  clean_whitespace (Some cleaned) = cleaned.
Proof.
  set (t := match text with Some t => t | None => "" end).
  assert (Ht : clean_whitespace text = clean_whitespace (Some t))
    by (destruct text; reflexivity).
  cbn zeta. rewrite Ht, !clean_as_join.
  pose proof (split_join (split t) (split_words t)) as Hsj.
  rewrite Hsj. repeat split.
Qed.

Lemma chunk_loop_groups (max_tokens : Z) (words chunks current : list string) :
  chunk_loop max_tokens words chunks current
  = (chunks ++ map (join " ") (group_words max_tokens words current))%list.
Proof.
  revert chunks current.
  induction words as [|word words IH]; intros chunks current; cbn.
  - destruct current; [symmetry; apply app_nil_r | reflexivity].
  - destruct (Z.of_nat (length (current ++ [word])) >=? max_tokens)%Z.
    + rewrite IH, <- app_assoc. reflexivity.
    + apply IH.
Qed.

Lemma group_words_spec (max_tokens : Z) (words current : list string) :
  (1 <= max_tokens)%Z ->
  (Z.of_nat (length current) < max_tokens)%Z ->
  let groups := group_words max_tokens words current in
  concat groups = (current ++ words)%list /\
  Forall (fun g => (1 <= Z.of_nat (length g) <= max_tokens)%Z) groups /\
  Forall (fun g => Z.of_nat (length g) = max_tokens) (removelast groups).
Proof.
  intros Hmax. revert current.
  induction words as [|word words IH]; intros current Hcur; cbn zeta; cbn [group_words].
  - destruct current as [|c current].
    + cbn. repeat split; constructor.
    + cbn [concat removelast]. rewrite !app_nil_r. repeat split; try constructor.
      * cbn [length] in *. lia.
      * constructor.
  - destruct (Z.of_nat (length (current ++ [word])) >=? max_tokens)%Z eqn:E.
    + apply Z.geb_le in E.
      assert (Hlen : Z.of_nat (length (current ++ [word])) = max_tokens).
      { rewrite length_app in *. cbn [length] in *. lia. }
      destruct (IH [] ltac:(cbn; lia)) as (Hc & Hb & Hl). cbn zeta in *.
      cbn [concat]. rewrite Hc. cbn [app]. rewrite <- app_assoc. cbn [app].
      split; [reflexivity|]. split; [constructor; [lia | exact Hb]|].
      destruct (group_words max_tokens words []) as [|g gs] eqn:Eg.
      * constructor.
      * change (removelast ((current ++ [word])%list :: g :: gs))
          with ((current ++ [word])%list :: removelast (g :: gs)).
        constructor; [exact Hlen | exact Hl].
    + assert (Hlt : (Z.of_nat (length (current ++ [word])) < max_tokens)%Z).
      { destruct (Z.geb_spec (Z.of_nat (length (current ++ [word]))) max_tokens);
          [discriminate | lia]. }
      destruct (IH (current ++ [word])%list Hlt) as (Hc & Hb & Hl). cbn zeta in *.
      rewrite Hc, <- app_assoc. repeat split; assumption.
Qed.

Lemma concat_map_split (groups : list (list string)) :
  Forall (Forall is_word) groups ->
  map split (map (join " ") groups) = groups.
Proof.
  induction 1 as [|g gs Hg Hgs IH]; [reflexivity|].
  cbn. rewrite (split_join g Hg), IH. reflexivity.
Qed.

Lemma concat_forall {A : Type} (P : A -> Prop) (groups : list (list A)) :
  Forall P (concat groups) -> Forall (Forall P) groups.
Proof.
  induction groups as [|g gs IH]; cbn; [constructor|].
  intros H. apply Forall_app in H as [Hg Hgs]. constructor; [exact Hg | exact (IH Hgs)].
Qed.

(** X11: With at least one token per chunk, [chunk_text] loses, repeats and
    reorders no word; every chunk has between one and [max_tokens] words,
    and every chunk but the last has exactly [max_tokens]. *)
Theorem chunk_text_partitions_words (text : string) (max_tokens : Z) :
  (1 <= max_tokens)%Z ->
  let chunks := chunk_text text max_tokens in
  concat (map split chunks) = split text /\
  Forall (fun c => (1 <= Z.of_nat (length (split c)) <= max_tokens)%Z) chunks /\
  Forall (fun c => Z.of_nat (length (split c)) = max_tokens) (removelast chunks).
Proof.
  intros Hmax. cbn zeta. unfold chunk_text.
  pose proof (split_words text) as Hwords.
  destruct (split text) as [|w ws] eqn:Es; [cbn; repeat split; constructor|].
  rewrite chunk_loop_groups. cbn [app].
  destruct (group_words_spec max_tokens (w :: ws) [] Hmax ltac:(cbn; lia))
    as (Hc & Hb & Hl). cbn zeta in *. cbn [app] in Hc.
  set (groups := group_words max_tokens (w :: ws) []) in *.
  assert (Hgw : Forall (Forall is_word) groups).
  { apply concat_forall. rewrite Hc. exact Hwords. }
  pose proof (concat_map_split groups Hgw) as Hms.
  split; [rewrite Hms; exact Hc|].
  assert (Hlen : forall gs, Forall (Forall is_word) gs ->
                 forall Q : nat -> Prop,
                   Forall (fun g => Q (length g)) gs ->
                   Forall (fun c => Q (length (split c))) (map (join " ") gs)).
  { intros gs Hgs Q HQ. rewrite Forall_map.
    rewrite Forall_forall in *. intros g Hg.
    rewrite (split_join g (Hgs g Hg)). apply HQ, Hg. }
  split.
  - apply (Hlen groups Hgw (fun n => (1 <= Z.of_nat n <= max_tokens)%Z) Hb).
  - replace (removelast (map (join " ") groups))
      with (map (join " ") (removelast groups)).
    + assert (Hrl : Forall (Forall is_word) (removelast groups)).
      { rewrite Forall_forall in *. intros g Hg. apply Hgw.
        clear - Hg. induction groups as [|g0 [|g1 gs] IH]; [destruct Hg | destruct Hg |].
        change (removelast (g0 :: g1 :: gs)) with (g0 :: removelast (g1 :: gs)) in Hg.
        destruct Hg as [->|Hg]; [left; reflexivity | right; exact (IH Hg)]. }
      apply (Hlen _ Hrl (fun n => Z.of_nat n = max_tokens) Hl).
    + clear. induction groups as [|g [|g' gs] IH]; [reflexivity | reflexivity |].
      change (removelast (g :: g' :: gs)) with (g :: removelast (g' :: gs)).
      cbn [map]. cbn [map] in IH. rewrite IH. reflexivity.
Qed.

(** X12: With [max_tokens] of one or less, every word is a chunk of its own. *)
Theorem chunk_text_small_limit (text : string) (max_tokens : Z) :
  (max_tokens <= 1)%Z -> chunk_text text max_tokens = split text.
Proof.
  intros Hmax. unfold chunk_text.
  assert (H : forall words chunks,
             chunk_loop max_tokens words chunks [] = (chunks ++ words)%list).
  { induction words as [|w words IH]; intros chunks; cbn.
    - symmetry. apply app_nil_r.
    - destruct (1 >=? max_tokens)%Z eqn:E.
      + rewrite IH, <- app_assoc. reflexivity.
      + destruct (Z.geb_spec 1 max_tokens); [discriminate | lia]. }
  destruct (split text) as [|w ws]; [reflexivity|]. apply (H (w :: ws) []).
Qed.

End TextFacts.

(** ** The further properties on sample inputs *)

Section CrawlExtraSamples.

Import Urllib Crawler UrlShapes CrawlSamples.

#[local] Existing Instance plain_library.
#[local] Existing Instance site_net.
#[local] Existing Instance site_html.

(** [crawl_fetches_each_url_once] on the crawl of the sample site. *)
Lemma crawl_fetches_each_url_once_witness :
  exists st,
    crawl_from 5 [] tt "http://s" = Some st /\
    NoDup (seen st) /\
    NoDup (map url (snapshots st)) /\
    incl (map url (snapshots st)) (seen st).
Proof.
  eexists. split; [vm_compute; reflexivity|].
  apply (crawl_fetches_each_url_once 5 [] tt "http://s").
  vm_compute. reflexivity.
Defined.

(** [crawl_begins_at_seed] on the crawl of the sample site. *)
Lemma crawl_begins_at_seed_witness :
  exists st,
    _normalize_url "http://s" = Some "http://s/" /\
    crawl_from 5 [] tt "http://s" = Some st /\
    (snapshots st = [] \/
     exists first others, snapshots st = first :: others /\ url first = "http://s/").
Proof.
  eexists. split; [vm_compute; reflexivity|]. split; [vm_compute; reflexivity|].
  apply (crawl_begins_at_seed 5 [] tt "http://s" "http://s/");
    vm_compute; reflexivity.
Defined.

(** [robots_parser_is_cached] on the sample site, from a cache that holds
    the parser of another domain. *)
Lemma robots_parser_is_cached_witness :
  exists cache',
    _get_robot_parser [("http://t", tt)] tt "http://s/a" = Some (tt, cache', tt) /\
    (forall w2, _get_robot_parser cache' w2 "http://s/a" = Some (tt, cache', w2)) /\
    (forall d v, cache_lookup d [("http://t", tt)] = Some v ->
                 cache_lookup d cache' = Some v).
Proof.
  eexists. split; [vm_compute; reflexivity|].
  apply (robots_parser_is_cached [("http://t", tt)] _ tt tt "http://s/a" tt).
  vm_compute. reflexivity.
Defined.

(** [normalize_ignores_query_and_fragment] on a URL with a query and a
    fragment. *)
Lemma normalize_ignores_query_and_fragment_witness :
  _normalize_url "http://s/a?x=1#top" = _normalize_url "http://s/a".
Proof.
  apply (normalize_ignores_query_and_fragment "http://s/a" "x=1#top" "?");
    [right; reflexivity | reflexivity | reflexivity].
Defined.

End CrawlExtraSamples.

Section OfflineSamples.

Import Urllib Crawler CrawlSamples NetSamples.

#[local] Existing Instance plain_library.
#[local] Existing Instance offline_net.
#[local] Existing Instance site_html.

(** [crawl_without_pages] on a network on which every fetch fails. *)
Lemma crawl_without_pages_witness :
  exists st,
    crawl_from 5 [] tt "http://s" = Some st /\ snapshots st = [].
Proof.
  eexists. split; [vm_compute; reflexivity|].
  apply (crawl_without_pages 5 [] tt "http://s").
  - right. intros w' u. reflexivity.
  - vm_compute. reflexivity.
Defined.

End OfflineSamples.

Section LeafSamples.

Import Urllib Crawler CrawlSamples NetSamples.

#[local] Existing Instance plain_library.
#[local] Existing Instance leaf_net.
#[local] Existing Instance site_html.

(** [single_page_crawl] on a site whose page has no links. *)
Lemma single_page_crawl_witness :
  crawl 5 [] tt "http://s" = Some [make_snapshot "http://s/" "leaf"].
Proof.
  apply (single_page_crawl 5 [] [("http://s", tt)] tt tt tt "http://s" "http://s/" "leaf");
    [lia | vm_compute; reflexivity | vm_compute; reflexivity | reflexivity | reflexivity].
Defined.

End LeafSamples.

(** ** generation/offers.py: the JSON object inside an LLM answer *)

Section ExtractJsonFacts.

Import Urllib Py OfferGenerator Chars.

Lemma find_range (c : ascii) (s : string) :
  (-1 <= find c s < Z.of_nat (String.length s))%Z.
Proof.
  induction s as [|d s IH]; cbn [find String.length]; [lia|].
  destruct (Ascii.eqb d c); [lia|].
  destruct (Z.eqb_spec (find c s) (-1)); lia.
Qed.

Lemma rfind_range (c : ascii) (s : string) :
  (-1 <= rfind c s < Z.of_nat (String.length s))%Z.
Proof.
  induction s as [|d s IH]; cbn [rfind String.length]; [lia|].
  destruct (Z.eqb_spec (rfind c s) (-1)); [destruct (Ascii.eqb d c)|]; lia.
Qed.

(** The first occurrence: what stands before it is free of the character. *)
Lemma find_decomp (c : ascii) (s : string) :
  find c s <> (-1)%Z ->
  exists pre post,
    s = pre ++ String c post /\
    find c s = Z.of_nat (String.length pre) /\
    forallb_str (differs c) pre = true.
Proof.
  induction s as [|d s IH]; cbn [find]; [congruence|].
  destruct (Ascii.eqb d c) eqn:Ed.
  - intros _. apply Ascii.eqb_eq in Ed as ->. exists "", s. repeat split.
  - destruct (Z.eqb_spec (find c s) (-1)) as [|Hi]; [congruence|]. intros _.
    destruct (IH Hi) as (pre & post & -> & Hlen & Hfree).
    exists (String d pre), post. cbn [append String.length forallb_str].
    unfold differs at 1. rewrite Ed, Hfree. repeat split. lia.
Qed.

(** The last occurrence: what stands after it is free of the character. *)
Lemma rfind_decomp (c : ascii) (s : string) :
  rfind c s <> (-1)%Z ->
  exists pre post,
    s = pre ++ String c post /\
    rfind c s = Z.of_nat (String.length pre) /\
    forallb_str (differs c) post = true.
Proof.
  induction s as [|d s IH]; cbn [rfind]; [congruence|].
  destruct (Z.eqb_spec (rfind c s) (-1)) as [Hnone|Hi].
  - destruct (Ascii.eqb d c) eqn:Ed; [|congruence]. intros _.
    apply Ascii.eqb_eq in Ed as ->. exists "", s. repeat split.
    clear IH. induction s as [|e s IH]; [reflexivity|].
    cbn [rfind] in Hnone. cbn [forallb_str]. unfold differs at 1.
    destruct (Z.eqb_spec (rfind c s) (-1)) as [Hs|Hs].
    + destruct (Ascii.eqb e c); [discriminate|]. exact (IH Hs).
    + pose proof (rfind_range c s). lia.
  - intros _. destruct (IH Hi) as (pre & post & -> & Hlen & Hfree).
    exists (String d pre), post. cbn [append String.length]. repeat split; [lia | exact Hfree].
Qed.

Lemma find_at_most (c : ascii) (a r : string) :
  (0 <= find c (a ++ String c r) <= Z.of_nat (String.length a))%Z.
Proof.
  induction a as [|d a IH]; cbn [append find String.length].
  - rewrite Ascii.eqb_refl. lia.
  - destruct (Ascii.eqb d c); [lia|].
    destruct (Z.eqb_spec (find c (a ++ String c r)) (-1)); lia.
Qed.

Lemma rfind_at_least (c : ascii) (a r : string) :
  (Z.of_nat (String.length a) <= rfind c (a ++ String c r))%Z.
Proof.
  induction a as [|d a IH]; cbn [append rfind String.length].
  - destruct (Z.eqb_spec (rfind c r) (-1)); [rewrite Ascii.eqb_refl; lia|].
    pose proof (rfind_range c r). lia.
  - destruct (Z.eqb_spec (rfind c (a ++ String c r)) (-1)); lia.
Qed.

Lemma rfind_last (c : ascii) (a post : string) :
  forallb_str (differs c) post = true ->
  rfind c (a ++ String c post) = Z.of_nat (String.length a).
Proof.
  intros Hfree.
  assert (Hpost : rfind c post = (-1)%Z).
  { induction post as [|e post IH]; [reflexivity|].
    cbn [forallb_str] in Hfree. apply andb_prop in Hfree as [He Hfree].
    unfold differs in He. apply negb_true_iff in He.
    cbn [rfind]. rewrite (IH Hfree), He. reflexivity. }
  induction a as [|d a IH]; cbn [append rfind String.length].
  - rewrite Hpost, Ascii.eqb_refl. reflexivity.
  - rewrite IH. destruct (Z.eqb_spec (Z.of_nat (String.length a)) (-1)); lia.
Qed.

(** Two ways of cutting one string: the shorter front is a front of the
    longer one. *)
Lemma append_cut (a b c d : string) :
  a ++ b = c ++ d ->
  (String.length a <= String.length c)%nat ->
  exists m, c = a ++ m /\ b = m ++ d.
Proof.
  revert c. induction a as [|x a IH]; intros c Heq Hlen.
  - exists c. split; [reflexivity | exact Heq].
  - destruct c as [|y c]; [cbn in Hlen; lia|].
    cbn [append] in Heq. injection Heq as -> Heq.
    destruct (IH c Heq ltac:(cbn in Hlen; lia)) as (m & -> & ->).
    exists m. split; reflexivity.
Qed.

Lemma length_append (a b : string) :
  String.length (a ++ b) = (String.length a + String.length b)%nat.
Proof. induction a as [|x a IH]; cbn; [reflexivity | rewrite IH; reflexivity]. Qed.

Lemma substring_skip (a b : string) (n : nat) :
  substring (String.length a) n (a ++ b) = substring 0 n b.
Proof. induction a as [|x a IH]; cbn [append String.length substring]; [reflexivity | exact IH]. Qed.

Lemma substring_front (a b : string) :
  substring 0 (String.length a) (a ++ b) = a.
Proof.
  induction a as [|x a IH]; cbn [append String.length substring].
  - destruct b; reflexivity.
  - rewrite IH. reflexivity.
Qed.

(** The slice between two marks of a string. *)
Lemma slice_between (a m b : string) :
  slice (a ++ m ++ b) (Z.of_nat (String.length a))
    (Z.of_nat (String.length a) + Z.of_nat (String.length m)) = m.
Proof.
  unfold slice, slice_bound. rewrite !length_append.
  destruct (Z.ltb_spec (Z.of_nat (String.length a)) 0); [lia|].
  destruct (Z.ltb_spec (Z.of_nat (String.length a) + Z.of_nat (String.length m)) 0); [lia|].
  rewrite !Z.min_l by lia.
  replace (Z.of_nat (String.length a) + Z.of_nat (String.length m)
           - Z.of_nat (String.length a))%Z with (Z.of_nat (String.length m)) by lia.
  rewrite !Nat2Z.id, substring_skip. apply substring_front.
Qed.

Lemma extract_json_shape (text r : string) :
  _extract_json text = Some r ->
  exists pre body post,
    text = pre ++ r ++ post /\
    r = String "{" (body ++ "}") /\
    forallb_str (differs "{") pre = true /\
    forallb_str (differs "}") post = true.
Proof.
  unfold _extract_json.
  destruct (Z.eqb_spec (find "{" text) (-1)) as [|Hs]; [discriminate|].
  destruct (Z.eqb_spec (rfind "}" text) (-1)) as [|He]; [discriminate|].
  destruct (Z.ltb_spec (find "{" text) (rfind "}" text)) as [Hlt|]; [|discriminate].
  cbn [negb andb]. intros [= <-].
  destruct (find_decomp "{" text Hs) as (pre & post1 & Htext & Hstart & Hpre).
  destruct (rfind_decomp "}" text He) as (pre2 & post & Htext2 & Hend & Hpost).
  rewrite Hstart, Hend in *.
  assert (Hcut : pre ++ String "{" post1 = pre2 ++ String "}" post) by congruence.
  destruct (append_cut _ _ _ _ Hcut ltac:(lia)) as (m & -> & Hm).
  rewrite length_append in Hlt.
  destruct m as [|x body]; [cbn in Hlt; lia|].
  cbn [append] in Hm. injection Hm as <- Hpost1.
  exists pre, body, post.
  assert (Hr : slice text (Z.of_nat (String.length pre))
                 (Z.of_nat (String.length (pre ++ String "{" body)) + 1)
               = String "{" (body ++ "}")).
  { rewrite Htext2.
    replace ((pre ++ String "{" body) ++ String "}" post)
      with (pre ++ String "{" (body ++ "}") ++ post).
    2:{ repeat (rewrite ?append_assoc; cbn [append]). reflexivity. }
    replace (Z.of_nat (String.length (pre ++ String "{" body)) + 1)%Z
      with (Z.of_nat (String.length pre)
            + Z.of_nat (String.length (String "{" (body ++ "}"))))%Z.
    2:{ rewrite !length_append. cbn [String.length]. rewrite length_append.
        cbn [String.length]. lia. }
    apply slice_between. }
  rewrite Hr. repeat split; try assumption.
  rewrite Htext2. repeat (rewrite ?append_assoc; cbn [append]). reflexivity.
Qed.

(** X13: What [_extract_json] returns is a piece of the text that begins with the
    first opening brace of the text and ends with its last closing brace;
    extracting from it once more returns it unchanged. *)
Theorem extract_json_is_outermost_braces (text r : string) :
  _extract_json text = Some r ->
  (exists pre body post,
     text = pre ++ r ++ post /\
     r = String "{" (body ++ "}") /\
     forallb_str (differs "{") pre = true /\
     forallb_str (differs "}") post = true) /\
  _extract_json r = Some r.
Proof.
  intros Hr. pose proof (extract_json_shape text r Hr) as Hshape.
  split; [exact Hshape|].
  destruct Hshape as (pre & body & post & _ & -> & _).
  unfold _extract_json.
  assert (Hs : find "{" (String "{" (body ++ "}")) = 0%Z) by reflexivity.
  assert (He : rfind "}" (String "{" (body ++ "}"))
               = Z.of_nat (String.length (String "{" body))).
  { apply (rfind_last "}" (String "{" body) ""). reflexivity. }
  rewrite Hs, He. cbn [String.length].
  destruct (Z.eqb_spec 0 (-1)); [lia|].
  destruct (Z.eqb_spec (Z.of_nat (S (String.length body))) (-1)); [lia|].
  destruct (Z.ltb_spec 0 (Z.of_nat (S (String.length body)))); [|lia].
  cbn [negb andb]. f_equal.
  pose proof (slice_between "" (String "{" (body ++ "}")) "") as Hsl.
  cbn [append String.length] in Hsl. rewrite append_empty_r in Hsl.
  rewrite length_append in Hsl. cbn [String.length] in Hsl.
  replace (Z.of_nat (S (String.length body)) + 1)%Z
    with (Z.of_nat 0 + Z.of_nat (S (String.length body + 1)))%Z by lia.
  exact Hsl.
Qed.

(** X14: [_extract_json] gives up only on a text without an opening brace that
    is followed, anywhere later, by a closing brace. *)
Theorem extract_json_none_without_braces (text : string) :
  _extract_json text = None ->
  forall a b c, text <> a ++ String "{" (b ++ String "}" c).
Proof.
  unfold _extract_json. intros Hnone a b c ->.
  pose proof (find_at_most "{" a (b ++ String "}" c)) as Hs.
  pose proof (rfind_at_least "}" (a ++ String "{" b) c) as He.
  replace ((a ++ String "{" b) ++ String "}" c)
    with (a ++ String "{" (b ++ String "}" c)) in He.
  2:{ rewrite append_assoc. reflexivity. }
  rewrite length_append in He. cbn [String.length] in He.
  destruct (Z.eqb_spec (find "{" (a ++ String "{" (b ++ String "}" c))) (-1)); [lia|].
  destruct (Z.eqb_spec (rfind "}" (a ++ String "{" (b ++ String "}" c))) (-1)); [lia|].
  destruct (Z.ltb_spec (find "{" (a ++ String "{" (b ++ String "}" c)))
              (rfind "}" (a ++ String "{" (b ++ String "}" c)))); [|lia].
  discriminate.
Qed.

End ExtractJsonFacts.

(** ** storage/persistence.py: chunks of a sequence *)

Section ChunkSequenceFacts.

Import Py Persistence.

Context {A : Type}.

Lemma slice_list_chunk (items : list A) (i k : Z) :
  (0 <= i < Z.of_nat (length items))%Z -> (1 <= k)%Z ->
  slice_list items i (i + k) = firstn (Z.to_nat k) (skipn (Z.to_nat i) items).
Proof.
  intros Hi Hk. unfold slice_list, slice_bound.
  destruct (Z.ltb_spec i 0); [lia|].
  destruct (Z.ltb_spec (i + k) 0); [lia|].
  rewrite (Z.min_l i) by lia.
  destruct (Z.le_gt_cases (i + k) (Z.of_nat (length items))) as [Hfit|Hover].
  - rewrite Z.min_l by lia. f_equal. lia.
  - rewrite Z.min_r by lia.
    rewrite !firstn_all2; [reflexivity | |]; rewrite length_skipn; lia.
Qed.

Lemma range_from_head (fuel : nat) (j stop step x : Z) (r : list Z) :
  (0 < step)%Z -> range_from fuel j stop step = x :: r -> (j < stop)%Z.
Proof.
  intros Hstep. destruct fuel as [|fuel]; cbn [range_from]; [discriminate|].
  destruct (Z.ltb_spec 0 step); [|lia].
  destruct (Z.ltb_spec j stop); [trivial | discriminate].
Qed.

Lemma chunks_from (items : list A) (k : Z) (fuel : nat) (i : Z) :
  (1 <= k)%Z -> (0 <= i)%Z -> (Z.of_nat (length items) - i <= Z.of_nat fuel)%Z ->
  let chunks :=
    map (fun j => slice_list items j (j + k))
      (range_from fuel i (Z.of_nat (length items)) k) in
  concat chunks = skipn (Z.to_nat i) items /\
  Forall (fun c => (1 <= Z.of_nat (length c) <= k)%Z) chunks /\
  Forall (fun c => Z.of_nat (length c) = k) (removelast chunks).
Proof.
  intros Hk. revert i. induction fuel as [|fuel IH]; intros i Hi Hfuel; cbn zeta.
  - cbn [range_from map concat removelast].
    rewrite skipn_all2 by lia. repeat split; constructor.
  - cbn [range_from]. destruct (Z.ltb_spec 0 k); [|lia].
    destruct (Z.ltb_spec i (Z.of_nat (length items))) as [Hin|Hout].
    2:{ cbn [map concat removelast]. rewrite skipn_all2 by lia. repeat split; constructor. }
    destruct (IH (i + k)%Z ltac:(lia) ltac:(lia)) as (Hc & Hb & Hl). cbn zeta in *.
    cbn [map concat]. rewrite Hc, slice_list_chunk by lia.
    set (rest := skipn (Z.to_nat i) items).
    assert (Hrest : length rest = (length items - Z.to_nat i)%nat)
      by (unfold rest; apply length_skipn).
    assert (Hskip : skipn (Z.to_nat (i + k)) items = skipn (Z.to_nat k) rest).
    { unfold rest. rewrite skipn_skipn. f_equal. lia. }
    rewrite Hskip, firstn_skipn.
    split; [reflexivity|]. split.
    + constructor; [|exact Hb]. rewrite length_firstn. lia.
    + destruct (range_from fuel (i + k) (Z.of_nat (length items)) k) as [|x r] eqn:Er.
      * constructor.
      * cbn [map] in *.
        change (removelast (?c :: ?d :: ?l)) with (c :: removelast (d :: l)).
        constructor; [|exact Hl].
        apply range_from_head in Er; [|lia]. rewrite length_firstn. lia.
Qed.

(** X15: With a chunk size of at least one, [chunk_sequence] yields the items in
    order, all of them once: the chunks concatenate to the sequence, none
    is empty or longer than the chunk size, and all but the last are full. *)
Theorem chunk_sequence_partitions (items : list A) (chunk_size : Z) :
  (1 <= chunk_size)%Z ->
  exists chunks,
    chunk_sequence items chunk_size = Some chunks /\
    concat chunks = items /\
    Forall (fun c => (1 <= Z.of_nat (length c) <= chunk_size)%Z) chunks /\
    Forall (fun c => Z.of_nat (length c) = chunk_size) (removelast chunks).
Proof.
  intros Hk. unfold chunk_sequence, range, bind.
  destruct (Z.eqb_spec chunk_size 0); [lia|].
  eexists. split; [reflexivity|].
  apply (chunks_from items chunk_size
           (Z.abs_nat (Z.of_nat (length items) - 0)) 0 Hk); lia.
Qed.

(** X16: A chunk size of zero makes [chunk_sequence] raise; a negative one makes
    it yield nothing, whatever the items. *)
Theorem chunk_sequence_without_size (items : list A) (chunk_size : Z) :
  (chunk_size <= 0)%Z ->
  chunk_sequence items chunk_size = if (chunk_size =? 0)%Z then None else Some [].
Proof.
  intros Hk. unfold chunk_sequence, range, bind.
  destruct (Z.eqb_spec chunk_size 0); [reflexivity|].
  destruct (Z.abs_nat (Z.of_nat (length items) - 0)) as [|fuel]; [reflexivity|].
  cbn [range_from].
  destruct (Z.ltb_spec 0 chunk_size); [lia|].
  destruct (Z.ltb_spec (Z.of_nat (length items)) 0); [lia|]. reflexivity.
Qed.

End ChunkSequenceFacts.

(** ** generation/offers.py: the price of an offer *)

Section PricingFacts.

Import Scoring Offers OfferGenerator.

Context {llm : SupportsLLM}.

(** The overall score of a returned assessment, between the mean of the
    bases and the mean of the ceilings. *)
Lemma overall_range (b : BusinessRecord) (f : FeatureVector) (a : MaturityAssessment) :
  score b f = Some a ->
  (425 # 10 <= overall_score a <= 925 # 10)%Q.
Proof.
  intros Hscore.
  destruct (score_inv b f a Hscore) as [_ Hover].
  destruct (mean4_integral b f) as (n & Hmean & _ & Hn).
  pose proof (py_round2_quarters n) as Hround.
  rewrite <- Hmean, <- Hover in Hround.
  destruct (technical_integral b f) as (t & Ht & ?).
  destruct (seo_integral f) as (s & Hs & ?).
  destruct (content_at_most_80 f) as (c & Hc & ?).
  destruct (trust_at_most_90 b f) as (r & Hr & ?).
  rewrite Ht, Hs, Hc, Hr in Hn. cbn [Qnum inject_Z] in Hn.
  rewrite Hround, Hmean. unfold Qle, Qdiv, Qmult, Qinv, inject_Z.
  cbn [Qnum Qden Pos.mul]. lia.
Qed.

Lemma premium_range (key : string) :
  (0 <= dict_get INDUSTRY_PREMIUMS key 0 <= 700)%Z.
Proof.
  unfold INDUSTRY_PREMIUMS. cbn [dict_get].
  repeat match goal with
         | |- context [if ?c then _ else _] => destruct c
         end; lia.
Qed.

Lemma lower_char_idem (c : ascii) : Py.lower_char (Py.lower_char c) = Py.lower_char c.
Proof. destruct c as [[] [] [] [] [] [] [] []]; reflexivity. Qed.

Lemma industry_key_lower (i : string) :
  Py.replace " " "_" (Py.lower (Py.lower i)) = Py.replace " " "_" (Py.lower i).
Proof.
  induction i as [|c i IH]; cbn [Py.lower Py.replace]; [reflexivity|].
  rewrite IH, lower_char_idem. reflexivity.
Qed.

Lemma industry_key_replace (i : string) :
  Py.replace " " "_" (Py.lower (Py.replace " " "_" i)) = Py.replace " " "_" (Py.lower i).
Proof.
  induction i as [|c i IH]; cbn [Py.lower Py.replace]; [reflexivity|].
  rewrite IH. f_equal.
  destruct c as [[] [] [] [] [] [] [] []]; reflexivity.
Qed.

(** X17: An industry adds between nothing and 700 SAR to the base price of the
    package, and the price does not depend on the letter case of the
    industry or on whether its words are joined by spaces or underscores. *)
Theorem adjusted_price_by_industry (package : ServicePackage) (industry : string) :
  (base_price package <= calculate_adjusted_price package industry
   <= base_price package + 700)%Z /\
  calculate_adjusted_price package (Py.lower industry)
  = calculate_adjusted_price package industry /\
  calculate_adjusted_price package (Py.replace " " "_" industry)
  = calculate_adjusted_price package industry.
Proof.
  unfold calculate_adjusted_price.
  rewrite industry_key_lower, industry_key_replace.
  pose proof (premium_range (Py.replace " " "_" (Py.lower industry))).
  repeat split; lia.
Qed.

(** X18: An offer made for a scored business never recommends the basic package
    and is never priced below 3500 SAR or above 8700 SAR. *)
Theorem scored_business_offer_price (b : BusinessRecord) (f : FeatureVector)
  (a : MaturityAssessment) (analysis : BusinessAnalysis) :
  score b f = Some a ->
  maturity analysis = a ->
  fst (offer_package_and_price analysis) <> BASIC /\
  (3500 <= snd (offer_package_and_price analysis) <= 8700)%Z.
Proof.
  intros Hscore Ha.
  destruct (overall_range b f a Hscore) as [Hlow _].
  unfold offer_package_and_price, calculate_adjusted_price. cbn [fst snd].
  pose proof (premium_range (Py.replace " " "_" (Py.lower (Offers.industry analysis)))).
  unfold analyze_package_fit, Offers.lt_float. rewrite Ha.
  assert (H30 : Qle_bool 30 (overall_score a) = true).
  { apply Qle_bool_iff. apply Qle_trans with (425 # 10); [discriminate | exact Hlow]. }
  rewrite H30. cbn [negb].
  destruct (negb (Qle_bool 70 (overall_score a))); cbn [base_price];
    (split; [discriminate | lia]).
Qed.

End PricingFacts.

(** ** pipeline/orchestrator.py: file names of the businesses *)

Section SlugFacts.

Import Urllib Py Orchestrator SlugShapes.

Lemma forallb_str_all (q : ascii -> bool) (s : string) :
  (forall c, q c = true) -> forallb_str q s = true.
Proof.
  intros Hq. induction s as [|c s IH]; cbn; [reflexivity|]. rewrite Hq, IH. reflexivity.
Qed.

(** What [re.sub] leaves is what it writes or what it did not match. *)
Lemma sub_runs_forall (q cls : ascii -> bool) (repl : ascii) (b : bool) (s : string) :
  q repl = true ->
  forallb_str (fun c => cls c || q c) s = true ->
  forallb_str q (sub_runs cls repl b s) = true.
Proof.
  intros Hrepl. revert b. induction s as [|c s IH]; intros b; cbn [sub_runs forallb_str];
    [reflexivity|].
  intros H. apply andb_prop in H as [Hc Hs].
  destruct (cls c).
  - destruct b; [apply IH, Hs|]. cbn [forallb_str]. rewrite Hrepl, (IH true Hs). reflexivity.
  - cbn [orb] in Hc. cbn [forallb_str]. rewrite Hc, (IH false Hs). reflexivity.
Qed.

(** Runs replaced by one dash leave no two dashes in a row, when no dash is
    outside the class. *)
Lemma sub_runs_no_double (cls : ascii -> bool) (b : bool) (s : string) :
  (forall c, cls c = false -> is_dash c = false) ->
  no_double_dash (sub_runs cls "-" b s) = true /\
  (b = true -> starts_with_dash (sub_runs cls "-" b s) = false).
Proof.
  intros Hcls. revert b. induction s as [|c s IH]; intros b; cbn [sub_runs].
  - split; reflexivity.
  - destruct (cls c) eqn:Ec.
    + destruct b; [apply IH|].
      destruct (IH true) as [Hnd Hst]. split; [|discriminate].
      cbn [no_double_dash]. rewrite (Hst eq_refl), Hnd, andb_false_r. reflexivity.
    + destruct (IH false) as [Hnd _]. pose proof (Hcls c Ec) as Hc.
      split; [|intros _; exact Hc].
      cbn [no_double_dash]. rewrite Hc, Hnd. reflexivity.
Qed.

Lemma lstrip_char_forall (q : ascii -> bool) (c : ascii) (s : string) :
  forallb_str q s = true -> forallb_str q (lstrip_char c s) = true.
Proof.
  induction s as [|d s IH]; cbn [lstrip_char]; [trivial|].
  intros H. destruct (Ascii.eqb d c); [|exact H].
  apply andb_prop in H. apply IH, H.
Qed.

Lemma rstrip_char_forall (q : ascii -> bool) (c : ascii) (s : string) :
  forallb_str q s = true -> forallb_str q (rstrip_char c s) = true.
Proof.
  induction s as [|d s IH]; cbn [rstrip_char forallb_str]; [trivial|].
  intros H. apply andb_prop in H as [Hd Hs]. specialize (IH Hs).
  destruct (rstrip_char c s) as [|e r].
  - destruct (Ascii.eqb d c); cbn [forallb_str]; [reflexivity | rewrite Hd; reflexivity].
  - cbn [forallb_str] in *. rewrite Hd, IH. reflexivity.
Qed.

Lemma lstrip_dash_no_double (s : string) :
  no_double_dash s = true -> no_double_dash (lstrip_char "-" s) = true.
Proof.
  induction s as [|d s IH]; cbn [lstrip_char]; [trivial|].
  intros H. destruct (Ascii.eqb d "-"); [|exact H].
  cbn [no_double_dash] in H. apply andb_prop in H. apply IH, H.
Qed.

Lemma lstrip_dash_start (s : string) : starts_with_dash (lstrip_char "-" s) = false.
Proof.
  induction s as [|d s IH]; cbn [lstrip_char]; [reflexivity|].
  destruct (Ascii.eqb d "-") eqn:Ed; [exact IH | exact Ed].
Qed.

(** Stripping on the right keeps the first character of what is left. *)
Lemma rstrip_char_head (c e : ascii) (s r : string) :
  rstrip_char c s = String e r -> exists t, s = String e t.
Proof.
  destruct s as [|d s]; cbn [rstrip_char]; [discriminate|].
  destruct (rstrip_char c s); [destruct (Ascii.eqb d c)|];
    intros [= <- _]; eexists; reflexivity.
Qed.

Lemma rstrip_dash_no_double (s : string) :
  no_double_dash s = true -> no_double_dash (rstrip_char "-" s) = true.
Proof.
  induction s as [|d s IH]; cbn [rstrip_char]; [trivial|].
  cbn [no_double_dash]. intros H. apply andb_prop in H as [Hd Hs]. specialize (IH Hs).
  destruct (rstrip_char "-" s) as [|e r] eqn:Er.
  - destruct (Ascii.eqb d "-"); [reflexivity|].
    cbn [no_double_dash starts_with_dash]. rewrite andb_false_r. reflexivity.
  - destruct (rstrip_char_head _ _ _ _ Er) as (t & ->).
    cbn [no_double_dash starts_with_dash] in *. rewrite Hd. exact IH.
Qed.

Lemma rstrip_dash_start (s : string) :
  starts_with_dash s = false -> starts_with_dash (rstrip_char "-" s) = false.
Proof.
  destruct s as [|d s]; cbn [rstrip_char starts_with_dash]; [trivial|].
  intros Hd. destruct (rstrip_char "-" s).
  - unfold is_dash in Hd. rewrite Hd. exact Hd.
  - exact Hd.
Qed.

Lemma rstrip_dash_end (s : string) : ends_with_dash (rstrip_char "-" s) = false.
Proof.
  induction s as [|d s IH]; cbn [rstrip_char]; [reflexivity|].
  destruct (rstrip_char "-" s) as [|e r].
  - destruct (Ascii.eqb d "-") eqn:Ed; [reflexivity | exact Ed].
  - exact IH.
Qed.

Lemma lstrip_dash_fixed (s : string) :
  starts_with_dash s = false -> lstrip_char "-" s = s.
Proof.
  destruct s as [|d s]; cbn [lstrip_char starts_with_dash]; [trivial|].
  unfold is_dash. intros ->. reflexivity.
Qed.

Lemma rstrip_dash_fixed (s : string) :
  ends_with_dash s = false -> rstrip_char "-" s = s.
Proof.
  induction s as [|d s IH]; cbn [rstrip_char ends_with_dash]; [trivial|].
  destruct s as [|e t].
  - unfold is_dash. intros ->. reflexivity.
  - intros H. rewrite (IH H). reflexivity.
Qed.

(** A string without doubled dashes whose class characters are all dashes
    is left as it is. *)
Lemma sub_runs_fixed (cls : ascii -> bool) (b : bool) (s : string) :
  forallb_str (fun c => negb (cls c) || is_dash c) s = true ->
  no_double_dash s = true ->
  (b = true -> starts_with_dash s = false) ->
  sub_runs cls "-" b s = s.
Proof.
  revert b. induction s as [|c s IH]; intros b; cbn [sub_runs]; [reflexivity|].
  cbn [forallb_str no_double_dash starts_with_dash].
  intros H Hnd Hb. apply andb_prop in H as [Hc Hs]. apply andb_prop in Hnd as [Hpair Hnd].
  destruct (cls c) eqn:Ec.
  - cbn [negb orb] in Hc. rewrite Hc in Hpair. cbn [andb] in Hpair.
    apply negb_true_iff in Hpair.
    destruct b; [specialize (Hb eq_refl); congruence|].
    unfold is_dash in Hc. apply Ascii.eqb_eq in Hc as ->.
    rewrite (IH true Hs Hnd (fun _ => Hpair)). reflexivity.
  - rewrite (IH false Hs Hnd ltac:(discriminate)). reflexivity.
Qed.

Lemma slug_char_not_space (c : ascii) :
  slug_or_dash c = true -> Str.is_py_space c = false.
Proof. destruct c as [[] [] [] [] [] [] [] []]; cbn; intros H; (reflexivity || discriminate). Qed.

Lemma slug_char_lower (c : ascii) :
  slug_or_dash c = true -> lower_char c = c.
Proof. destruct c as [[] [] [] [] [] [] [] []]; cbn; intros H; (reflexivity || discriminate). Qed.

Lemma slug_lstrip (s : string) :
  forallb_str slug_or_dash s = true -> Str.lstrip s = s.
Proof.
  destruct s as [|c s]; cbn [Str.lstrip forallb_str]; [trivial|].
  intros H. apply andb_prop in H as [Hc _]. rewrite (slug_char_not_space c Hc). reflexivity.
Qed.

Lemma slug_rstrip (s : string) :
  forallb_str slug_or_dash s = true -> Str.rstrip s = s.
Proof.
  induction s as [|c s IH]; cbn [Str.rstrip forallb_str]; [trivial|].
  intros H. apply andb_prop in H as [Hc Hs].
  rewrite (IH Hs), (slug_char_not_space c Hc). destruct s; reflexivity.
Qed.

Lemma slug_lower (s : string) :
  forallb_str slug_or_dash s = true -> lower s = s.
Proof.
  induction s as [|c s IH]; cbn [lower forallb_str]; [trivial|].
  intros H. apply andb_prop in H as [Hc Hs].
  rewrite (IH Hs), (slug_char_lower c Hc). reflexivity.
Qed.

Lemma slugify_makes_slug (value : string) : is_slug (_slugify value) = true.
Proof.
  unfold _slugify.
  set (v1 := lower (Str.strip value)).
  set (v2 := sub_runs (fun c => negb (is_slug_char c)) "-" false v1).
  set (v3 := sub_runs is_dash "-" false v2).
  set (v4 := strip_char "-" v3).
  assert (H2 : forallb_str slug_or_dash v2 = true).
  { apply sub_runs_forall; [reflexivity|]. apply forallb_str_all.
    intros c. unfold slug_or_dash. destruct (is_slug_char c); reflexivity. }
  assert (H3 : forallb_str slug_or_dash v3 = true).
  { apply sub_runs_forall; [reflexivity|].
    apply (forallb_str_impl slug_or_dash); [|exact H2].
    intros c ->. apply orb_true_r. }
  assert (N3 : no_double_dash v3 = true).
  { apply sub_runs_no_double. intros c Hc. exact Hc. }
  assert (H4 : forallb_str slug_or_dash v4 = true).
  { apply rstrip_char_forall, lstrip_char_forall, H3. }
  assert (N4 : no_double_dash v4 = true).
  { apply rstrip_dash_no_double, lstrip_dash_no_double, N3. }
  assert (S4 : starts_with_dash v4 = false).
  { apply rstrip_dash_start, lstrip_dash_start. }
  assert (E4 : ends_with_dash v4 = false) by apply rstrip_dash_end.
  destruct (is_empty v4) eqn:Eempty; [reflexivity|].
  unfold is_slug. rewrite Eempty, H4, N4, S4, E4. reflexivity.
Qed.

Lemma slugify_keeps_slug (r : string) : is_slug r = true -> _slugify r = r.
Proof.
  unfold is_slug. intros H.
  apply andb_prop in H as [H Hend]. apply andb_prop in H as [H Hstart].
  apply andb_prop in H as [H Hnd]. apply andb_prop in H as [Hne Hchars].
  apply negb_true_iff in Hend, Hstart, Hne.
  unfold _slugify, Str.strip.
  rewrite (slug_lstrip r Hchars), (slug_rstrip r Hchars), (slug_lower r Hchars).
  rewrite (sub_runs_fixed (fun c => negb (is_slug_char c)) false r);
    [| | exact Hnd | discriminate].
  2:{ apply (forallb_str_impl slug_or_dash); [|exact Hchars].
      intros c. unfold slug_or_dash. rewrite negb_involutive. trivial. }
  rewrite (sub_runs_fixed is_dash false r); [| | exact Hnd | discriminate].
  2:{ apply forallb_str_all. intros c. destruct (is_dash c); reflexivity. }
  unfold strip_char. rewrite (lstrip_dash_fixed r Hstart), (rstrip_dash_fixed r Hend), Hne.
  reflexivity.
Qed.

(** X19: Every file name stem that [_slugify] makes is a slug: not empty, of
    small ASCII letters, digits and dashes only, with no dash at either end
    and no two dashes in a row; and slugifying twice is slugifying once. *)
Theorem slugify_gives_slug (value : string) :
  is_slug (_slugify value) = true /\
  _slugify (_slugify value) = _slugify value.
Proof.
  split; [apply slugify_makes_slug|]. apply slugify_keeps_slug, slugify_makes_slug.
Qed.

(** X20: A name that is a slug already is its own file name stem. *)
Theorem slugify_fixes_slugs (r : string) : is_slug r = true -> _slugify r = r.
Proof. apply slugify_keeps_slug. Qed.

End SlugFacts.

(** ** pipeline/orchestrator.py: analysis of the businesses and summary *)

Section PipelineFacts.

Import Urllib Crawler Orchestrator PipelineShapes.

Context {lib : Library} {html_lib : Html}.
Context {World RobotParser : Type} {net : Net World RobotParser}.
Context {parser : Features.PageParser} {llm : Scoring.SupportsLLM}.
Context {casing : Casing}.

Lemma pages_of_nothing_to_crawl (include_web_analysis : bool) (b : BusinessRecord)
  (cw : @CrawlerState World RobotParser) :
  include_web_analysis = false \/ website_to_crawl b = None ->
  pages_of include_web_analysis b cw = Some ([], cw).
Proof.
  unfold pages_of. intros [-> | ->]; [reflexivity|].
  destruct include_web_analysis; reflexivity.
Qed.

Lemma analyze_loop_spec (include_web_analysis : bool) (bs : list BusinessRecord) :
  forall (acc res : list AnalyzedBusiness) (cw cw' : @CrawlerState World RobotParser),
  analyze_loop include_web_analysis bs acc cw = Some (res, cw') ->
  exists new,
    res = (acc ++ new)%list /\
    Subseq (map business new) bs /\
    Forall (analysis_as_built include_web_analysis) new /\
    ((forall prompt, Scoring.generate prompt <> None) -> map business new = bs).
Proof.
  induction bs as [|b bs IH]; intros acc res cw cw'; cbn [analyze_loop].
  - intros [= <- <-]. exists []. rewrite app_nil_r.
    repeat split; constructor.
  - unfold bind.
    destruct (pages_of include_web_analysis b cw) as [[pgs cw1]|] eqn:Ep; [|discriminate].
    destruct (Scoring.score b (Features.build_feature_vector b pgs)) as [m|] eqn:Es.
    + intros Hloop. destruct (IH _ _ _ _ Hloop) as (new & -> & Hsub & Hall & Htotal).
      exists (mkAnalyzedBusiness b (Features.build_feature_vector b pgs) pgs m
                (_infer_industry b) None None :: new).
      rewrite <- app_assoc. cbn [app map business].
      split; [reflexivity|]. split; [constructor; exact Hsub|]. split.
      * constructor; [|exact Hall].
        unfold analysis_as_built. cbn [feature_vector business pages maturity industry
                                       offer outreach].
        repeat split; try assumption.
        intros Hnone. rewrite (pages_of_nothing_to_crawl _ b cw Hnone) in Ep.
        congruence.
      * intros Hgen. rewrite (Htotal Hgen). reflexivity.
    + intros Hloop. destruct (IH _ _ _ _ Hloop) as (new & -> & Hsub & Hall & Htotal).
      exists new. split; [reflexivity|]. split; [constructor; exact Hsub|].
      split; [exact Hall|].
      intros Hgen.
      destruct (score_returns b (Features.build_feature_vector b pgs) Hgen) as (a & Ha).
      congruence.
Qed.

(** X21: The analyses that [_analyze_businesses] returns are of input
    businesses, in their order and each at most once; each holds the feature
    vector of its own pages and the assessment that the scorer returned for
    it, and no offer yet. A business is left out only when its scoring
    raised: if the LLM never fails, every business is analysed. *)
Theorem analyses_follow_businesses (include_web_analysis : bool)
  (businesses : list BusinessRecord) (analyses : list AnalyzedBusiness)
  (cw cw' : @CrawlerState World RobotParser) :
  _analyze_businesses include_web_analysis businesses cw = Some (analyses, cw') ->
  Subseq (map business analyses) businesses /\
  Forall (analysis_as_built include_web_analysis) analyses /\
  ((forall prompt, Scoring.generate prompt <> None) ->
   map business analyses = businesses).
Proof.
  unfold _analyze_businesses. intros Hloop.
  destruct (analyze_loop_spec _ _ _ _ _ _ Hloop) as (new & -> & H).
  exact H.
Qed.

Lemma analyze_loop_offline (include_web_analysis : bool) (bs : list BusinessRecord) :
  include_web_analysis = false \/ Forall (fun b => website_to_crawl b = None) bs ->
  forall (acc : list AnalyzedBusiness) (cw : @CrawlerState World RobotParser),
  exists new,
    analyze_loop include_web_analysis bs acc cw = Some ((acc ++ new)%list, cw) /\
    Forall (fun a => pages a = [] /\
                     feature_vector a = Features.build_feature_vector (business a) [])
      new.
Proof.
  induction bs as [|b bs IH]; intros Hoff acc cw; cbn [analyze_loop].
  - exists []. rewrite app_nil_r. split; [reflexivity | constructor].
  - assert (Hb : include_web_analysis = false \/ website_to_crawl b = None).
    { destruct Hoff as [-> | Hall]; [left; reflexivity | right].
      inversion Hall; assumption. }
    assert (Hrest : include_web_analysis = false
                    \/ Forall (fun b => website_to_crawl b = None) bs).
    { destruct Hoff as [-> | Hall]; [left; reflexivity | right].
      inversion Hall; assumption. }
    rewrite (pages_of_nothing_to_crawl _ b cw Hb). cbn [bind].
    destruct (Scoring.score b (Features.build_feature_vector b [])) as [m|].
    + destruct (IH Hrest
                  (acc ++ [mkAnalyzedBusiness b (Features.build_feature_vector b []) [] m
                             (_infer_industry b) None None])%list cw)
        as (new & -> & Hall).
      eexists (_ :: new). rewrite <- app_assoc. cbn [app].
      split; [reflexivity|]. constructor; [|exact Hall]. split; reflexivity.
    + destruct (IH Hrest acc cw) as (new & -> & Hall).
      exists new. split; [reflexivity | exact Hall].
Qed.

(** X22: When web analysis is switched off, or no business has a web site, the
    analysis cannot fail and touches neither the crawler nor the network;
    every analysis has no pages and the feature vector of no pages. *)
Theorem analysis_without_crawling (include_web_analysis : bool)
  (businesses : list BusinessRecord) (cw : @CrawlerState World RobotParser) :
  include_web_analysis = false
  \/ Forall (fun b => website_to_crawl b = None) businesses ->
  exists analyses,
    _analyze_businesses include_web_analysis businesses cw = Some (analyses, cw) /\
    Forall (fun a => pages a = [] /\
                     feature_vector a = Features.build_feature_vector (business a) [])
      analyses.
Proof.
  intros Hoff. unfold _analyze_businesses.
  destruct (analyze_loop_offline _ _ Hoff [] cw) as (new & Hloop & Hall).
  exists new. split; [exact Hloop | exact Hall].
Qed.

End PipelineFacts.

Section SummaryFacts.

Import Orchestrator PipelineShapes.

Lemma count_scores_cons (keep : Q -> bool) (score : Q) (scores : list Q) :
  count_scores keep (score :: scores)
  = ((if keep score then 1 else 0) + count_scores keep scores)%Z.
Proof.
  unfold count_scores. cbn [filter]. destruct (keep score); cbn [length]; lia.
Qed.

(** A score is in exactly one of: the three buckets, the gap. *)
Lemma bucket_of_score (score : Q) :
  ((if le_float score 30 then 1 else 0)
   + (if le_float 31 score && le_float score 70 then 1 else 0)
   + (if gt_float score 70 then 1 else 0)
   + (if in_gap score then 1 else 0) = 1)%Z.
Proof.
  unfold in_gap, le_float, lt_float, gt_float, Qle_bool.
  destruct score as [n d]. cbn [Qnum Qden].
  pose proof (Pos2Z.is_pos d).
  destruct (Z.leb_spec (n * 1) (30 * Z.pos d));
    destruct (Z.leb_spec (31 * Z.pos d) (n * 1));
    destruct (Z.leb_spec (n * 1) (70 * Z.pos d)); cbn [negb andb]; lia.
Qed.

Lemma buckets_of_scores (scores : list Q) :
  (count_scores (fun score => le_float score 30) scores
   + count_scores (fun score => le_float 31 score && le_float score 70) scores
   + count_scores (fun score => gt_float score 70) scores
   + count_scores in_gap scores = Z.of_nat (length scores))%Z.
Proof.
  induction scores as [|score scores IH]; [reflexivity|].
  rewrite !count_scores_cons. pose proof (bucket_of_score score).
  cbn [length]. lia.
Qed.

Lemma counter_incr_total (key : string) (c : Features.Counter) :
  total_count (Features.counter_incr key c) = (total_count c + 1)%Z.
Proof.
  unfold total_count. induction c as [|[k n] c IH]; cbn; [reflexivity|].
  destruct (String.eqb k key); cbn; lia.
Qed.

Lemma total_count_perm (c d : list (string * Z)) :
  Permutation c d -> total_count c = total_count d.
Proof.
  unfold total_count. induction 1; cbn; lia.
Qed.

Lemma industry_counter_total (analyses : list AnalyzedBusiness) (c : Features.Counter) :
  total_count
    (fold_left (fun counter analysis => Features.counter_incr (industry analysis) counter)
       analyses c)
  = (total_count c + Z.of_nat (length analyses))%Z.
Proof.
  revert c. induction analyses as [|a analyses IH]; intros c; cbn [fold_left length].
  - lia.
  - rewrite IH, counter_incr_total. lia.
Qed.

(** X23: In every summary the industry counts add up to the number of
    businesses; in a summary of at least one analysis the three buckets of
    the maturity distribution leave out exactly the scores strictly between
    30 and 31. *)
Theorem summary_counts (now : string) (analyses : list AnalyzedBusiness)
  (offers : Z) :
  let summary := _create_summary now analyses offers in
  let scores := map (fun a => Scoring.overall_score (maturity a)) analyses in
  total_businesses summary = Z.of_nat (length analyses) /\
  total_count (industries summary) = total_businesses summary /\
  (analyses = [] -> maturity_distribution summary = []) /\
  (analyses <> [] ->
   exists low medium high,
     maturity_distribution summary
     = [("low (0-30)", low); ("medium (31-70)", medium); ("high (71-100)", high)] /\
     (low + medium + high = total_businesses summary - count_scores in_gap scores)%Z).
Proof.
  cbn zeta. destruct analyses as [|a analyses].
  - cbn. repeat split. intros H. contradiction.
  - unfold _create_summary.
    cbn [total_businesses industries maturity_distribution].
    split; [reflexivity|]. split; [|split; [discriminate|]].
    + rewrite (total_count_perm _ _ (most_common_perm _)).
      rewrite industry_counter_total. reflexivity.
    + intros _. eexists. eexists. eexists. split; [reflexivity|].
      pose proof (buckets_of_scores
                    (map (fun a0 => Scoring.overall_score (maturity a0)) (a :: analyses)))
        as Hb.
      rewrite length_map in Hb. lia.
Qed.

Lemma py_min_list_in (first : Q) (others : list Q) :
  In (py_min_list first others) (first :: others).
Proof.
  unfold py_min_list. revert first.
  induction others as [|x others IH]; intros first; cbn [fold_left]; [left; reflexivity|].
  destruct (lt_float x first).
  - destruct (IH x) as [H | H]; [right; left; exact H | right; right; exact H].
  - destruct (IH first) as [H | H]; [left; exact H | right; right; exact H].
Qed.

Lemma py_max_list_in (first : Q) (others : list Q) :
  In (py_max_list first others) (first :: others).
Proof.
  unfold py_max_list. revert first.
  induction others as [|x others IH]; intros first; cbn [fold_left]; [left; reflexivity|].
  destruct (gt_float x first).
  - destruct (IH x) as [H | H]; [right; left; exact H | right; right; exact H].
  - destruct (IH first) as [H | H]; [left; exact H | right; right; exact H].
Qed.

Lemma count_scores_none (keep : Q -> bool) (scores : list Q) :
  Forall (fun score => keep score = false) scores -> count_scores keep scores = 0%Z.
Proof.
  induction 1 as [|score scores Hs _ IH]; [reflexivity|].
  rewrite count_scores_cons, Hs, IH. reflexivity.
Qed.

Context {lib : Urllib.Library} {html_lib : Crawler.Html}.
Context {World RobotParser : Type} {net : Crawler.Net World RobotParser}.
Context {parser : Features.PageParser} {llm : Scoring.SupportsLLM}.
Context {casing : Casing}.

(** X24: The summary of what [_analyze_businesses] returned: the low bucket is
    empty, the medium and the high bucket hold every business between
    them, and the smallest and the largest score lie between 42.5 and
    92.5. *)
Theorem pipeline_summary_has_no_low_scores (include_web_analysis : bool)
  (businesses : list BusinessRecord) (analyses : list AnalyzedBusiness)
  (cw cw' : @CrawlerState World RobotParser) (now : string) (offers : Z) :
  _analyze_businesses include_web_analysis businesses cw = Some (analyses, cw') ->
  analyses <> [] ->
  let summary := _create_summary now analyses offers in
  (exists medium high,
     maturity_distribution summary
     = [("low (0-30)", 0%Z); ("medium (31-70)", medium); ("high (71-100)", high)] /\
     (medium + high = total_businesses summary)%Z) /\
  (exists lowest highest,
     min_maturity_score summary = Some lowest /\
     max_maturity_score summary = Some highest /\
     (425 # 10 <= lowest)%Q /\ (highest <= 925 # 10)%Q).
Proof.
  unfold _analyze_businesses. intros Hloop Hne.
  destruct (analyze_loop_spec _ _ _ _ _ _ Hloop) as (new & Hnew & _ & Hall & _).
  cbn [app] in Hnew. subst new.
  set (score_of := fun a : AnalyzedBusiness => Scoring.overall_score (maturity a)).
  assert (Hrange : Forall (fun s => (425 # 10 <= s <= 925 # 10)%Q) (map score_of analyses)).
  { rewrite Forall_map. rewrite Forall_forall in *. intros a Ha.
    destruct (Hall a Ha) as (_ & Hscore & _).
    exact (overall_range _ _ _ Hscore). }
  destruct analyses as [|a analyses]; [contradiction|].
  cbn zeta. unfold _create_summary.
  cbn [total_businesses maturity_distribution min_maturity_score max_maturity_score].
  fold score_of.
  pose proof (buckets_of_scores (map score_of (a :: analyses))) as Hb.
  assert (Hlow : count_scores (fun score => le_float score 30) (map score_of (a :: analyses))
                 = 0%Z).
  { apply count_scores_none. revert Hrange. apply Forall_impl.
    intros s [Hs _]. unfold le_float.
    destruct (Qle_bool s 30) eqn:E; [|reflexivity].
    apply Qle_bool_iff in E. pose proof (Qle_trans _ _ _ Hs E) as Habs.
    exfalso. revert Habs. unfold Qle. cbn. lia. }
  assert (Hgap : count_scores in_gap (map score_of (a :: analyses)) = 0%Z).
  { apply count_scores_none. revert Hrange. apply Forall_impl.
    intros s [Hs _]. unfold in_gap, lt_float.
    destruct (Qle_bool 31 s) eqn:E; [cbn; apply andb_false_r|].
    exfalso. assert (H31 : (31 <= s)%Q).
    { apply Qle_trans with (425 # 10); [unfold Qle; cbn; lia | exact Hs]. }
    apply Qle_bool_iff in H31. congruence. }
  rewrite Hlow in *. rewrite Hgap in Hb. rewrite length_map in Hb.
  split.
  - eexists. eexists. split; [reflexivity|]. lia.
  - eexists. eexists. split; [reflexivity|]. split; [reflexivity|].
    rewrite Forall_forall in Hrange.
    split.
    + apply (Hrange _ (py_min_list_in (score_of a) (map score_of analyses))).
    + apply (Hrange _ (py_max_list_in (score_of a) (map score_of analyses))).
Qed.

End SummaryFacts.

Section TextSamples.

Import Text.

(** [chunk_text_partitions_words] on seven words in chunks of three. *)
Lemma chunk_text_partitions_words_witness :
  concat (map split (chunk_text "a b c d e f g" 3)) = split "a b c d e f g" /\
  Forall (fun c => (1 <= Z.of_nat (length (split c)) <= 3)%Z)
    (chunk_text "a b c d e f g" 3) /\
  Forall (fun c => Z.of_nat (length (split c)) = 3%Z)
    (removelast (chunk_text "a b c d e f g" 3)).
Proof. apply (chunk_text_partitions_words "a b c d e f g" 3). lia. Defined.

(** [chunk_text_small_limit] with a limit of zero. *)
Lemma chunk_text_small_limit_witness :
  chunk_text "a  b c " 0 = split "a  b c ".
Proof. apply (chunk_text_small_limit "a  b c " 0). lia. Defined.

End TextSamples.

Section OfferSamples.

Import Urllib Scoring Offers OfferGenerator Samples Chars.

(** [extract_json_is_outermost_braces] on an answer with text around a
    nested object and a stray closing brace. *)
Lemma extract_json_is_outermost_braces_witness :
  _extract_json "Sure: {x: {1}} ok} bye" = Some "{x: {1}} ok}" /\
  (exists pre body post,
     "Sure: {x: {1}} ok} bye" = pre ++ "{x: {1}} ok}" ++ post /\
     "{x: {1}} ok}" = String "{" (body ++ "}") /\
     forallb_str (differs "{") pre = true /\
     forallb_str (differs "}") post = true) /\
  _extract_json "{x: {1}} ok}" = Some "{x: {1}} ok}".
Proof.
  split; [reflexivity|].
  apply (extract_json_is_outermost_braces "Sure: {x: {1}} ok} bye" "{x: {1}} ok}").
  reflexivity.
Defined.

(** [extract_json_none_without_braces] on braces in the wrong order. *)
Lemma extract_json_none_without_braces_witness :
  _extract_json "} {" = None /\
  forall a b c, "} {" <> a ++ String "{" (b ++ String "}" c).
Proof.
  split; [reflexivity|].
  apply (extract_json_none_without_braces "} {"). reflexivity.
Defined.

(** [scored_business_offer_price] on the sample business. *)
Lemma scored_business_offer_price_witness :
  exists a,
    score (llm := quiet_llm) best_business best_features = Some a /\
    fst (offer_package_and_price
           (mkBusinessAnalysis best_business best_features a
              "healthcare" ["Home"] "ar-SA")) <> BASIC /\
    (3500 <= snd (offer_package_and_price
                    (mkBusinessAnalysis best_business best_features a
                       "healthcare" ["Home"] "ar-SA")) <= 8700)%Z.
Proof.
  eexists. split; [reflexivity|].
  eapply (scored_business_offer_price (llm := quiet_llm) best_business best_features);
    reflexivity.
Defined.

End OfferSamples.

Section ChunkSequenceSamples.

Import Persistence.

(** [chunk_sequence_partitions] on seven items in chunks of three. *)
Lemma chunk_sequence_partitions_witness :
  exists chunks,
    chunk_sequence [1; 2; 3; 4; 5; 6; 7]%Z 3 = Some chunks /\
    concat chunks = [1; 2; 3; 4; 5; 6; 7]%Z /\
    Forall (fun c => (1 <= Z.of_nat (length c) <= 3)%Z) chunks /\
    Forall (fun c => Z.of_nat (length c) = 3%Z) (removelast chunks).
Proof. apply (chunk_sequence_partitions [1; 2; 3; 4; 5; 6; 7]%Z 3). lia. Defined.

(** [chunk_sequence_without_size] with a negative chunk size. *)
Lemma chunk_sequence_without_size_witness :
  chunk_sequence [1; 2; 3]%Z (-2) = Some [].
Proof. apply (chunk_sequence_without_size [1; 2; 3]%Z (-2)). lia. Defined.

End ChunkSequenceSamples.

Section SlugSamples.

Import Orchestrator SlugShapes.

(** [slugify_fixes_slugs] on a slug. *)
Lemma slugify_fixes_slugs_witness : _slugify "caf-restaurant" = "caf-restaurant".
Proof. apply (slugify_fixes_slugs "caf-restaurant"). reflexivity. Defined.

End SlugSamples.

Section PipelineSampleFacts.

Import Urllib Crawler Orchestrator PipelineShapes.
Import Samples FeatureSamples CrawlSamples PipelineSamples.

#[local] Existing Instance plain_library.
#[local] Existing Instance site_net.
#[local] Existing Instance site_html.
#[local] Existing Instance blind_parser.
#[local] Existing Instance quiet_llm.
#[local] Existing Instance plain_casing.

(** [analyses_follow_businesses] on two businesses, one with a web site. *)
Lemma analyses_follow_businesses_witness :
  exists analyses cw',
    _analyze_businesses true [best_business; corner_shop] ([], tt)
    = Some (analyses, cw') /\
    Subseq (map business analyses) [best_business; corner_shop] /\
    Forall (analysis_as_built true) analyses /\
    ((forall prompt, Scoring.generate prompt <> None) ->
     map business analyses = [best_business; corner_shop]).
Proof.
  eexists. eexists. split; [vm_compute; reflexivity|].
  eapply (analyses_follow_businesses true [best_business; corner_shop] _ ([], tt)).
  vm_compute. reflexivity.
Defined.

(** [analysis_without_crawling] with web analysis switched off. *)
Lemma analysis_without_crawling_witness :
  exists analyses,
    _analyze_businesses false [best_business; corner_shop] ([], tt)
    = Some (analyses, ([], tt)) /\
    Forall (fun a => pages a = [] /\
                     feature_vector a = Features.build_feature_vector (business a) [])
      analyses.
Proof.
  apply (analysis_without_crawling false [best_business; corner_shop] ([], tt)).
  left. reflexivity.
Defined.

(** [pipeline_summary_has_no_low_scores] on the two sample businesses. *)
Lemma pipeline_summary_has_no_low_scores_witness :
  exists analyses cw',
    _analyze_businesses true [best_business; corner_shop] ([], tt)
    = Some (analyses, cw') /\
    (exists medium high,
       maturity_distribution (_create_summary "2024-05-01T10:00:00" analyses 0)
       = [("low (0-30)", 0%Z); ("medium (31-70)", medium); ("high (71-100)", high)] /\
       (medium + high
        = total_businesses (_create_summary "2024-05-01T10:00:00" analyses 0))%Z) /\
    (exists lowest highest,
       min_maturity_score (_create_summary "2024-05-01T10:00:00" analyses 0)
       = Some lowest /\
       max_maturity_score (_create_summary "2024-05-01T10:00:00" analyses 0)
       = Some highest /\
       (425 # 10 <= lowest)%Q /\ (highest <= 925 # 10)%Q).
Proof.
  eexists. eexists. split; [vm_compute; reflexivity|].
  eapply (pipeline_summary_has_no_low_scores true [best_business; corner_shop] _
           ([], tt) _ "2024-05-01T10:00:00" 0);
    [vm_compute; reflexivity | discriminate].
Defined.

End PipelineSampleFacts.

(** ** The scorer rewards every signal *)

Section ScoreMonotone.

Import Scoring ScoreOrder.
Open Scope Q_scope.

Context {llm : SupportsLLM}.

Lemma ge_float_implies (x y k : Q) : x <= y -> implies (ge_float x k) (ge_float y k).
Proof.
  unfold implies, ge_float. intros Hxy Hk. apply Qle_bool_iff in Hk.
  apply Qle_bool_iff. exact (Qle_trans _ _ _ Hk Hxy).
Qed.

(** Case analysis on a condition of the first input and, where it is false,
    on the same condition of the second. *)
Ltac by_signal H :=
  match type of H with
  | implies ?c ?c' => destruct c eqn:?; [try rewrite (H eq_refl) | destruct c' eqn:?]
  end; clear H.

Ltac compare_scores := vm_compute; discriminate.

Lemma technical_monotone (b b' : BusinessRecord) (f f' : FeatureVector) :
  improves b b' f f' -> _score_technical b f <= _score_technical b' f'.
Proof.
  intros (H1 & _ & _ & H2 & _ & _ & H3 & _ & H4 & _).
  unfold _score_technical.
  by_signal H1; by_signal H2; by_signal H3; by_signal H4; compare_scores.
Qed.

Lemma seo_monotone (b b' : BusinessRecord) (f f' : FeatureVector) :
  improves b b' f f' -> _score_seo f <= _score_seo f'.
Proof.
  intros (_ & _ & _ & _ & H1 & H2 & _ & _ & _ & _ & _ & Hl & Ha & _).
  assert (H3 : implies (2 <=? length (languages f))%nat (2 <=? length (languages f'))%nat).
  { intros H. apply Nat.leb_le in H. apply Nat.leb_le. lia. }
  pose proof (ge_float_implies _ _ 300 Ha) as H4.
  unfold _score_seo.
  by_signal H1; by_signal H2; by_signal H3; by_signal H4; compare_scores.
Qed.

Lemma content_monotone (b b' : BusinessRecord) (f f' : FeatureVector) :
  improves b b' f f' -> _score_content f <= _score_content f'.
Proof.
  intros (_ & _ & _ & _ & _ & _ & _ & H1 & _ & _ & _ & _ & Ha & Hp).
  pose proof (ge_float_implies _ _ 400 Ha) as H2.
  pose proof (ge_float_implies _ _ 250 Ha) as H3.
  assert (H4 : implies (total_pages f >=? 3)%Z (total_pages f' >=? 3)%Z).
  { intros H. apply Z.geb_le in H. apply Z.geb_le. lia. }
  unfold _score_content.
  by_signal H1; by_signal H2; by_signal H3; by_signal H4; compare_scores.
Qed.

Lemma trust_monotone (b b' : BusinessRecord) (f f' : FeatureVector) :
  improves b b' f f' -> _score_trust b f <= _score_trust b' f'.
Proof.
  intros (_ & Hr & H1 & _ & _ & _ & _ & _ & _ & H2 & H3 & _).
  pose proof (ge_float_implies _ _ (42 # 10) Hr) as H4.
  unfold _score_trust.
  by_signal H1; by_signal H2; by_signal H3; by_signal H4; compare_scores.
Qed.

Lemma inject_Z_le (x y : Z) : inject_Z x <= inject_Z y -> (x <= y)%Z.
Proof. unfold Qle, inject_Z. cbn [Qnum Qden]. lia. Qed.

(** X25: No signal ever costs points: if a business and its features are at
    least as good as another, signal by signal, then each of its four
    subscores and its overall score are at least as high. *)
Theorem score_rewards_every_signal (b b' : BusinessRecord) (f f' : FeatureVector)
  (a a' : MaturityAssessment) :
  improves b b' f f' ->
  score b f = Some a ->
  score b' f' = Some a' ->
  technical (subscores a) <= technical (subscores a') /\
  seo (subscores a) <= seo (subscores a') /\
  content (subscores a) <= content (subscores a') /\
  trust (subscores a) <= trust (subscores a') /\
  overall_score a <= overall_score a'.
Proof.
  intros Himp Hscore Hscore'.
  destruct (score_inv b f a Hscore) as [Hsub Hover].
  destruct (score_inv b' f' a' Hscore') as [Hsub' Hover'].
  pose proof (technical_monotone b b' f f' Himp) as Ht.
  pose proof (seo_monotone b b' f f' Himp) as Hs.
  pose proof (content_monotone b b' f f' Himp) as Hc.
  pose proof (trust_monotone b b' f f' Himp) as Hr.
  rewrite Hsub, Hsub'. unfold _calculate_subscores. cbn [technical seo content trust].
  repeat (split; [assumption|]).
  destruct (mean4_integral b f) as (n & Hmean & _ & Hn).
  destruct (mean4_integral b' f') as (n' & Hmean' & _ & Hn').
  pose proof (py_round2_quarters n) as Hround.
  pose proof (py_round2_quarters n') as Hround'.
  rewrite <- Hmean, <- Hover in Hround. rewrite <- Hmean', <- Hover' in Hround'.
  destruct (technical_integral b f) as (t & Et & _).
  destruct (seo_integral f) as (s & Es & _).
  destruct (content_integral f) as (c & Ec & _).
  destruct (trust_integral b f) as (r & Er & _).
  destruct (technical_integral b' f') as (t' & Et' & _).
  destruct (seo_integral f') as (s' & Es' & _).
  destruct (content_integral f') as (c' & Ec' & _).
  destruct (trust_integral b' f') as (r' & Er' & _).
  rewrite Et, Es, Ec, Er in *. rewrite Et', Es', Ec', Er' in *.
  cbn [Qnum inject_Z] in Hn, Hn'.
  apply inject_Z_le in Ht, Hs, Hc, Hr.
  rewrite Hround, Hround', Hmean, Hmean'.
  unfold Qle, Qdiv, Qmult, Qinv, inject_Z. cbn [Qnum Qden Pos.mul]. lia.
Qed.

End ScoreMonotone.

Section ScoreMonotoneSamples.

Import Scoring ScoreOrder Samples PipelineSamples.
Open Scope Q_scope.

(** [score_rewards_every_signal]: the business without a web site and
    without pages against the best sample business. *)
Lemma score_rewards_every_signal_witness :
  exists a a',
    score (llm := quiet_llm) corner_shop (Features.build_feature_vector
                                           (parser := FeatureSamples.blind_parser)
                                           corner_shop []) = Some a /\
    score (llm := quiet_llm) best_business best_features = Some a' /\
    technical (subscores a) <= technical (subscores a') /\
    seo (subscores a) <= seo (subscores a') /\
    content (subscores a) <= content (subscores a') /\
    trust (subscores a) <= trust (subscores a') /\
    overall_score a <= overall_score a'.
Proof.
  eexists. eexists. split; [reflexivity|]. split; [reflexivity|].
  eapply (score_rewards_every_signal (llm := quiet_llm) corner_shop best_business
            _ best_features); [|reflexivity | reflexivity].
  unfold improves, implies. cbn.
  repeat split; try discriminate; try reflexivity; try lia.
Defined.

End ScoreMonotoneSamples.

(** ** pipeline/orchestrator.py: what discovery hands to the analysis *)

Section DiscoveryFacts.

Import Discovery DiscoveryShapes.

Context {World : Type} {places : Places World}.

Lemma dict_contains_In (key : string) (d : Discovered) :
  dict_contains key d = false -> ~ In key (map fst d).
Proof.
  unfold dict_contains. induction d as [|[k v] d IH]; cbn; [tauto|].
  intros H. apply orb_false_iff in H as [Hk Hd].
  intros [-> | Hin]; [rewrite String.eqb_refl in Hk; discriminate | exact (IH Hd Hin)].
Qed.

Lemma add_if_new_keyed (d : Discovered) (record : BusinessRecord) :
  well_keyed d ->
  well_keyed (add_if_new d record) /\
  (length (add_if_new d record) <= S (length d))%nat.
Proof.
  intros [Hkeys Hnodup]. unfold add_if_new.
  destruct (dict_contains (place_id record) d) eqn:E; [repeat split; auto|].
  rewrite length_app. cbn [length]. split; [split | lia].
  - apply Forall_app. split; [exact Hkeys | constructor; [reflexivity | constructor]].
  - rewrite map_app. cbn [map fst]. apply NoDup_app; [exact Hnodup | | ].
    + constructor; [intros [] | constructor].
    + intros k Hk [<- | []]. exact (dict_contains_In _ _ E Hk).
Qed.

Lemma add_all_keyed (results : list BusinessRecord) (d : Discovered) :
  well_keyed d ->
  well_keyed (fold_left add_if_new results d) /\
  (length (fold_left add_if_new results d) <= length d + length results)%nat.
Proof.
  revert d. induction results as [|r results IH]; intros d Hd; cbn [fold_left length].
  - split; [exact Hd | lia].
  - destruct (add_if_new_keyed d r Hd) as [Hd' Hlen].
    destruct (IH _ Hd') as [Hd'' Hlen']. split; [exact Hd'' | lia].
Qed.

Lemma discover_loop_keyed (limit : Z) (coords : Coordinates) (radius : Z)
  (language : string) (business_types : list string) :
  (1 <= limit)%Z ->
  (forall w keyword c r l fetch results w',
     discover w keyword c r l limit fetch = (Some results, w') ->
     (Z.of_nat (length results) <= limit)%Z) ->
  forall (d : Discovered) (w : World),
    well_keyed d ->
    let d' := fst (discover_loop limit coords radius language business_types d w) in
    well_keyed d' /\
    (Z.of_nat (length d')
     <= Z.of_nat (length d) + limit * Z.of_nat (length business_types))%Z.
Proof.
  intros Hlimit Hcap.
  induction business_types as [|t business_types IH]; intros d w Hd; cbn zeta;
    cbn [discover_loop length].
  - cbn [fst]. split; [exact Hd | lia].
  - destruct (discover w t coords radius language limit true) as [[results|] w'] eqn:E.
    + destruct (add_all_keyed results d Hd) as [Hd' Hlen].
      destruct (IH _ w' Hd') as [Hd'' Hlen'']. cbn zeta in *.
      split; [exact Hd''|].
      pose proof (Hcap _ _ _ _ _ _ _ _ E). lia.
    + destruct (IH d w' Hd) as [Hd'' Hlen'']. cbn zeta in *.
      split; [exact Hd'' | lia].
Qed.

(** X26: Discovery hands on businesses with pairwise distinct place ids. When
    the Places client returns at most [max_results] records per call, their
    number is at most [max_businesses], or at most the number of business
    types where that is larger: every type is asked for at least one. *)
Theorem discovered_businesses_distinct_and_bounded (max_businesses search_radius : Z)
  (default_locale : string) (business_types : list string) (location : Q * Q)
  (w : World) :
  (forall w keyword c r l n fetch results w',
     (1 <= n)%Z ->
     discover w keyword c r l n fetch = (Some results, w') ->
     (Z.of_nat (length results) <= n)%Z) ->
  let found :=
    fst (_discover_businesses max_businesses search_radius default_locale
           business_types location w) in
  NoDup (map place_id found) /\
  (Z.of_nat (length found)
   <= Z.max max_businesses (Z.of_nat (length business_types)))%Z.
Proof.
  intros Hcap. cbn zeta. unfold _discover_businesses.
  set (n := Z.of_nat (length business_types)).
  set (limit := Z.max 1 (max_businesses / Z.max n 1)).
  assert (Hlimit : (1 <= limit)%Z) by (unfold limit; lia).
  pose proof (discover_loop_keyed limit
                (mkCoordinates (fst location) (snd location)) search_radius
                (fst (Urllib.break Orchestrator.is_dash default_locale))
                business_types Hlimit
                (fun w keyword c r l fetch results w' =>
                   Hcap w keyword c r l limit fetch results w' Hlimit)
                [] w (conj (Forall_nil _) (NoDup_nil _))) as Hloop.
  cbn zeta in Hloop.
  destruct (discover_loop limit _ search_radius _ business_types [] w) as [d w'].
  cbn [fst length] in *. destruct Hloop as [[Hkeys Hnodup] Hlen].
  fold n in Hlen. rewrite length_map. split.
  - assert (Hmap : map place_id (map snd d) = map fst d).
    { clear - Hkeys. induction Hkeys as [|[k v] d Hk _ IH]; [reflexivity|].
      cbn in *. rewrite IH, Hk. reflexivity. }
    rewrite Hmap. exact Hnodup.
  - assert (Hbound : (limit * n <= Z.max max_businesses n)%Z).
    { unfold limit. assert (Hn : (0 <= n)%Z) by (unfold n; lia).
      destruct (Z.eq_dec n 0) as [-> | Hn0]; [lia|].
      rewrite (Z.max_l n 1) by lia.
      pose proof (Z.mul_div_le max_businesses n ltac:(lia)).
      destruct (Z.max_spec 1 (max_businesses / n)) as [[_ ->] | [_ ->]]; lia. }
    lia.
Qed.

End DiscoveryFacts.

Section DiscoverySampleFacts.

Import Discovery DiscoverySamples.

#[local] Existing Instance two_places.

(** [discovered_businesses_distinct_and_bounded] on two business types that
    find the same two businesses, with room for five. *)
Lemma discovered_businesses_distinct_and_bounded_witness :
  NoDup (map place_id
           (fst (_discover_businesses 5 1000 "ar-SA" ["dentist"; "clinic"]
                   (24 # 1, 46 # 1)%Q tt))) /\
  (Z.of_nat (length (fst (_discover_businesses 5 1000 "ar-SA" ["dentist"; "clinic"]
                            (24 # 1, 46 # 1)%Q tt)))
   <= Z.max 5 (Z.of_nat (length ["dentist"; "clinic"])))%Z.
Proof.
  apply (discovered_businesses_distinct_and_bounded 5 1000 "ar-SA"
           ["dentist"; "clinic"] (24 # 1, 46 # 1)%Q tt).
  intros w keyword c r l n fetch results w' Hn. cbn [discover two_places].
  intros [= <- _]. rewrite length_firstn. lia.
Defined.

End DiscoverySampleFacts.

(** ** cli.py and pipeline/orchestrator.py: the two slug functions *)

Section SlugAgreement.

Import Urllib Py Orchestrator SlugShapes CliShapes.

#[local] Abbreviation other := (fun c : ascii => negb (is_slug_char c)).

Lemma slug_not_dash (c : ascii) : is_slug_char c = true -> Ascii.eqb c "-" = false.
Proof. destruct c as [[] [] [] [] [] [] [] []]; cbn; intros H; (reflexivity || discriminate). Qed.

Lemma ascii_lower_same_class (c : ascii) :
  is_ascii c = true -> same_class (lower_char c) = true.
Proof. destruct c as [[] [] [] [] [] [] [] []]; cbn; intros H; (reflexivity || discriminate). Qed.

Lemma str_lstrip_forall (q : ascii -> bool) (s : string) :
  forallb_str q s = true -> forallb_str q (Str.lstrip s) = true.
Proof.
  induction s as [|c s IH]; cbn [Str.lstrip]; [trivial|].
  intros H. destruct (Str.is_py_space c); [|exact H].
  apply andb_prop in H. apply IH, H.
Qed.

Lemma str_rstrip_forall (q : ascii -> bool) (s : string) :
  forallb_str q s = true -> forallb_str q (Str.rstrip s) = true.
Proof.
  induction s as [|c s IH]; cbn [Str.rstrip forallb_str]; [trivial|].
  intros H. apply andb_prop in H as [Hc Hs]. specialize (IH Hs).
  destruct (Str.rstrip s) as [|e r].
  - destruct (Str.is_py_space c); cbn [forallb_str]; [reflexivity | rewrite Hc; reflexivity].
  - cbn [forallb_str] in *. rewrite Hc, IH. reflexivity.
Qed.

Lemma lowered_same_class (s : string) :
  forallb_str is_ascii s = true -> forallb_str same_class (lower s) = true.
Proof.
  induction s as [|c s IH]; cbn [lower forallb_str]; [trivial|].
  intros H. apply andb_prop in H as [Hc Hs].
  rewrite (ascii_lower_same_class c Hc), (IH Hs). reflexivity.
Qed.

Lemma join_sep_cons (sep w : string) (ws : list string) :
  Text.join sep (w :: ws)
  = w ++ match ws with [] => "" | _ :: _ => sep ++ Text.join sep ws end.
Proof. destruct ws; cbn; [rewrite append_empty_r|]; reflexivity. Qed.

Lemma slug_parts_not_empty (s : string) :
  Forall (fun part => is_empty part = false) (slug_parts s).
Proof.
  unfold slug_parts. rewrite Forall_forall. intros part Hin.
  apply filter_In in Hin as [_ H]. apply negb_true_iff in H. exact H.
Qed.

Lemma join_parts_empty (sep : string) (ws : list string) :
  Forall (fun part => is_empty part = false) ws -> Text.join sep ws = "" -> ws = [].
Proof.
  destruct ws as [|w ws]; [reflexivity|].
  intros H. inversion H as [|? ? Hw _]; subst.
  rewrite join_sep_cons. destruct w; [discriminate | discriminate].
Qed.

Lemma split_on_cons (sep : ascii) (s : string) :
  exists p ps, Cli.split_on sep s = p :: ps.
Proof.
  destruct s as [|c s]; cbn [Cli.split_on]; [eexists; eexists; reflexivity|].
  destruct (Ascii.eqb c sep); [eexists; eexists; reflexivity|].
  destruct (Cli.split_on sep s); eexists; eexists; reflexivity.
Qed.

(** The first part of a dashed string is empty exactly when the string does
    not begin with a slug character. *)
Lemma split_on_dashed (s : string) :
  forallb_str same_class s = true ->
  exists p ps,
    Cli.split_on "-" (Cli.dash_others s) = p :: ps /\
    is_empty p = negb (starts_slug s).
Proof.
  destruct s as [|c s]; [exists "", []; split; reflexivity|].
  cbn [forallb_str]. intros H. apply andb_prop in H as [Hc _].
  unfold same_class in Hc. apply Bool.eqb_prop in Hc.
  cbn [Cli.dash_others starts_slug]. rewrite Hc.
  destruct (is_slug_char c) eqn:Ec; cbn [Cli.split_on].
  - rewrite (slug_not_dash c Ec).
    destruct (split_on_cons "-" (Cli.dash_others s)) as (p & ps & ->).
    eexists. eexists. split; reflexivity.
  - rewrite Ascii.eqb_refl. eexists. eexists. split; reflexivity.
Qed.

Lemma lstrip_sub_runs (s : string) :
  lstrip_char "-" (sub_runs other "-" false s) = sub_runs other "-" true s.
Proof.
  destruct s as [|c s]; [reflexivity|]. cbn [sub_runs].
  destruct (is_slug_char c) eqn:Ec; cbn [negb lstrip_char].
  - rewrite (slug_not_dash c Ec). reflexivity.
  - rewrite Ascii.eqb_refl. apply lstrip_dash_fixed.
    apply (sub_runs_no_double other true s); [|reflexivity].
    intros d Hd. apply negb_false_iff in Hd. exact (slug_not_dash d Hd).
Qed.

(** Stripped on the right, the dashed runs are the parts joined by dashes. *)
Lemma rstrip_sub_runs (s : string) :
  forallb_str same_class s = true ->
  rstrip_char "-" (sub_runs other "-" true s) = Text.join "-" (slug_parts s).
Proof.
  induction s as [|c s IH]; [reflexivity|].
  cbn [forallb_str]. intros H. apply andb_prop in H as [Hc Hs].
  specialize (IH Hs).
  pose proof (slug_parts_not_empty s) as Hparts.
  unfold same_class in Hc. apply Bool.eqb_prop in Hc.
  destruct (split_on_dashed s Hs) as (p & ps & Hsp & Hp).
  unfold slug_parts in *. cbn [sub_runs Cli.dash_others]. rewrite Hc.
  destruct (is_slug_char c) eqn:Ec; cbn [negb Cli.split_on].
  2:{ rewrite Ascii.eqb_refl. cbn [filter is_empty negb]. exact IH. }
  rewrite (slug_not_dash c Ec), Hsp in *. cbn [filter is_empty negb] in *.
  destruct s as [|d s'].
  { cbn in Hsp. injection Hsp as <- <-. cbn. rewrite (slug_not_dash c Ec). reflexivity. }
  cbn [starts_slug] in Hp. cbn [sub_runs] in *.
  destruct (is_slug_char d) eqn:Ed; cbn [negb] in *.
  - (* the part goes on *)
    destruct p as [|e p']; [discriminate|]. cbn [is_empty negb] in *.
    cbn [rstrip_char]. cbn [rstrip_char] in IH. rewrite IH.
    rewrite !join_sep_cons. cbn [append]. reflexivity.
  - (* the part ends here *)
    destruct p as [|e p']; [|discriminate]. cbn [is_empty negb] in *.
    cbn [rstrip_char]. rewrite IH, Ascii.eqb_refl.
    rewrite (join_sep_cons "-" (String c "")).
    destruct (Text.join "-" (filter (fun part => negb (is_empty part)) ps)) eqn:Ej.
    + apply join_parts_empty in Ej; [|exact Hparts]. rewrite Ej.
      rewrite (slug_not_dash c Ec). reflexivity.
    + destruct (filter (fun part => negb (is_empty part)) ps);
        [discriminate | reflexivity].
Qed.

(** X27: On a name of ASCII characters only, the CLI and the pipeline make the
    same file name stem. *)
Theorem slug_functions_agree_on_ascii (value : string) :
  forallb_str is_ascii value = true ->
  Cli._slugify value = Orchestrator._slugify value.
Proof.
  intros Hascii.
  assert (H1 : forallb_str same_class (lower (Str.strip value)) = true).
  { apply lowered_same_class. unfold Str.strip.
    apply str_rstrip_forall, str_lstrip_forall, Hascii. }
  unfold Cli._slugify, Orchestrator._slugify.
  set (v1 := lower (Str.strip value)) in *.
  set (v2 := sub_runs other "-" false v1).
  assert (N2 : no_double_dash v2 = true).
  { apply (sub_runs_no_double other false v1).
    intros d Hd. apply negb_false_iff in Hd. exact (slug_not_dash d Hd). }
  assert (H3 : sub_runs is_dash "-" false v2 = v2).
  { apply sub_runs_fixed; [|exact N2 | discriminate].
    apply forallb_str_all. intros c. destruct (is_dash c); reflexivity. }
  rewrite H3. unfold strip_char, v2.
  rewrite lstrip_sub_runs, (rstrip_sub_runs v1 H1). reflexivity.
Qed.

End SlugAgreement.

Section SlugAgreementSamples.

Import Urllib CliShapes.

(** [slug_functions_agree_on_ascii] on a name with spaces and signs. *)
Lemma slug_functions_agree_on_ascii_witness :
  Cli._slugify "  Test & Business Name!! " = Orchestrator._slugify "  Test & Business Name!! ".
Proof. apply (slug_functions_agree_on_ascii "  Test & Business Name!! "). reflexivity. Defined.

End SlugAgreementSamples.

(** ** enrichment/web_crawler.py: what a snapshot holds *)

Section SnapshotFacts.

Import Urllib Crawler.

Context {lib : Library} {html_lib : Html}.
Context {World RobotParser : Type} {net : Net World RobotParser}.

Lemma crawl_snapshots_made (max_pages : Z) (cache : RobotsCache) (w : World)
  (seed : string) (st : Crawl) :
  crawl_from max_pages cache w seed = Some st ->
  Forall (fun s => exists target html, s = make_snapshot target html) (snapshots st).
Proof.
  unfold crawl_from.
  destruct (_normalize_url seed) as [root|]; [|intros [= <-]; constructor].
  destruct (is_empty root); [intros [= <-]; constructor|].
  apply (crawl_loop_preserves max_pages
           (fun s => Forall (fun p => exists target html, p = make_snapshot target html)
                       (snapshots s)) root); [|constructor].
  intros s s' Hcond HP Hbody.
  unfold loop_condition in Hcond.
  destruct (to_visit s) as [|target rest] eqn:Ef; [discriminate|].
  destruct (crawl_body_cases max_pages root s s' target rest Ef Hbody)
    as [(_ & -> & _) | (_ & _ & cache' & w' & _ & Hfetch)]; [exact HP|].
  destruct Hfetch as [(_ & -> & _) | (html & links & _ & _ & -> & _)]; [exact HP|].
  apply Forall_app. split; [exact HP|].
  constructor; [|constructor]. exists target, html. reflexivity.
Qed.

(** X28: Every snapshot of a crawl holds a cleaned title and a cleaned text
    (cleaning them again changes nothing), and has a language only if its
    cleaned text has at least 20 characters. *)
Theorem snapshots_hold_clean_text (max_pages : Z) (cache : RobotsCache) (w : World)
  (seed : string) (st : Crawl) :
  crawl_from max_pages cache w seed = Some st ->
  Forall (fun s =>
            Str.clean_whitespace (Some (title s)) = title s /\
            Str.clean_whitespace (Some (extracted_text s)) = extracted_text s /\
            (language s <> None -> (20 <= String.length (extracted_text s))%nat))
    (snapshots st).
Proof.
  intros Hrun. pose proof (crawl_snapshots_made _ _ _ _ _ Hrun) as Hmade.
  revert Hmade. apply Forall_impl. intros s (target & html & ->).
  unfold make_snapshot. cbn [title extracted_text language].
  split; [apply clean_idem|]. split; [apply clean_idem|].
  unfold _detect_language.
  destruct (Nat.ltb_spec (String.length
              (Str.clean_whitespace
                 (Some match extract_text html with
                       | Some t => if is_empty t then get_text html else t
                       | None => get_text html
                       end))) 20) as [Hshort|Hlong]; [congruence | intros _; exact Hlong].
Qed.

End SnapshotFacts.

Section SnapshotSamples.

Import Urllib Crawler CrawlSamples.

#[local] Existing Instance plain_library.
#[local] Existing Instance site_net.
#[local] Existing Instance site_html.

(** [snapshots_hold_clean_text] on the crawl of the sample site. *)
Lemma snapshots_hold_clean_text_witness :
  exists st,
    crawl_from 5 [] tt "http://s" = Some st /\
    Forall (fun s =>
              Str.clean_whitespace (Some (title s)) = title s /\
              Str.clean_whitespace (Some (extracted_text s)) = extracted_text s /\
              (language s <> None -> (20 <= String.length (extracted_text s))%nat))
      (snapshots st).
Proof.
  eexists. split; [vm_compute; reflexivity|].
  apply (snapshots_hold_clean_text 5 [] tt "http://s").
  vm_compute. reflexivity.
Defined.

End SnapshotSamples.

(** ** pipeline/orchestrator.py: the pages behind a feature vector *)

Section PipelinePages.

Import Urllib Crawler UrlShapes Orchestrator.

Context {lib : Library} {html_lib : Html}.
Context {World RobotParser : Type} {net : Net World RobotParser}.
Context {parser : Features.PageParser} {llm : Scoring.SupportsLLM}.
Context {casing : Casing}.

Lemma crawl_from_within_cap (max_pages : Z) (cache : RobotsCache) (w : World)
  (seed : string) (st : Crawl) :
  (0 <= max_pages)%Z ->
  crawl_from max_pages cache w seed = Some st ->
  (Z.of_nat (length (snapshots st)) <= max_pages)%Z.
Proof.
  intros Hmax. unfold crawl_from.
  destruct (_normalize_url seed) as [root|] eqn:Enorm; [|intros [= <-]; exact Hmax].
  destruct (is_empty root); [intros [= <-]; exact Hmax|].
  intros Hloop.
  assert (Hself : same_netloc root root).
  { destruct (normalize_reparse seed root Enorm) as (parsed & _ & _ & _ & _ & Hre).
    eexists. eexists. split; [exact Hre|]. split; [exact Hre | reflexivity]. }
  assert (Hinit : crawl_invariant max_pages root (mkCrawl [root] [] [] cache w)).
  { unfold crawl_invariant. cbn. repeat split; try constructor; trivial. }
  destruct (crawl_loop_invariant max_pages root _ st Hinit Hloop) as (Hlen & _).
  exact Hlen.
Qed.

Lemma total_pages_counts (b : BusinessRecord) (pgs : list PageSnapshot) :
  total_pages (Features.build_feature_vector b pgs) = Z.of_nat (length pgs).
Proof. destruct pgs; reflexivity. Qed.

Lemma analyze_loop_pages (include_web_analysis : bool) (bs : list BusinessRecord) :
  forall (acc res : list AnalyzedBusiness) (cw cw' : @CrawlerState World RobotParser),
  analyze_loop include_web_analysis bs acc cw = Some (res, cw') ->
  exists new,
    res = (acc ++ new)%list /\
    Forall (fun a =>
              total_pages (feature_vector a) = Z.of_nat (length (pages a)) /\
              (length (pages a) <= 5)%nat)
      new.
Proof.
  induction bs as [|b bs IH]; intros acc res cw cw'; cbn [analyze_loop].
  - intros [= <- <-]. exists []. rewrite app_nil_r. split; [reflexivity | constructor].
  - unfold bind.
    destruct (pages_of include_web_analysis b cw) as [[pgs cw1]|] eqn:Ep; [|discriminate].
    assert (Hcap : (length pgs <= 5)%nat).
    { revert Ep. unfold pages_of, bind.
      destruct (if include_web_analysis then website_to_crawl b else None) as [site|].
      - destruct (crawl_from 5 (fst cw) (snd cw) site) as [st|] eqn:Ec; [|discriminate].
        intros [= <- _].
        pose proof (crawl_from_within_cap 5 _ _ _ _ ltac:(lia) Ec). lia.
      - intros [= <- _]. cbn. lia. }
    destruct (Scoring.score b (Features.build_feature_vector b pgs)) as [m|].
    + intros Hloop. destruct (IH _ _ _ _ Hloop) as (new & -> & Hall).
      eexists (_ :: new). rewrite <- app_assoc. cbn [app].
      split; [reflexivity|]. constructor; [|exact Hall].
      cbn [feature_vector pages]. split; [apply total_pages_counts | exact Hcap].
    + intros Hloop. destruct (IH _ _ _ _ Hloop) as (new & -> & Hall).
      exists new. split; [reflexivity | exact Hall].
Qed.

(** X29: The feature vector of every analysis of the pipeline counts the pages
    of that analysis, and these are at most five: the cap of the crawler
    that the orchestrator builds. *)
Theorem pipeline_pages_within_cap (include_web_analysis : bool)
  (businesses : list BusinessRecord) (analyses : list AnalyzedBusiness)
  (cw cw' : @CrawlerState World RobotParser) :
  _analyze_businesses include_web_analysis businesses cw = Some (analyses, cw') ->
  Forall (fun a =>
            total_pages (feature_vector a) = Z.of_nat (length (pages a)) /\
            (0 <= total_pages (feature_vector a) <= 5)%Z)
    analyses.
Proof.
  unfold _analyze_businesses. intros Hloop.
  destruct (analyze_loop_pages _ _ _ _ _ _ Hloop) as (new & -> & Hall).
  cbn [app]. revert Hall. apply Forall_impl. intros a [Hcount Hcap].
  split; [exact Hcount | lia].
Qed.

End PipelinePages.

Section PipelinePagesSamples.

Import Urllib Crawler Orchestrator.
Import Samples FeatureSamples CrawlSamples PipelineSamples.

#[local] Existing Instance plain_library.
#[local] Existing Instance site_net.
#[local] Existing Instance site_html.
#[local] Existing Instance blind_parser.
#[local] Existing Instance quiet_llm.
#[local] Existing Instance plain_casing.

(** [pipeline_pages_within_cap] on the two sample businesses. *)
Lemma pipeline_pages_within_cap_witness :
  exists analyses cw',
    _analyze_businesses true [best_business; corner_shop] ([], tt)
    = Some (analyses, cw') /\
    Forall (fun a =>
              total_pages (feature_vector a) = Z.of_nat (length (pages a)) /\
              (0 <= total_pages (feature_vector a) <= 5)%Z)
      analyses.
Proof.
  eexists. eexists. split; [vm_compute; reflexivity|].
  eapply (pipeline_pages_within_cap true [best_business; corner_shop] _ ([], tt)).
  vm_compute. reflexivity.
Defined.

End PipelinePagesSamples.

Section NormalizeSamples.

Import Urllib Crawler CrawlSamples.

#[local] Existing Instance plain_library.

(** [normalize_non_root] on a URL with a path, a trailing slash and a
    query. *)
Lemma normalize_non_root_witness :
  _normalize_url "http://s/a/b/?q=1" = Some "http://s/a/b" /\
  (forall r, "http://s/a/b" <> r ++ "/") /\
  _normalize_url "http://s/a/b" = Some "http://s/a/b".
Proof.
  split; [reflexivity|].
  eapply (normalize_non_root "http://s/a/b/?q=1" "http://s/a/b"); reflexivity.
Defined.

End NormalizeSamples.
